(** * gyxy: an intercepting HTTP/HTTPS forward proxy

    A shallow embedding of the [proxy] package (http.go, https.go,
    proxy.go, types.go) and of the stand-alone program in main.go,
    followed by the properties of the connection-handling pipeline.

    Go strings are byte sequences and are modelled as [list ascii].
    Network, file-system, clock and cryptographic operations are
    answered by a [World] record, one field per operation; a handler is
    a function from the world to the list of effects it performs. *)

From Stdlib Require Import List ZArith Lia Ascii String Bool DecimalString DecimalPos.
From stdpp Require Import gmap strings list.
Import ListNotations.

(** ** Byte strings *)

Abbreviation str := (list ascii).

Coercion list_ascii_of_string : string >-> list.

Definition CR : ascii := ascii_of_nat 13.
Definition LF : ascii := ascii_of_nat 10.
Definition CRLF : str := [CR; LF].

(** ** Errors and results *)

Inductive error :=
| io_EOF
| io_ErrUnexpectedEOF
| net_Error                              (* timeout, reset, refused, ... *)
| errorString (msg : string)             (* fmt.Errorf without %w *)
| wrapError (msg : string) (e : error)   (* fmt.Errorf with %w *)
| fuel_exhausted.                        (* the end of a loop bound, never reached *)

Inductive result (A : Type) :=
| Ok (a : A)
| Err (e : error).
Arguments Ok {A} a.
Arguments Err {A} e.

Definition is_EOF (e : error) : bool :=
  match e with io_EOF => true | _ => false end.

(** ** package strings *)

(** [asciiSpace] of package strings: tab, LF, VT, FF, CR and space. *)
Definition isSpace (c : ascii) : bool :=
  match N_of_ascii c with
  | 9%N | 10%N | 11%N | 12%N | 13%N | 32%N => true
  | _ => false
  end.

Fixpoint TrimLeft (s : str) : str :=
  match s with
  | c :: s' => if isSpace c then TrimLeft s' else s
  | [] => []
  end.

Definition TrimRight (s : str) : str := rev (TrimLeft (rev s)).

(** strings.TrimSpace on the ASCII white space table. Go also strips the
    Unicode spaces (U+0085, U+00A0, U+2000...) of a string whose first or
    last rune is not ASCII; such bytes are ordinary characters here. *)
Definition TrimSpace (s : str) : str := TrimRight (TrimLeft s).

Fixpoint HasPrefix (s prefix : str) : bool :=
  match prefix, s with
  | [], _ => true
  | p :: prefix', c :: s' => Ascii.eqb p c && HasPrefix s' prefix'
  | _ :: _, [] => false
  end.

Definition consHead (c : ascii) (parts : list str) : list str :=
  match parts with
  | p :: ps => (c :: p) :: ps
  | [] => [[c]]
  end.

(** The worker of Split and SplitN for a non-empty separator: [skip]
    counts the bytes of a separator that has matched and is being passed
    over, [n] is the number of pieces still allowed ([None]: no bound). *)
Fixpoint genSplit (sep : str) (skip : nat) (n : option nat) (s : str) : list str :=
  match s with
  | [] => [[]]
  | c :: s' =>
    match skip with
    | S k => genSplit sep k n s'
    | O =>
      match n with
      | Some 0 | Some 1 => [s]
      | _ =>
        if HasPrefix s sep
        then [] :: genSplit sep (length sep - 1) (pred <$> n) s'
        else consHead c (genSplit sep 0 n s')
      end
    end
  end.

(** strings.Split(s, sep) for a non-empty [sep]. *)
Definition Split (s sep : str) : list str := genSplit sep 0 None s.

(** strings.SplitN(s, sep, n) for a non-empty [sep] and [n > 0]. *)
Definition SplitN (s sep : str) (n : nat) : list str :=
  match n with
  | O => []
  | _ => genSplit sep 0 (Some n) s
  end.

Fixpoint Contains (s substr : str) : bool :=
  HasPrefix s substr ||
  match s with
  | [] => false
  | _ :: s' => Contains s' substr
  end.

Fixpoint Join (elems : list str) (sep : str) : str :=
  match elems with
  | [] => []
  | [e] => e
  | e :: es => e ++ sep ++ Join es sep
  end.

Definition toLowerASCII (c : ascii) : ascii :=
  let n := N_of_ascii c in
  if ((65 <=? n) && (n <=? 90))%N then ascii_of_N (n + 32) else c.

(** A byte below utf8.RuneSelf. *)
Definition isASCII (c : ascii) : bool := (N_of_ascii c <? 128)%N.

(** Two bytes that are equal or the two cases of one ASCII letter. *)
Definition foldsASCII (sr tr : ascii) : bool :=
  Ascii.eqb sr tr || Ascii.eqb (toLowerASCII sr) (toLowerASCII tr).

(** Comparison of ASCII text without regard to case, as HTTP compares
    field names. The requirements of the specification on header names
    are stated with it; the comparison the code makes is [EqualFold],
    defined with the world below. *)
Fixpoint foldEqualASCII (s t : str) : bool :=
  match s, t with
  | [], [] => true
  | sr :: s', tr :: t' => foldsASCII sr tr && foldEqualASCII s' t'
  | _, _ => false
  end.

(** utf8.ValidString: the automaton of package unicode/utf8. [need] is
    the number of continuation bytes still due, [lo] and [hi] bound the
    next one (the second byte of a sequence has a range of its own after
    0xE0, 0xED, 0xF0 and 0xF4). *)
Fixpoint validFrom (s : str) (need : nat) (lo hi : N) : bool :=
  match s with
  | [] => Nat.eqb need 0
  | c :: s' =>
    let b := N_of_ascii c in
    match need with
    | O =>
      if (b <? 128)%N then validFrom s' 0 128 191
      else if ((194 <=? b) && (b <=? 223))%N then validFrom s' 1 128 191
      else if (b =? 224)%N then validFrom s' 2 160 191
      else if (b =? 237)%N then validFrom s' 2 128 159
      else if ((225 <=? b) && (b <=? 239))%N then validFrom s' 2 128 191
      else if (b =? 240)%N then validFrom s' 3 144 191
      else if ((241 <=? b) && (b <=? 243))%N then validFrom s' 3 128 191
      else if (b =? 244)%N then validFrom s' 3 128 143
      else false
    | S k => ((lo <=? b) && (b <=? hi))%N && validFrom s' k 128 191
    end
  end.

Definition utf8_ValidString (s : str) : bool := validFrom s 0 128 191.

(** ** package strconv *)

Definition digitVal (c : ascii) : option Z :=
  let n := N_of_ascii c in
  if ((48 <=? n) && (n <=? 57))%N then Some (Z.of_N n - 48)%Z else None.

Fixpoint parseDigits (acc : Z) (s : str) : option Z :=
  match s with
  | [] => Some acc
  | c :: s' =>
    match digitVal c with
    | Some d => parseDigits (acc * 10 + d) s'
    | None => None
    end
  end.

Definition maxInt : Z := (2 ^ 63 - 1)%Z.
Definition minInt : Z := (- 2 ^ 63)%Z.

(** strconv.Atoi on a 64-bit platform: the value and whether [err] is
    nil. A syntax error gives 0, a value out of range the nearest bound. *)
Definition Atoi (s : str) : Z * bool :=
  let '(neg, digits) :=
    match s with
    | c :: s' =>
      if Ascii.eqb c "-" then (true, s')
      else if Ascii.eqb c "+" then (false, s') else (false, s)
    | [] => (false, [])
    end in
  match digits with
  | [] => (0%Z, false)
  | _ =>
    match parseDigits 0 digits with
    | None => (0%Z, false)
    | Some n =>
      let v := if neg then (- n)%Z else n in
      if (maxInt <? v)%Z then (maxInt, false)
      else if (v <? minInt)%Z then (minInt, false)
      else (v, true)
    end
  end.

(** strconv.Itoa, the verb %d of fmt.Sprintf. *)
Definition Itoa (n : Z) : str :=
  list_ascii_of_string (NilZero.string_of_int (Z.to_int n)).

(** ** package bufio *)

(** A buffered reader over a connection: the bytes the peer will still
    deliver, and the error every read returns once they are used up
    (io.EOF after an orderly shutdown, a net error after a time-out). *)
Record Reader := mkReader {
  pending : str;
  closing : error
}.

Fixpoint cutLine (s : str) : option (str * str) :=
  match s with
  | [] => None
  | c :: s' =>
    if Ascii.eqb c LF then Some ([c], s')
    else match cutLine s' with
         | Some (line, rest) => Some (c :: line, rest)
         | None => None
         end
  end.

(** reader.ReadString('\n'): the bytes up to and including the first LF,
    or all remaining bytes together with the error. *)
Definition ReadString (r : Reader) : str * option error * Reader :=
  match cutLine (pending r) with
  | Some (line, rest) => (line, None, mkReader rest (closing r))
  | None => (pending r, Some (closing r), mkReader [] (closing r))
  end.

(** reader.Peek(n) for [n] below the buffer size; consumes nothing. *)
Definition Peek (r : Reader) (n : nat) : str * option error :=
  if n <=? length (pending r) then (take n (pending r), None)
  else (pending r, Some (closing r)).

(** io.ReadFull(reader, make([]byte, n)). *)
Definition ReadFull (r : Reader) (n : nat) : result str * Reader :=
  if n <=? length (pending r)
  then (Ok (take n (pending r)), mkReader (drop n (pending r)) (closing r))
  else (Err (match pending r with
             | [] => closing r
             | _ => if is_EOF (closing r) then io_ErrUnexpectedEOF else closing r
             end),
        mkReader [] (closing r)).

(** ** types.go *)

Record HTTPRequest := mkHTTPRequest {
  Method : str;
  Path : str;
  Protocol : str;
  Port : str;
  Host : str;
  UserAgent : str;
  ProxyConnection : str;
  Raw : str
}.

Record HTTPResponse := mkHTTPResponse {
  Proto : str;
  StatusCode : Z;
  Status : str;
  Headers : gmap str str;
  Body : str;
  RawResponse : str
}.

Definition with_Host (v : str) (q : HTTPRequest) : HTTPRequest :=
  mkHTTPRequest (Method q) (Path q) (Protocol q) (Port q) v
                (UserAgent q) (ProxyConnection q) (Raw q).
Definition with_Port (v : str) (q : HTTPRequest) : HTTPRequest :=
  mkHTTPRequest (Method q) (Path q) (Protocol q) v (Host q)
                (UserAgent q) (ProxyConnection q) (Raw q).
Definition with_UserAgent (v : str) (q : HTTPRequest) : HTTPRequest :=
  mkHTTPRequest (Method q) (Path q) (Protocol q) (Port q) (Host q)
                v (ProxyConnection q) (Raw q).
Definition with_ProxyConnection (v : str) (q : HTTPRequest) : HTTPRequest :=
  mkHTTPRequest (Method q) (Path q) (Protocol q) (Port q) (Host q)
                (UserAgent q) v (Raw q).
Definition with_Raw (v : str) (q : HTTPRequest) : HTTPRequest :=
  mkHTTPRequest (Method q) (Path q) (Protocol q) (Port q) (Host q)
                (UserAgent q) (ProxyConnection q) v.

(** ** http.go: parseRequest *)

(** The [switch key] of parseRequest. *)
Definition requestHeader (key value : str) (req : HTTPRequest) : HTTPRequest :=
  if bool_decide (key = "Host") then
    let hostParts := Split value ":" in
    let req := with_Host (nth 0 hostParts []) req in
    if 1 <? length hostParts then with_Port (nth 1 hostParts []) req else req
  else if bool_decide (key = "User-Agent") then with_UserAgent value req
  else if bool_decide (key = "Proxy-Connection") then with_ProxyConnection value req
  else req.

(** The header loop of parseRequest. The reader is mutable state in Go:
    every function that reads returns the reader it leaves behind, also
    when it fails. Every iteration but the last consumes a line, so one
    unit of [fuel] per pending byte and one more is enough. *)
Fixpoint requestHeaders (fuel : nat) (reader : Reader) (req : HTTPRequest) (raw : str)
  : result (HTTPRequest * str) * Reader :=
  match fuel with
  | O => (Err fuel_exhausted, reader)
  | S fuel =>
    let '(line, err, reader) := ReadString reader in
    match err with
    | Some e => if is_EOF e then (Ok (req, raw), reader) else (Err e, reader)
    | None =>
      let raw := raw ++ line in
      if bool_decide (line = CRLF) then (Ok (req, raw), reader)
      else
        let parts := SplitN line ":" 2 in
        if bool_decide (length parts ≠ 2) then requestHeaders fuel reader req raw
        else
          let key := TrimSpace (nth 0 parts []) in
          let value := TrimSpace (nth 1 parts []) in
          requestHeaders fuel reader (requestHeader key value req) raw
    end
  end.

Definition parseRequest (reader : Reader) : result HTTPRequest * Reader :=
  let req := mkHTTPRequest [] [] [] "80" [] [] [] [] in
  let '(firstLine, err, reader) := ReadString reader in
  match err with
  | Some e => (Err e, reader)
  | None =>
    let raw := firstLine in
    let parts := Split (TrimSpace firstLine) " " in
    if length parts <? 3 then (Err (errorString "malformed request line"), reader)
    else
      let req := mkHTTPRequest (nth 0 parts []) (nth 1 parts []) (nth 2 parts [])
                               (Port req) (Host req) (UserAgent req)
                               (ProxyConnection req) (Raw req) in
      match requestHeaders (S (length (pending reader))) reader req raw with
      | (Ok (req, raw), reader) => (Ok (with_Raw raw req), reader)
      | (Err e, reader) => (Err e, reader)
      end
  end.

(** ** proxy.go: parseResponse *)

Fixpoint responseHeaders (fuel : nat) (reader : Reader) (headers : gmap str str) (buf : str)
  : result (gmap str str * str) * Reader :=
  match fuel with
  | O => (Err fuel_exhausted, reader)
  | S fuel =>
    let '(line, err, reader) := ReadString reader in
    match err with
    | Some e => if is_EOF e then (Ok (headers, buf), reader) else (Err e, reader)
    | None =>
      let buf := buf ++ line in
      if bool_decide (line = CRLF) then (Ok (headers, buf), reader)
      else
        let parts := SplitN line ":" 2 in
        if bool_decide (length parts = 2)
        then responseHeaders fuel reader
               (<[TrimSpace (nth 0 parts []) := TrimSpace (nth 1 parts [])]> headers) buf
        else responseHeaders fuel reader headers buf
    end
  end.

(** runtime.maxAlloc on the 64-bit platforms with 48 address bits, and
    the test of runtime.makeslice for a slice of bytes: a length below
    zero or above maxAlloc is a run-time panic. *)
Definition maxAlloc : Z := 2 ^ 48.

Definition makeslice_panics (length : Z) : bool :=
  (length <? 0)%Z || (maxAlloc <? length)%Z.

(** The body of a response, read when the header map has the key
    Content-Length with a positive value. The allocation
    [make([]byte, length)] is taken to succeed: the panic of a length
    for which [makeslice_panics] holds, and the failure of an allocation
    the machine cannot serve, are not part of the result type. *)
Definition responseBody (reader : Reader) (headers : gmap str str)
  : result str * Reader :=
  match headers !! ("Content-Length" : str) with
  | Some cl =>
    let length := fst (Atoi cl) in
    if (0 <? length)%Z then
      ReadFull reader (Z.to_nat length)
    else (Ok [], reader)
  | None => (Ok [], reader)
  end.

Definition parseResponse (reader : Reader) : result HTTPResponse * Reader :=
  let '(statusLine, err, reader) := ReadString reader in
  match err with
  | Some e => (Err e, reader)
  | None =>
    let buf := statusLine in
    let parts := Split (TrimSpace statusLine) " " in
    if length parts <? 2 then (Err (errorString "malformed status line"), reader)
    else
      let proto := nth 0 parts [] in
      let statusCode := fst (Atoi (nth 1 parts [])) in
      let status := if 2 <? length parts then Join (drop 2 parts) " " else [] in
      match responseHeaders (S (length (pending reader))) reader ∅ buf with
      | (Err e, reader) => (Err e, reader)
      | (Ok (headers, buf), reader) =>
        match responseBody reader headers with
        | (Err e, reader) => (Err e, reader)
        | (Ok body, reader) =>
          (Ok (mkHTTPResponse proto statusCode status headers body (buf ++ body)), reader)
        end
      end
  end.

(** The header map with which parseResponse, and parseHTTPResponse of
    the stand-alone program, come to the reading of the body; [None]
    when they return before. *)
Definition headersReached (reader : Reader) : option (gmap str str) :=
  let '(statusLine, err, reader) := ReadString reader in
  match err with
  | Some _ => None
  | None =>
    if length (Split (TrimSpace statusLine) " ") <? 2 then None
    else
      match responseHeaders (S (length (pending reader))) reader ∅ statusLine with
      | (Err _, _) => None
      | (Ok (headers, _), _) => Some headers
      end
  end.

(** The length of the [make([]byte, length)] of parseResponse on a
    stream, when the call is reached. *)
Definition allocation (reader : Reader) : option Z :=
  match headersReached reader with
  | Some headers =>
    match headers !! ("Content-Length" : str) with
    | Some cl =>
      let length := fst (Atoi cl) in
      if (0 <? length)%Z then Some length else None
    | None => None
    end
  | None => None
  end.

(** A call as it runs: it panics, or it returns. *)
Inductive run (A : Type) : Type :=
| Panics
| Returns (a : A).
Arguments Panics {A}.
Arguments Returns {A} a.

(** parseResponse with the panic of makeslice: where the allocation
    panics nothing is returned, elsewhere the result is that of
    [parseResponse]. An allocation that does not panic is taken to
    succeed. *)
Definition parseResponse_run (reader : Reader) : run (result HTTPResponse * Reader) :=
  match allocation reader with
  | Some length =>
    if makeslice_panics length then Panics else Returns (parseResponse reader)
  | None => Returns (parseResponse reader)
  end.

(** ** The world outside the proxy *)

Inductive conn :=
| Client        (* the accepted socket *)
| Origin        (* net.Dial("tcp", target) *)
| ClientTLS     (* tls.Server(client, tlsConfig) *)
| OriginTLS.    (* tls.Dial("tcp", target, ...) *)

Inductive level := DEBUG | INFO | WARN | ERROR.

(** What a handler does to the outside, in program order. *)
Inductive event :=
| SetDeadline (c : conn) (timeout : Z)   (* c.SetDeadline(time.Now().Add(timeout)) *)
| ConnWrite (c : conn) (data : str)
| ConnClose (c : conn)
| ConnCloseWrite (c : conn)
| NetDial (address : str)
| TLSDial (address : str)
| OsOpen (name : str)
| FileClose
| Printf (text : str)                     (* fmt.Printf *)
| LogPrintf (text : string)               (* log.Printf *)
| LoadX509KeyPair (certFile keyFile : str)
| TLSHandshake
| Done                                    (* wg.Done() *)
| WaitReturns                             (* wg.Wait() returns *)
| Log (l : level) (msg : string).

Definition Second : Z := 1000000000.
Definition Minute : Z := 60 * Second.
Definition Hour : Z := 60 * Minute.

(** *** crypto/x509, crypto/tls *)

Definition PrivateKey := Z.
Definition PublicKey := Z.

Definition KeyUsageDigitalSignature : Z := Z.shiftl 1 0.
Definition KeyUsageContentCommitment : Z := Z.shiftl 1 1.
Definition KeyUsageKeyEncipherment : Z := Z.shiftl 1 2.
Definition KeyUsageCertSign : Z := Z.shiftl 1 5.

Inductive ExtKeyUsage := ExtKeyUsageAny | ExtKeyUsageServerAuth | ExtKeyUsageClientAuth.

(** x509.Certificate, the fields this program sets or relies on. A
    template leaves [Issuer], [AuthorityKeyId], [CertPublicKey] and
    [Signature] at their zero values. *)
Record Certificate := mkCertificate {
  SerialNumber : Z;
  Subject_CommonName : str;
  DNSNames : list str;
  NotBefore : Z;                 (* nanoseconds since the epoch *)
  NotAfter : Z;
  KeyUsage : Z;
  ExtKeyUsages : list ExtKeyUsage;
  BasicConstraintsValid : bool;
  IsCA : bool;
  SubjectKeyId : list Z;
  Issuer_CommonName : str;
  AuthorityKeyId : list Z;
  CertPublicKey : PublicKey;
  Signature : str
}.

(** tls.Certificate. [Leaf] is the parsed first certificate of the
    chain, which tls.LoadX509KeyPair fills in. *)
Record tls_Certificate := mk_tls_Certificate {
  Chain : list Certificate;
  Key : PrivateKey;
  Leaf : Certificate
}.

(** One field per operation whose answer the proxy does not determine. *)
Record World := mkWorld {
  (* the accepted connection *)
  client : Reader;
  (* c.Write: whether the k-th write on connection c succeeds *)
  write_ok : conn -> nat -> bool;
  (* os.Open("blocked"): the file's bytes, None when it cannot be opened *)
  blocked_file : option str;
  (* net.Dial("tcp", address) and what the origin then sends *)
  dial_ok : str -> bool;
  origin : Reader;
  (* tls.LoadX509KeyPair("certs/rootCA.pem", "certs/rootCA.key") *)
  root_ca : result tls_Certificate;
  (* time.Now() in generateCertificate: its successive readings, in
     nanoseconds since the epoch *)
  clock : nat -> Z;
  (* time.Time.Format(time.RFC3339Nano) *)
  format_RFC3339Nano : Z -> str;
  (* crypto/sha256 *)
  sha256_Sum : str -> str;
  (* crypto/rsa: key generation, the public half, PKCS#1 v1.5 with SHA-256 *)
  rsa_GenerateKey : result PrivateKey;
  rsa_Public : PrivateKey -> PublicKey;
  rsa_Sign : PrivateKey -> Certificate -> result str;
  rsa_Verify : PublicKey -> Certificate -> str -> bool;
  (* clientTLS.Handshake() and tls.Dial("tcp", address, ...) *)
  handshake_ok : bool;
  tls_dial_ok : str -> bool;
  (* the decrypted streams of the tunnel, as the chunks Read returns *)
  client_tls : list str * error;
  origin_tls : list str * error;
  (* which goroutine of the tunnel takes the next step *)
  schedule : list bool;
  (* strings.EqualFold on what remains of two strings at the first byte
     above 0x7f: UTF-8 decoding and the simple case folding of package
     unicode, whose tables are not part of this development *)
  unicode_EqualFold : str -> str -> bool
}.

(** *** strings.EqualFold

    The loop of the Go implementation over the bytes of both strings
    while both are ASCII: two bytes match when equal or when they are
    the two cases of one letter. At the first position where either
    string has a byte above 0x7f it jumps to [hasUnicode] with what
    remains of both strings; that part is answered by the world, and
    nothing is assumed of it: it may equate strings of different
    lengths, as Go does for the Kelvin sign U+212A and the letter k. *)
Fixpoint EqualFold (w : World) (s t : str) : bool :=
  match s, t with
  | [], [] => true
  | sr :: s', tr :: t' =>
    if negb (isASCII sr) || negb (isASCII tr) then unicode_EqualFold w s t
    else foldsASCII sr tr && EqualFold w s' t'
  | _, _ => false
  end.

(** *** bufio.Scanner with the default split function ScanLines *)

Fixpoint rawLines (line : str) (data : str) : list str :=
  match data with
  | [] => match line with [] => [] | _ => [rev line] end
  | c :: data' =>
    if Ascii.eqb c LF then rev line :: rawLines [] data'
    else rawLines (c :: line) data'
  end.

Definition dropCR (data : str) : str :=
  match rev data with
  | c :: r => if Ascii.eqb c CR then rev r else data
  | [] => data
  end.

Definition MaxScanTokenSize : Z := 64 * 1024.

(** The tokens scanner.Scan() delivers and whether scanner.Err() is
    non-nil afterwards: a line that does not fit the buffer stops the
    scan with ErrTooLong. *)
Fixpoint scanTokens (lines : list str) : list str * bool :=
  match lines with
  | [] => ([], false)
  | l :: ls =>
    if (MaxScanTokenSize <=? Z.of_nat (length l))%Z then ([], true)
    else let '(ts, e) := scanTokens ls in (dropCR l :: ts, e)
  end.

Definition Scan (file : str) : list str * bool := scanTokens (rawLines [] file).

(** ** proxy.go: the blocklist *)

(** The loop of checkHost over the scanned lines: the effects, and
    whether a line matched. *)
Fixpoint checkLines (w : World) (host : str) (lines : list str) : list event * bool :=
  match lines with
  | [] => ([], false)
  | text :: lines =>
    let blockedHost := TrimSpace text in
    if bool_decide (blockedHost = []) then checkLines w host lines
    else
      let p := Printf ("target: " ++ host ++ ", unwanted " ++ blockedHost ++ [LF]) in
      if EqualFold w host blockedHost
      then ([p; Log WARN "Blocked host accessed"], true)
      else let '(es, found) := checkLines w host lines in (p :: es, found)
  end.

(** checkHost returns [(false, nil)] for a blocked host, [(true, nil)]
    for one that is not, and [(false, err)] when the file cannot be read. *)
Definition checkHost (w : World) (host : str) : list event * (bool * option error) :=
  match blocked_file w with
  | None =>
    ([OsOpen "blocked"],
     (false, Some (wrapError "failed to open blocked file" (errorString "open blocked"))))
  | Some file =>
    let '(lines, scanErr) := Scan file in
    let '(es, found) := checkLines w host lines in
    if found then (OsOpen "blocked" :: es ++ [FileClose], (false, None))
    else if scanErr
    then (OsOpen "blocked" :: es ++ [FileClose],
          (false, Some (wrapError "error reading blocked file"
                                  (errorString "bufio.Scanner: token too long"))))
    else (OsOpen "blocked" :: es ++ [FileClose], (true, None))
  end.

(** ** https.go: the 403 page *)

Definition forbiddenHTMLTemplate (domain : str) : str :=
  "<!DOCTYPE html>
<html>
<head>
    <title>Access Denied</title>
    <style>
        body { font-family: Arial, sans-serif; text-align: center; padding: 50px; }
        h1 { color: #d9534f; }
    </style>
</head>
<body>
    <h1>403 Forbidden</h1>
    <p>Access to " ++ domain ++ " has been restricted by the administrator.</p>
</body>
</html>".

Definition forbiddenResponse (domain : str) : str :=
  let htmlContent := forbiddenHTMLTemplate domain in
  "HTTP/1.1 403 Forbidden" ++ CRLF ++
  "Content-Type: text/html; charset=utf-8" ++ CRLF ++
  "Content-Length: " ++ Itoa (Z.of_nat (length htmlContent)) ++ CRLF ++
  "Connection: close" ++ CRLF ++
  CRLF ++ htmlContent.

(** A write on the raw client socket: each flow performs at most one. *)
Definition sendForbiddenResponse (w : World) (domain : str) : list event :=
  ConnWrite Client (forbiddenResponse domain) ::
  if write_ok w Client 0 then [] else [Log ERROR "Failed to send 403 response"].

Definition checkAndBlockHost (w : World) (domain : str) : list event * bool :=
  let '(es, (ok, err)) := checkHost w domain in
  match err with
  | Some _ => (es ++ [Log ERROR "Host check failed"], false)
  | None =>
    if negb ok then (es ++ sendForbiddenResponse w domain, true)
    else (es, false)
  end.

(** ** http.go: the plaintext forwarder *)

(** net.JoinHostPort: a host with a colon is taken for an IPv6 literal
    and bracketed. *)
Definition JoinHostPort (host port : str) : str :=
  if Contains host ":"
  then "[" ++ host ++ "]:" ++ port
  else host ++ ":" ++ port.

Definition forwardResponse (w : World) : list event * option error :=
  match fst (parseResponse (origin w)) with
  | Err e => ([], Some e)
  | Ok resp =>
    ([Log INFO "HTTP response"; ConnWrite Client (RawResponse resp)],
     if write_ok w Client 0 then None else Some net_Error)
  end.

(** handleHTTP together with the reader it leaves behind. The deferred
    calls run last, in reverse order of their [defer] statements. *)
Definition handleHTTP (w : World) (reader : Reader) : list event * Reader :=
  let '(parsed, reader) := parseRequest reader in
  (SetDeadline Client (30 * Second) ::
   match parsed with
   | Err _ => [Log ERROR "Error parsing HTTP request"]
   | Ok req =>
     let '(es, shouldBlock) := checkAndBlockHost w (Host req) in
     es ++
     if shouldBlock then []
     else
       let target := JoinHostPort (Host req) (Port req) in
       Log INFO "HTTP request" :: NetDial target ::
       if negb (dial_ok w target) then [Log ERROR "Error connecting to target"]
       else
         ConnWrite Origin (Raw req) ::
         (if negb (write_ok w Origin 0) then [Log ERROR "Error forwarding request"]
          else
            let '(es, err) := forwardResponse w in
            es ++ match err with
                  | Some _ => [Log ERROR "Error forwarding response"]
                  | None => []
                  end)
         ++ [ConnClose Origin]
   end
   ++ [ConnClose Client],
   reader).

(** ** https.go: the CONNECT request *)

Fixpoint connectLines (fuel : nat) (reader : Reader) (request : str)
  : result str * Reader :=
  match fuel with
  | O => (Err fuel_exhausted, reader)
  | S fuel =>
    let '(line, err, reader) := ReadString reader in
    match err with
    | Some e => (Err e, reader)
    | None =>
      let request := request ++ line in
      if bool_decide (line = CRLF) then (Ok request, reader)
      else connectLines fuel reader request
    end
  end.

Definition readConnectRequest (reader : Reader) : result str * Reader :=
  match connectLines (S (length (pending reader))) reader [] with
  | (Err e, reader) => (Err e, reader)
  | (Ok request, reader) =>
    let firstLine := nth 0 (Split request CRLF) [] in
    let parts := Split (TrimSpace firstLine) " " in
    if length parts <? 3 then (Err (errorString "malformed CONNECT request"), reader)
    else (Ok (nth 1 parts []), reader)
  end.

Definition processConnectRequest (reader : Reader) : result (str * str) * Reader :=
  match readConnectRequest reader with
  | (Err e, reader) => (Err (wrapError "error reading CONNECT request" e), reader)
  | (Ok target, reader) =>
    let target := if negb (Contains target ":") then target ++ ":443" else target in
    let domain := nth 0 (Split target ":") [] in
    (Ok (target, domain), reader)
  end.

(** ** https.go: certificate generation *)

(** new(big.Int).SetBytes: big-endian, unsigned. *)
Definition SetBytes (b : str) : Z :=
  fold_left (fun acc c => (acc * 256 + Z.of_N (N_of_ascii c))%Z) b 0%Z.

(** The to-be-signed part of a certificate. *)
Definition tbs (c : Certificate) : Certificate :=
  mkCertificate (SerialNumber c) (Subject_CommonName c) (DNSNames c)
                (NotBefore c) (NotAfter c) (KeyUsage c) (ExtKeyUsages c)
                (BasicConstraintsValid c) (IsCA c) (SubjectKeyId c)
                (Issuer_CommonName c) (AuthorityKeyId c) (CertPublicKey c) [].

(** isIA5String of crypto/x509: no rune above unicode.MaxASCII. A byte
    above 0x7f starts a rune above 0x7f or decodes to RuneError, so this
    is a test on the bytes. *)
Definition isIA5String (s : str) : bool := forallb isASCII s.

(** x509.CreateCertificate(rand, template, parent, pub, priv) for an RSA
    signer, with its checks in the order the library makes them: the
    serial number is not negative; the subject marshals (a common name
    that is not printable ASCII must be valid UTF-8); the private key is
    the one of the parent's public key; the DNS names of the subject
    alternative name extension are IA5 strings; the signer signs; the
    signature verifies under the signer's public key. The issuer is the
    parent's subject. The messages of the errors that quote a name are
    shortened. *)
Definition CreateCertificate (w : World) (template parent : Certificate)
           (pub : PublicKey) (priv : PrivateKey) : result Certificate :=
  if (SerialNumber template <? 0)%Z
  then Err (errorString "x509: serial number must be positive")
  else if negb (utf8_ValidString (Subject_CommonName template))
  then Err (errorString "asn1: string not valid UTF-8")
  else
    let authorityKeyId :=
      if negb (bool_decide (Subject_CommonName parent = Subject_CommonName template))
         && negb (bool_decide (SubjectKeyId parent = []))
      then SubjectKeyId parent else AuthorityKeyId template in
    if negb (rsa_Public w priv =? CertPublicKey parent)%Z
    then Err (errorString "x509: provided PrivateKey doesn't match parent's PublicKey")
    else if negb (forallb isIA5String (DNSNames template))
    then Err (errorString "x509: name cannot be encoded as an IA5String")
    else
      let c := mkCertificate (SerialNumber template) (Subject_CommonName template)
                 (DNSNames template) (NotBefore template) (NotAfter template)
                 (KeyUsage template) (ExtKeyUsages template)
                 (BasicConstraintsValid template) (IsCA template) (SubjectKeyId template)
                 (Subject_CommonName parent) authorityKeyId pub [] in
      match rsa_Sign w priv c with
      | Err e => Err e
      | Ok signature =>
        if negb (rsa_Verify w (rsa_Public w priv) c signature)
        then Err (errorString
                    "x509: signature over certificate returned by signer is invalid")
        else
          Ok (mkCertificate (SerialNumber c) (Subject_CommonName c) (DNSNames c)
                (NotBefore c) (NotAfter c) (KeyUsage c) (ExtKeyUsages c)
                (BasicConstraintsValid c) (IsCA c) (SubjectKeyId c)
                (Issuer_CommonName c) (AuthorityKeyId c) (CertPublicKey c) signature)
      end.

(** Whether a certificate may sign others: basic constraints with CA
    set, and the certSign bit when a key usage is present. *)
Definition may_sign (parent : Certificate) : bool :=
  BasicConstraintsValid parent && IsCA parent
  && ((KeyUsage parent =? 0)%Z
      || negb (Z.land (KeyUsage parent) KeyUsageCertSign =? 0)%Z).

(** Certificate.CheckSignatureFrom(parent) of crypto/x509. *)
Definition CheckSignatureFrom (w : World) (c parent : Certificate) : bool :=
  may_sign parent && rsa_Verify w (CertPublicKey parent) (tbs c) (Signature c).

(** generateCertificate reads the clock three times: for the serial
    number, for NotBefore and for NotAfter. *)
Definition generateCertificate (w : World) (domain : str) (rootCA : tls_Certificate)
  : result tls_Certificate :=
  match rsa_GenerateKey w with
  | Err e => Err e
  | Ok privateKey =>
    let cleanDomain := nth 0 (Split domain ":") [] in
    let serial := SetBytes (sha256_Sum w (domain ++ format_RFC3339Nano w (clock w 0))) in
    let template :=
      mkCertificate serial cleanDomain [cleanDomain; "*." ++ cleanDomain]
        (clock w 1 + (- 5) * Minute) (clock w 2 + 2 * Hour)
        (Z.lor KeyUsageDigitalSignature KeyUsageKeyEncipherment)
        [ExtKeyUsageServerAuth] true false [1; 2; 3; 4]%Z
        [] [] 0%Z [] in
    match CreateCertificate w template (Leaf rootCA)
                            (rsa_Public w privateKey) (Key rootCA) with
    | Err e => Err e
    | Ok signedCert => Ok (mk_tls_Certificate [signedCert] privateKey signedCert)
    end
  end.

(** ** https.go: the tunnel *)

(** io.Copy(dst, src): one write per chunk read, from the k-th write on
    [dst] onwards; the error is nil when the source ends with io.EOF. *)
Fixpoint ioCopy (w : World) (dst : conn) (k : nat) (chunks : list str) (closing : error)
  : list event * option error :=
  match chunks with
  | [] => ([], if is_EOF closing then None else Some closing)
  | [] :: chunks => ioCopy w dst k chunks closing
  | chunk :: chunks =>
    if write_ok w dst k
    then let '(es, err) := ioCopy w dst (S k) chunks closing in
         (ConnWrite dst chunk :: es, err)
    else ([ConnWrite dst chunk], Some net_Error)
  end.

(** The chunks that remain of a stream once its first [n] bytes have been
    taken through a buffered reader. *)
Fixpoint dropBytes (n : nat) (chunks : list str) : list str :=
  match chunks with
  | [] => []
  | chunk :: rest =>
    if length chunk <=? n then dropBytes (n - length chunk) rest
    else drop n chunk :: rest
  end.

Fixpoint responseLines (fuel : nat) (reader : Reader) (response : str)
  : result str * Reader :=
  match fuel with
  | O => (Err fuel_exhausted, reader)
  | S fuel =>
    let '(line, err, reader) := ReadString reader in
    match err with
    | Some e => (Err e, reader)
    | None =>
      let response := response ++ line in
      if bool_decide (line = CRLF) then (Ok response, reader)
      else responseLines fuel reader response
    end
  end.

Definition readServerResponse (reader : Reader) : result str * Reader :=
  responseLines (S (length (pending reader))) reader [].

(** forwardServerResponse(client, server) on the two TLS endpoints. *)
Definition forwardServerResponse (w : World) : list event :=
  let '(chunks, closing) := origin_tls w in
  let serverReader := mkReader (concat chunks) closing in
  match fst (readServerResponse serverReader) with
  | Err _ => [Log ERROR "Failed reading headers"]
  | Ok headers =>
    ConnWrite ClientTLS headers ::
    if negb (write_ok w ClientTLS 0) then [Log ERROR "Failed writing headers"]
    else
      let '(es, err) := ioCopy w ClientTLS 1 (dropBytes (length headers) chunks) closing in
      es ++ match err with
            | Some _ => [Log DEBUG "Streaming error"]
            | None => []
            end
         ++ [Log INFO "Full response"]
  end.

(** An interleaving of the steps of two goroutines, chosen by a
    schedule. What every Read and Write of a goroutine returns is fixed
    by the world and not by the schedule: a Close in one goroutine that
    makes a pending Read of the other fail is a world whose stream ends
    there with an error. *)
Fixpoint merge (sched : list bool) (a b : list event) : list event :=
  match sched with
  | [] => a ++ b
  | true :: sched =>
    match a with
    | x :: a => x :: merge sched a b
    | [] => b
    end
  | false :: sched =>
    match b with
    | y :: b => y :: merge sched a b
    | [] => a
    end
  end.

(** The goroutine copying from the client to the origin. *)
Definition clientToServer (w : World) : list event :=
  fst (ioCopy w OriginTLS 0 (fst (client_tls w)) (snd (client_tls w)))
  ++ [ConnClose OriginTLS; Done].

(** The goroutine forwarding the origin's response. *)
Definition serverToClient (w : World) : list event :=
  forwardServerResponse w ++ [ConnClose ClientTLS; Done].

Definition tunnelConnections (w : World) : list event :=
  merge (schedule w) (clientToServer w) (serverToClient w) ++ [WaitReturns].

(** ** https.go: the MITM path *)

Definition establishMITMTunnel (w : World) (target domain : str)
  : list event * option error :=
  let response : str := "HTTP/1.1 200 Connection Established" ++ CRLF ++ CRLF in
  if negb (write_ok w Client 0)
  then ([ConnWrite Client response],
        Some (wrapError "failed to send 200 response" net_Error))
  else
    match root_ca w with
    | Err e =>
      ([ConnWrite Client response; LoadX509KeyPair "certs/rootCA.pem" "certs/rootCA.key"],
       Some (wrapError "failed to load root CA" e))
    | Ok rootCA =>
      match generateCertificate w domain rootCA with
      | Err e =>
        ([ConnWrite Client response; LoadX509KeyPair "certs/rootCA.pem" "certs/rootCA.key"],
         Some (wrapError "certificate generation failed" e))
      | Ok fakeCert =>
        if negb (handshake_ok w)
        then ([ConnWrite Client response;
               LoadX509KeyPair "certs/rootCA.pem" "certs/rootCA.key"; TLSHandshake],
              Some (wrapError "TLS handshake failed" net_Error))
        else if negb (tls_dial_ok w target)
        then ([ConnWrite Client response;
               LoadX509KeyPair "certs/rootCA.pem" "certs/rootCA.key"; TLSHandshake;
               TLSDial target],
              Some (wrapError "failed to connect to target" net_Error))
        else ([ConnWrite Client response;
               LoadX509KeyPair "certs/rootCA.pem" "certs/rootCA.key"; TLSHandshake;
               TLSDial target]
              ++ tunnelConnections w ++ [ConnClose OriginTLS],
              None)
      end
    end.

Definition handleHTTPS (w : World) (reader : Reader) : list event :=
  match fst (processConnectRequest reader) with
  | Err _ => [Log ERROR "Failed to process CONNECT request"]
  | Ok (target, domain) =>
    let '(es, shouldBlock) := checkAndBlockHost w domain in
    es ++
    if shouldBlock then []
    else
      let '(es, err) := establishMITMTunnel w target domain in
      es ++ match err with
            | Some _ => [Log ERROR "MITM tunneling failed"]
            | None => []
            end
  end
  ++ [ConnClose Client].

(** ** proxy.go: the dispatcher *)

Definition handleConnection (w : World) : list event :=
  let reader := client w in
  SetDeadline Client (30 * Second) ::
  (let '(peek, err) := Peek reader 7 in
   match err with
   | Some _ => [Log ERROR "Error peeking connection"]
   | None =>
     if bool_decide (peek = "CONNECT") then handleHTTPS w reader
     else fst (handleHTTP w reader)
   end)
  ++ [ConnClose Client].

(** ** main.go: the stand-alone program

    The root main.go carries its own copies of the handlers, without
    blocklist and without interception: CONNECT opens a raw TCP tunnel. *)

Module main.

(** ParseRawHTTP is parseRequest line for line, on HTTPObject. *)
Definition ParseRawHTTP : Reader -> result HTTPRequest * Reader := parseRequest.

(** parseHTTPResponse differs from parseResponse after the header
    loop: a Content-Length that does not parse is skipped with a
    warning, and chunked transfer encoding is warned about. *)
Definition parseHTTPResponse (reader : Reader)
  : result HTTPResponse * list event * Reader :=
  let '(statusLine, err, reader) := ReadString reader in
  match err with
  | Some e => (Err e, [], reader)
  | None =>
    let buf := statusLine in
    let parts := Split (TrimSpace statusLine) " " in
    if length parts <? 2 then (Err (errorString "malformed status line"), [], reader)
    else
      let proto := nth 0 parts [] in
      let statusCode := fst (Atoi (nth 1 parts [])) in
      let status := if 2 <? length parts then Join (drop 2 parts) " " else [] in
      match responseHeaders (S (length (pending reader))) reader ∅ buf with
      | (Err e, reader) => (Err e, [], reader)
      | (Ok (headers, buf), reader) =>
        let whole body := mkHTTPResponse proto statusCode status headers body (buf ++ body) in
        match headers !! ("Content-Length" : str) with
        | Some cl =>
          let '(length, ok) := Atoi cl in
          if negb ok
          then (Ok (whole []), [LogPrintf "Warning: Malformed Content-Length header"], reader)
          else if (0 <? length)%Z then
            match ReadFull reader (Z.to_nat length) with
            | (Err e, reader) => (Err (wrapError "error reading response body" e), [], reader)
            | (Ok body, reader) => (Ok (whole body), [], reader)
            end
          else (Ok (whole []), [], reader)
        | None =>
          match headers !! ("Transfer-Encoding" : str) with
          | Some te =>
            if Contains te "chunked"
            then (Ok (whole []),
                  [LogPrintf "Warning: Transfer-Encoding: chunked not fully handled by parser."],
                  reader)
            else (Ok (whole []), [], reader)
          | None => (Ok (whole []), [], reader)
          end
        end
      end
  end.

(** The length of the [make([]byte, length)] of parseHTTPResponse, when
    the call is reached: not for a Content-Length that Atoi rejects. *)
Definition allocation (reader : Reader) : option Z :=
  match headersReached reader with
  | Some headers =>
    match headers !! ("Content-Length" : str) with
    | Some cl =>
      let '(length, ok) := Atoi cl in
      if negb ok then None
      else if (0 <? length)%Z then Some length else None
    | None => None
    end
  | None => None
  end.

Definition parseHTTPResponse_run (reader : Reader)
  : run (result HTTPResponse * list event * Reader) :=
  match allocation reader with
  | Some length =>
    if makeslice_panics length then Panics else Returns (parseHTTPResponse reader)
  | None => Returns (parseHTTPResponse reader)
  end.

Definition handleHTTP (w : World) (reader : Reader) : list event :=
  match fst (ParseRawHTTP reader) with
  | Err _ => [Log ERROR "Error parsing HTTP request"]
  | Ok httpObj =>
    let targetAddr := JoinHostPort (Host httpObj) (Port httpObj) in
    Log INFO "HTTP" :: NetDial targetAddr ::
    if negb (dial_ok w targetAddr) then [Log ERROR "Error connecting to target"]
    else
      SetDeadline Origin (30 * Second) :: ConnWrite Origin (Raw httpObj) ::
      (if negb (write_ok w Origin 0) then [Log ERROR "Error forwarding request"]
       else
         match parseHTTPResponse (origin w) with
         | (Err _, es, _) => es ++ [Log ERROR "Error parsing response"]
         | (Ok resp, es, _) =>
           es ++ Log INFO "Response" :: ConnWrite Client (RawResponse resp) ::
           if write_ok w Client 0 then [] else [Log ERROR "Error forwarding response"]
         end)
      ++ [ConnClose Origin]
  end.

(** The two copying goroutines of handleHTTPS; both connections are
    TCP connections, so the half-close is carried out. *)
Definition clientToServer (w : World) (reader : Reader) : list event :=
  let '(es, err) := ioCopy w Origin 0 [pending reader] (closing reader) in
  es ++ match err with
        | Some _ => [Log DEBUG "Client->Server tunnel error"]
        | None => []
        end
     ++ [ConnCloseWrite Origin; Done].

Definition serverToClient (w : World) : list event :=
  let '(es, err) := ioCopy w Client 1 [pending (origin w)] (closing (origin w)) in
  es ++ match err with
        | Some _ => [Log DEBUG "Server->Client tunnel error"]
        | None => []
        end
     ++ [ConnCloseWrite Client; Done].

Definition handleHTTPS (w : World) (reader : Reader) : list event :=
  match connectLines (S (length (pending reader))) reader [] with
  | (Err _, _) => [Log ERROR "Error reading CONNECT request"]
  | (Ok connectRequest, reader) =>
    let firstLine := nth 0 (Split connectRequest CRLF) [] in
    let parts := Split (TrimSpace firstLine) " " in
    if length parts <? 3 then [Log ERROR "Malformed CONNECT request"]
    else
      let target := nth 1 parts [] in
      let target := if negb (Contains target ":") then target ++ ":443" else target in
      Log INFO "HTTPS CONNECT" :: NetDial target ::
      if negb (dial_ok w target)
      then [Log ERROR "Error connecting to target";
            ConnWrite Client ("HTTP/1.1 502 Bad Gateway" ++ CRLF ++ CRLF)]
      else
        ConnWrite Client ("HTTP/1.1 200 Connection Established" ++ CRLF ++ CRLF) ::
        (if negb (write_ok w Client 0) then [Log ERROR "Error sending 200 response"]
         else merge (schedule w) (clientToServer w reader) (serverToClient w)
              ++ [WaitReturns])
        ++ [ConnClose Origin]
  end.

Definition handleConnection (w : World) : list event :=
  let reader := client w in
  SetDeadline Client (30 * Second) ::
  (let '(peek, err) := Peek reader 7 in
   match err with
   | Some _ => [Log ERROR "Error peeking connection"]
   | None =>
     if bool_decide (peek = "CONNECT") then handleHTTPS w reader
     else handleHTTP w reader
   end)
  ++ [ConnClose Client].

End main.

(** ** logger.go: humanizeBytes *)

(** An int64 result: the mathematical value reduced to 64 bits, two's
    complement. *)
Definition wrap64 (z : Z) : Z := ((z + 2 ^ 63) mod 2 ^ 64 - 2 ^ 63)%Z.

Module logger.

Definition unit : Z := 1024.

(** The loop [for n := b / unit; n >= unit; n /= unit] with its body
    [div *= unit; exp++]. Go's division truncates. Every iteration
    divides [n] by 1024, so the loop over an int is over within seven
    iterations; [None] stands for fuel that ran out. *)
Fixpoint humanizeLoop (fuel : nat) (n div : Z) (exp : nat) : option (Z * nat) :=
  match fuel with
  | O => None
  | S fuel =>
    if (unit <=? n)%Z
    then humanizeLoop fuel (Z.quot n unit) (wrap64 (div * unit)) (S exp)
    else Some (div, exp)
  end.

(** What humanizeBytes hands to the formatter: the arguments of "%d B",
    or those of "%.1f %cB", the quotient float64(b)/float64(div) being
    kept as its two operands. *)
Inductive humanized :=
| Plain (b : Z)
| Scaled (b div : Z) (suffix : ascii).

(** humanizeBytes(b) up to formatting; [None] is the run-time panic of
    an index out of range in ["KMGTPE"[exp]]. *)
Definition humanizeBytes (b : Z) : option humanized :=
  if (b <? unit)%Z then Some (Plain b)
  else
    match humanizeLoop 64 (Z.quot b unit) unit 0 with
    | None => None
    | Some (div, exp) =>
      match nth_error (list_ascii_of_string "KMGTPE") exp with
      | Some suffix => Some (Scaled b div suffix)
      | None => None
      end
    end.

End logger.

(** ** Observations on traces *)

Definition ConnectionEstablished : str :=
  "HTTP/1.1 200 Connection Established" ++ CRLF ++ CRLF.

Definition BadGateway : str := "HTTP/1.1 502 Bad Gateway" ++ CRLF ++ CRLF.

Definition conn_eqb (a b : conn) : bool :=
  match a, b with
  | Client, Client | Origin, Origin | ClientTLS, ClientTLS | OriginTLS, OriginTLS => true
  | _, _ => false
  end.

Definition is_close (c : conn) (e : event) : bool :=
  match e with
  | ConnClose c' => conn_eqb c' c
  | _ => false
  end.

(** How often [c.Close()] is called in a trace. *)
Definition closes (c : conn) (t : list event) : nat :=
  length (List.filter (is_close c) t).

Definition is_dial (e : event) : bool :=
  match e with
  | NetDial _ | TLSDial _ => true
  | _ => false
  end.

Definition is_deadline (c : conn) (e : event) : bool :=
  match e with
  | SetDeadline c' _ => conn_eqb c' c
  | _ => false
  end.

(** Logging, file access and writes: the events that neither open nor
    close a connection nor arm a deadline. *)
Definition is_quiet (e : event) : bool :=
  match e with
  | Log _ _ | Printf _ | LogPrintf _ | OsOpen _ | FileClose | ConnWrite _ _ => true
  | _ => false
  end.

(** Logging and file access alone. *)
Definition is_silent (e : event) : bool :=
  match e with
  | Log _ _ | Printf _ | LogPrintf _ | OsOpen _ | FileClose => true
  | _ => false
  end.

Definition is_write (c : conn) (e : event) : bool :=
  match e with
  | ConnWrite c' _ => conn_eqb c' c
  | _ => false
  end.

(** The payloads written to a connection, in order. *)
Fixpoint writes_to (c : conn) (t : list event) : list str :=
  match t with
  | [] => []
  | ConnWrite c' data :: t =>
    if conn_eqb c' c then data :: writes_to c t else writes_to c t
  | _ :: t => writes_to c t
  end.

(** The addresses dialled with tls.Dial, in order. *)
Fixpoint tls_dials (t : list event) : list str :=
  match t with
  | [] => []
  | TLSDial address :: t => address :: tls_dials t
  | _ :: t => tls_dials t
  end.

(** The host strings of a list of lines: trimmed, empty ones left out. *)
Definition hostsOf (lines : list str) : list str :=
  List.filter (fun h => negb (bool_decide (h = []))) (List.map TrimSpace lines).

(** BlocklistSnapshot of the specification: the normalized host strings
    of all the lines of the blocklist file, in order. *)
Definition BlocklistSnapshot (w : World) : list str :=
  match blocked_file w with
  | None => []
  | Some file => hostsOf (List.map dropCR (rawLines [] file))
  end.

(** The host strings a lookup of the code can reach: those of the lines
    the scanner delivers, which end before the first line of 64 KiB or
    more. *)
Definition scannedHosts (w : World) : list str :=
  match blocked_file w with
  | None => []
  | Some file => hostsOf (fst (Scan file))
  end.

(** A line as ReadString delivers it: it ends with its only LF. *)
Definition is_line (l : str) : Prop := cutLine l = Some (l, []).

(** A header line: a line other than the blank line that ends a block. *)
Definition is_header_line (l : str) : Prop := is_line l ∧ l ≠ CRLF.

(** Header map semantics as the code has them, on the lines of a header
    block: the value of [name] is taken from the last line whose trimmed
    name is [name] byte for byte, and it is trimmed. *)
Fixpoint headerValue (name : str) (lines : list str) : option str :=
  match lines with
  | [] => None
  | line :: lines =>
    match headerValue name lines with
    | Some v => Some v
    | None =>
      match SplitN line ":" 2 with
      | [k; v] => if bool_decide (TrimSpace k = name) then Some (TrimSpace v) else None
      | _ => None
      end
    end
  end.

(** The number of body bytes parseResponse reads after a header block. *)
Definition contentLength (lines : list str) : nat :=
  match headerValue "Content-Length" lines with
  | Some cl => if (0 <? fst (Atoi cl))%Z then Z.to_nat (fst (Atoi cl)) else 0
  | None => 0
  end.

(** ** Sample worlds *)

Definition sampleRoot : tls_Certificate :=
  let root := mkCertificate 1 "gyxy root" [] 0 (10 * 365 * 24 * Hour)
                (Z.lor KeyUsageCertSign KeyUsageDigitalSignature) []
                true true [9]%Z "gyxy root" [] 17%Z [] in
  mk_tls_Certificate [root] 17%Z root.

(** A world in which every operation succeeds and nothing is sent; the
    signature scheme is a toy one whose public key equals the private.
    The sample worlds hold ASCII text only, so the Unicode part of
    EqualFold is never consulted in them. *)
Definition quiet : World :=
  mkWorld (mkReader [] io_EOF) (fun _ _ => true) (Some []) (fun _ => true)
          (mkReader [] io_EOF) (Ok sampleRoot)
          (fun n => (1700000000 * Second + Z.of_nat n)%Z)
          (fun t => Itoa t) (fun data => rev data)
          (Ok 23%Z) (fun k => k)
          (fun k c => Ok (Itoa k ++ "/" ++ Itoa (SerialNumber c)))
          (fun p c s => bool_decide (s = Itoa p ++ "/" ++ Itoa (SerialNumber c)))
          true (fun _ => true) ([], io_EOF) ([], io_EOF) []
          (fun s t => bool_decide (s = t)).

Definition with_client (r : Reader) (w : World) : World :=
  mkWorld r (write_ok w) (blocked_file w) (dial_ok w) (origin w) (root_ca w)
          (clock w) (format_RFC3339Nano w) (sha256_Sum w) (rsa_GenerateKey w)
          (rsa_Public w) (rsa_Sign w) (rsa_Verify w) (handshake_ok w)
          (tls_dial_ok w) (client_tls w) (origin_tls w) (schedule w)
          (unicode_EqualFold w).

Definition with_blocked (file : option str) (w : World) : World :=
  mkWorld (client w) (write_ok w) file (dial_ok w) (origin w) (root_ca w)
          (clock w) (format_RFC3339Nano w) (sha256_Sum w) (rsa_GenerateKey w)
          (rsa_Public w) (rsa_Sign w) (rsa_Verify w) (handshake_ok w)
          (tls_dial_ok w) (client_tls w) (origin_tls w) (schedule w)
          (unicode_EqualFold w).

Definition with_origin (r : Reader) (w : World) : World :=
  mkWorld (client w) (write_ok w) (blocked_file w) (dial_ok w) r (root_ca w)
          (clock w) (format_RFC3339Nano w) (sha256_Sum w) (rsa_GenerateKey w)
          (rsa_Public w) (rsa_Sign w) (rsa_Verify w) (handshake_ok w)
          (tls_dial_ok w) (client_tls w) (origin_tls w) (schedule w)
          (unicode_EqualFold w).

Definition with_dials (plain tlsd : str -> bool) (w : World) : World :=
  mkWorld (client w) (write_ok w) (blocked_file w) plain (origin w) (root_ca w)
          (clock w) (format_RFC3339Nano w) (sha256_Sum w) (rsa_GenerateKey w)
          (rsa_Public w) (rsa_Sign w) (rsa_Verify w) (handshake_ok w)
          tlsd (client_tls w) (origin_tls w) (schedule w) (unicode_EqualFold w).

Definition with_tunnel (fromClient fromOrigin : list str * error) (sched : list bool)
           (w : World) : World :=
  mkWorld (client w) (write_ok w) (blocked_file w) (dial_ok w) (origin w) (root_ca w)
          (clock w) (format_RFC3339Nano w) (sha256_Sum w) (rsa_GenerateKey w)
          (rsa_Public w) (rsa_Sign w) (rsa_Verify w) (handshake_ok w)
          (tls_dial_ok w) fromClient fromOrigin sched (unicode_EqualFold w).

Abbreviation LoadRoot := (LoadX509KeyPair "certs/rootCA.pem" "certs/rootCA.key").

(** *** Scenario 1 of the specification: a plaintext GET *)

Definition plainGet : str :=
  "GET http://example.test/x HTTP/1.1" ++ CRLF ++ "Host: example.test" ++ CRLF ++ CRLF.

Definition plainReply : str :=
  "HTTP/1.1 200 OK" ++ CRLF ++ "Content-Length: 2" ++ CRLF ++ CRLF ++ "hi".

Definition plainWorld : World :=
  with_origin (mkReader plainReply io_EOF) (with_client (mkReader plainGet io_EOF) quiet).

(** *** A request with a body *)

Definition postLine : str := "POST /upload HTTP/1.1" ++ CRLF.
Definition postHeaders : list str :=
  ["Host: example.test" ++ CRLF; "Content-Length: 4" ++ CRLF].
Definition postBody : str := "data".

(** *** A request whose input ends in the middle of a header line *)

Definition cutRequest : str :=
  "GET / HTTP/1.1" ++ CRLF ++ "Host: example.test" ++ CRLF ++ "Accept: */*".

Definition cutReply : str :=
  "HTTP/1.1 204 No Content" ++ CRLF ++ "Server: x".

(** Whether an event is the successful dial that produces connection [c],
    and whether a trace holds one. *)
Definition opens (w : World) (c : conn) (e : event) : bool :=
  match e, c with
  | NetDial a, Origin => dial_ok w a
  | TLSDial a, OriginTLS => tls_dial_ok w a
  | _, _ => false
  end.

Definition opened (w : World) (c : conn) (t : list event) : bool :=
  existsb (opens w c) t.

(** *** Scenarios 3 and 4 of the specification: blocked hosts *)

Definition blockWorld : World :=
  with_blocked (Some ("ads.test" ++ [LF] ++ "EXAMPLE.test" ++ CRLF)) quiet.

Definition blockedGet : str :=
  "GET / HTTP/1.1" ++ CRLF ++ "Host: example.test" ++ CRLF ++ CRLF.

Definition blockedReq : HTTPRequest :=
  mkHTTPRequest "GET" "/" "HTTP/1.1" "80" "example.test" [] [] blockedGet.

Definition blockedConnect : str := "CONNECT ads.test:443 HTTP/1.1" ++ CRLF ++ CRLF.

(** *** Scenario 5 of the specification: the origin refuses the TLS dial *)

Definition unreachableConnect : str :=
  "CONNECT unreachable.test:443 HTTP/1.1" ++ CRLF ++ CRLF.

Definition unreachableWorld : World :=
  with_dials (fun _ => true) (fun _ => false)
             (with_client (mkReader unreachableConnect io_EOF) quiet).

(** *** Scenario 2 of the specification: a CONNECT that reaches the tunnel *)

Definition tunnelWorld : World :=
  with_tunnel (["GET / HTTP/1.1" ++ CRLF ++ CRLF], io_EOF)
              (["HTTP/1.1 200 OK" ++ CRLF; CRLF ++ "he"; ("llo" : str)], io_EOF)
              [true; false; false]
              (with_client (mkReader ("CONNECT api.test:443 HTTP/1.1" ++ CRLF ++
                                      "Host: api.test:443" ++ CRLF ++ CRLF) io_EOF) quiet).

(** *** A tunnel whose origin sends bytes without a blank line *)

Definition pingPongWorld : World :=
  with_tunnel ([("ping" : str)], io_EOF) ([("pong" : str)], io_EOF) [] quiet.

(** *** A response whose Content-Length header is written in lower case *)

Definition lowerCaseReply : str :=
  "HTTP/1.1 200 OK" ++ CRLF ++ "content-length: 2" ++ CRLF ++ CRLF ++ "hi".

(** ** Statements of the specification that the code does not meet *)

(** C1: when the dial to the origin fails, 502 is written to the client
    and 200 has not been. *)
Definition sends_502_instead_of_200 (w : World) : Prop :=
  forall target,
    In (TLSDial target) (handleConnection w) -> tls_dial_ok w target = false ->
    In (ConnWrite Client BadGateway) (handleConnection w) /\
    ~ In (ConnWrite Client ConnectionEstablished) (handleConnection w).

(** C3: the client socket, and every origin connection that was opened,
    is closed exactly once. *)
Definition closed_exactly_once (w : World) : Prop :=
  let t := handleConnection w in
  closes Client t = 1 /\
  (opened w Origin t = true -> closes Origin t = 1) /\
  (opened w OriginTLS t = true -> closes OriginTLS t = 1).



(** C7: for every domain a leaf certificate is minted, for the clean
    domain and its wildcard. *)
Definition every_domain_is_minted (w : World) (rootCA : tls_Certificate) : Prop :=
  forall domain,
    let cleanDomain := nth 0 (Split domain ":") [] in
    exists cert leaf,
      generateCertificate w domain rootCA = Ok cert /\ Chain cert = [leaf] /\
      Subject_CommonName leaf = cleanDomain /\
      DNSNames leaf = [cleanDomain; "*." ++ cleanDomain].

(** The target of a CONNECT to a host with a letter outside ASCII, in
    UTF-8: the bytes 0xC3 0xA9 are e with an acute accent. *)
Definition accentedTarget : str :=
  ascii_of_nat 195 :: ascii_of_nat 169 :: ".test:443".

(** C4: header names are compared without regard to case. *)
Definition header_names_fold_case (reader : Reader) : Prop :=
  forall resp reader' k1 k2,
    parseResponse reader = (Ok resp, reader') -> foldEqualASCII k1 k2 = true ->
    Headers resp !! k1 = Headers resp !! k2.

(** C2: each direction of the pump is a raw copy that ends by
    half-closing its destination, and no connection is closed. *)
Definition pump_half_closes (w : World) : Prop :=
  let t := tunnelConnections w in
  (forall i, write_ok w ClientTLS i = true) ->
  (forall i, write_ok w OriginTLS i = true) ->
  concat (writes_to OriginTLS t) = concat (fst (client_tls w)) /\
  concat (writes_to ClientTLS t) = concat (fst (origin_tls w)) /\
  In (ConnCloseWrite OriginTLS) t /\ In (ConnCloseWrite ClientTLS) t /\
  closes OriginTLS t = 0 /\ closes ClientTLS t = 0.

(** The assignment [resp.Headers[name] = value] of parseResponse for one
    header line; a line without a colon stores nothing. *)
Definition storeHeader (headers : gmap str str) (line : str) : gmap str str :=
  let parts := SplitN line ":" 2 in
  if bool_decide (length parts = 2)
  then <[TrimSpace (nth 0 parts []) := TrimSpace (nth 1 parts [])]> headers
  else headers.

(** *** A response with a repeated header *)

Definition replyLine : str := "HTTP/1.1 200 OK" ++ CRLF.
Definition replyHeaders : list str :=
  ["X-Trace:  a " ++ CRLF; "x-trace: b" ++ CRLF; "Content-Length: 2" ++ CRLF;
   "X-Trace: c" ++ CRLF].

(** ** Further observations *)

(** An event that is logging or file access, or a write to [c]. *)
Definition writes_only (c : conn) (e : event) : Prop :=
  is_silent e = true \/ exists data, e = ConnWrite c data.

(** What handleHTTP writes to the client socket. *)
Definition plainClientWrites (w : World) (reader : Reader) : list str :=
  match fst (parseRequest reader) with
  | Err _ => []
  | Ok req =>
    if snd (checkAndBlockHost w (Host req)) then [forbiddenResponse (Host req)]
    else if dial_ok w (JoinHostPort (Host req) (Port req)) && write_ok w Origin 0
    then match fst (parseResponse (origin w)) with
         | Ok resp => [RawResponse resp]
         | Err _ => []
         end
    else []
  end.

(** What handleHTTPS writes to the client socket before TLS. *)
Definition connectClientWrites (w : World) (reader : Reader) : list str :=
  match fst (processConnectRequest reader) with
  | Err _ => []
  | Ok (target, domain) =>
    if snd (checkAndBlockHost w domain) then [forbiddenResponse domain]
    else [ConnectionEstablished]
  end.

(** *** A request to a host that is not on the blocklist *)

Definition openGet : str :=
  "GET / HTTP/1.1" ++ CRLF ++ "Host: open.test:8081" ++ CRLF ++ CRLF.

Definition openReq : HTTPRequest :=
  mkHTTPRequest "GET" "/" "HTTP/1.1" "8081" "open.test" [] [] openGet.

Definition openConnect : str := "CONNECT open.test HTTP/1.1" ++ CRLF ++ CRLF.

(** *** A CONNECT request that stops before the blank line *)

Definition cutConnect : list str * str :=
  ([("CONNECT open.test:443 HTTP/1.1" : str) ++ CRLF; ("Host: open.test:443" : str) ++ CRLF],
   ("User-Agent: c" : str)).

(** *** A request for a listed host whose header is spelled "host" *)

Definition lowerHostLine : str := "GET / HTTP/1.1" ++ CRLF.
Definition lowerHostHeaders : list str := [("host: ads.test" : str) ++ CRLF].

(** Whether an event arms a deadline, and whether it is no deadline
    other than the 30 seconds on the client socket. *)
Definition is_any_deadline (e : event) : bool :=
  match e with
  | SetDeadline _ _ => true
  | _ => false
  end.

Definition only_client_deadline (e : event) : bool :=
  match e with
  | SetDeadline c d => conn_eqb c Client && (d =? 30 * Second)%Z
  | _ => true
  end.

(** * Properties *)

Arguments SplitN : simpl never.
Arguments Split : simpl never.
Arguments TrimSpace : simpl never.

(** ** Lines and readers *)

Lemma cutLine_split (s line rest : str) :
  cutLine s = Some (line, rest) -> s = line ++ rest.
Proof.
  revert line rest. induction s as [|c s IH]; intros line rest; simpl; [done|].
  destruct (Ascii.eqb c LF).
  - intros [= <- <-]. reflexivity.
  - destruct (cutLine s) as [[l r]|]; [|done].
    intros [= <- <-]. simpl. f_equal. by apply IH.
Qed.

Lemma cutLine_is_line (s line rest : str) :
  cutLine s = Some (line, rest) -> is_line line.
Proof.
  unfold is_line. revert line rest. induction s as [|c s IH]; intros line rest; simpl; [done|].
  destruct (Ascii.eqb c LF) eqn:E.
  - intros [= <- <-]. simpl. by rewrite E.
  - destruct (cutLine s) as [[l r]|]; [|done].
    intros [= <- <-]. simpl. rewrite E. by rewrite (IH l r).
Qed.

Lemma cutLine_app (line rest : str) :
  is_line line -> cutLine (line ++ rest) = Some (line, rest).
Proof.
  unfold is_line. revert rest. induction line as [|c l IH]; intros rest; simpl; [done|].
  destruct (Ascii.eqb c LF).
  - intros ?; by simplify_eq.
  - destruct (cutLine l) as [[l' r']|] eqn:E; [|done].
    intros ?; simplify_eq. by rewrite IH.
Qed.

Lemma is_line_nonempty (l : str) : is_line l -> 0 < length l.
Proof. destruct l; [done | simpl; lia]. Qed.

Lemma cutLine_shorter (s line rest : str) :
  cutLine s = Some (line, rest) -> length rest < length s.
Proof.
  intros H. pose proof (is_line_nonempty _ (cutLine_is_line _ _ _ H)).
  apply cutLine_split in H. subst s. rewrite length_app. lia.
Qed.

Lemma ReadString_line (line rest : str) (e : error) :
  is_line line ->
  ReadString (mkReader (line ++ rest) e) = (line, None, mkReader rest e).
Proof. intros H. unfold ReadString. simpl. by rewrite cutLine_app. Qed.

Lemma CRLF_is_line : is_line CRLF.
Proof. reflexivity. Qed.

Lemma length_concat_lines (lines : list str) :
  Forall is_header_line lines -> length lines <= length (concat lines).
Proof.
  induction 1 as [|l ls [Hl _] _ IH]; simpl; [lia|].
  rewrite length_app. pose proof (is_line_nonempty l Hl). lia.
Qed.

(** ** parseRequest *)

Lemma requestHeaders_S fuel reader req raw :
  requestHeaders (S fuel) reader req raw =
  let '(line, err, reader) := ReadString reader in
  match err with
  | Some e => if is_EOF e then (Ok (req, raw), reader) else (Err e, reader)
  | None =>
    if bool_decide (line = CRLF) then (Ok (req, raw ++ line), reader)
    else
      if bool_decide (length (SplitN line ":" 2) ≠ 2)
      then requestHeaders fuel reader req (raw ++ line)
      else requestHeaders fuel reader
             (requestHeader (TrimSpace (nth 0 (SplitN line ":" 2) []))
                            (TrimSpace (nth 1 (SplitN line ":" 2) [])) req)
             (raw ++ line)
  end.
Proof. reflexivity. Qed.

(** With more fuel than pending bytes the loop does not depend on the
    fuel: it never reaches the end of it. *)
Lemma requestHeaders_fuel f1 f2 reader req raw :
  length (pending reader) < f1 -> length (pending reader) < f2 ->
  requestHeaders f1 reader req raw = requestHeaders f2 reader req raw.
Proof.
  revert f2 reader req raw.
  induction f1 as [|f1 IH]; intros [|f2] reader req raw H1 H2; try lia.
  rewrite !requestHeaders_S. unfold ReadString.
  destruct (cutLine (pending reader)) as [[line rest]|] eqn:E; [|done].
  apply cutLine_shorter in E.
  repeat case_bool_decide; try done; apply IH; simpl; lia.
Qed.

Lemma connectLines_fuel f1 f2 reader request :
  length (pending reader) < f1 -> length (pending reader) < f2 ->
  connectLines f1 reader request = connectLines f2 reader request.
Proof.
  revert f2 reader request.
  induction f1 as [|f1 IH]; intros [|f2] reader request H1 H2; try lia.
  simpl. unfold ReadString.
  destruct (cutLine (pending reader)) as [[line rest]|] eqn:E; [|done].
  apply cutLine_shorter in E.
  case_bool_decide; [done|]. apply IH; simpl; lia.
Qed.

Lemma responseLines_fuel f1 f2 reader response :
  length (pending reader) < f1 -> length (pending reader) < f2 ->
  responseLines f1 reader response = responseLines f2 reader response.
Proof.
  revert f2 reader response.
  induction f1 as [|f1 IH]; intros [|f2] reader response H1 H2; try lia.
  simpl. unfold ReadString.
  destruct (cutLine (pending reader)) as [[line rest]|] eqn:E; [|done].
  apply cutLine_shorter in E.
  case_bool_decide; [done|]. apply IH; simpl; lia.
Qed.

Lemma responseHeaders_fuel f1 f2 reader headers buf :
  length (pending reader) < f1 -> length (pending reader) < f2 ->
  responseHeaders f1 reader headers buf = responseHeaders f2 reader headers buf.
Proof.
  revert f2 reader headers buf.
  induction f1 as [|f1 IH]; intros [|f2] reader headers buf H1 H2; try lia.
  simpl. unfold ReadString.
  destruct (cutLine (pending reader)) as [[line rest]|] eqn:E; [|done].
  apply cutLine_shorter in E.
  repeat case_bool_decide; try done; apply IH; simpl; lia.
Qed.

(** On a block of header lines closed by the blank line the loop reads
    just that block and accumulates it unchanged. *)
Lemma requestHeaders_block (headers : list str) (body : str) (e : error) :
  Forall is_header_line headers ->
  forall fuel req raw, length headers < fuel ->
  exists req',
    requestHeaders fuel (mkReader (concat headers ++ CRLF ++ body) e) req raw
    = (Ok (req', raw ++ concat headers ++ CRLF), mkReader body e).
Proof.
  induction 1 as [|h hs [Hh Hne] _ IH]; intros [|fuel] req raw Hlt; simpl in Hlt; try lia.
  - rewrite requestHeaders_S. change (concat [] ++ CRLF ++ body) with (CRLF ++ body).
    rewrite (ReadString_line _ _ _ CRLF_is_line). rewrite bool_decide_eq_true_2 by done.
    by eexists.
  - rewrite requestHeaders_S. simpl concat. rewrite <- app_assoc.
    rewrite (ReadString_line _ _ _ Hh). rewrite (bool_decide_eq_false_2 _ Hne).
    case_bool_decide.
    + destruct (IH fuel req (raw ++ h)) as [req' ->]; [lia|].
      exists req'. by rewrite <- !app_assoc.
    + destruct (IH fuel (requestHeader (TrimSpace (nth 0 (SplitN h ":" 2) []))
                                       (TrimSpace (nth 1 (SplitN h ":" 2) [])) req)
                  (raw ++ h)) as [req' ->]; [lia|].
      exists req'. by rewrite <- !app_assoc.
Qed.

Lemma requestHeader_keeps_line key value req :
  Method (requestHeader key value req) = Method req /\
  Path (requestHeader key value req) = Path req /\
  Protocol (requestHeader key value req) = Protocol req.
Proof.
  unfold requestHeader. repeat case_bool_decide; try done.
  by destruct (1 <? _).
Qed.

Lemma requestHeaders_keeps_line fuel reader req raw req' raw' reader' :
  requestHeaders fuel reader req raw = (Ok (req', raw'), reader') ->
  Method req' = Method req /\ Path req' = Path req /\ Protocol req' = Protocol req.
Proof.
  revert reader req raw.
  induction fuel as [|fuel IH]; intros reader req raw; [done|].
  rewrite requestHeaders_S. destruct (ReadString reader) as [[line [err|]] rd].
  - destruct (is_EOF err); [|done]. intros ?; by simplify_eq.
  - case_bool_decide; [intros ?; by simplify_eq|].
    case_bool_decide; [apply IH|].
    intros Hrec. apply IH in Hrec as (-> & -> & ->). apply requestHeader_keeps_line.
Qed.

(** What the loop has consumed is what it accumulated, followed by the
    bytes of an unterminated last line, which it reads and drops. *)
Lemma requestHeaders_consumed fuel reader req raw req' raw' reader' :
  requestHeaders fuel reader req raw = (Ok (req', raw'), reader') ->
  exists kept dropped,
    raw' = raw ++ kept /\
    pending reader = kept ++ dropped ++ pending reader' /\
    (dropped <> [] -> pending reader' = [] /\ cutLine dropped = None).
Proof.
  revert reader req raw.
  induction fuel as [|fuel IH]; intros reader req raw; [done|].
  rewrite requestHeaders_S. unfold ReadString.
  destruct (cutLine (pending reader)) as [[line rest]|] eqn:E.
  - apply cutLine_split in E.
    case_bool_decide.
    { intros ?; simplify_eq. exists CRLF, []. by rewrite E. }
    assert (forall q, requestHeaders fuel (mkReader rest (closing reader)) q (raw ++ line)
                      = (Ok (req', raw'), reader') ->
            exists kept dropped, raw' = raw ++ kept /\
              pending reader = kept ++ dropped ++ pending reader' /\
              (dropped <> [] -> pending reader' = [] /\ cutLine dropped = None)) as Hrec.
    { intros q Hq. apply IH in Hq as (kept & dropped & -> & Hp & Hd). simpl in Hp.
      exists (line ++ kept), dropped. by rewrite E, Hp, <- !app_assoc. }
    case_bool_decide; apply Hrec.
  - destruct (is_EOF (closing reader)); [|done].
    intros ?; simplify_eq. exists [], (pending reader). simpl.
    rewrite !app_nil_r. by split_and!.
Qed.

Lemma parseRequest_block (first : str) (headers : list str) (body : str) (e : error) :
  is_line first -> 3 <= length (Split (TrimSpace first) " ") ->
  Forall is_header_line headers ->
  exists req,
    parseRequest (mkReader (first ++ concat headers ++ CRLF ++ body) e)
    = (Ok req, mkReader body e) /\
    Raw req = first ++ concat headers ++ CRLF /\
    Method req = nth 0 (Split (TrimSpace first) " ") [] /\
    Path req = nth 1 (Split (TrimSpace first) " ") [] /\
    Protocol req = nth 2 (Split (TrimSpace first) " ") [].
Proof.
  intros Hfirst Hparts Hheaders. unfold parseRequest.
  rewrite (ReadString_line _ _ _ Hfirst).
  destruct (length (Split (TrimSpace first) " ") <? 3) eqn:E;
    [apply Nat.ltb_lt in E; lia|].
  match goal with |- context [requestHeaders ?f ?r ?q ?raw] =>
    destruct (requestHeaders_block headers body e Hheaders f q raw) as [req' Hreq];
    [|pose proof (requestHeaders_keeps_line _ _ _ _ _ _ _ Hreq) as (Hm & Hp & Hpr);
      rewrite Hreq]
  end.
  - simpl. rewrite !length_app. pose proof (length_concat_lines _ Hheaders). lia.
  - eexists. split; [reflexivity|]. simpl. by rewrite Hm, Hp, Hpr.
Qed.

(** Whenever parseRequest succeeds, the bytes it has taken from the
    reader are [Raw] followed by the bytes of an unterminated last line,
    if the input ended in one. *)
Lemma parseRequest_consumed reader req reader' :
  parseRequest reader = (Ok req, reader') ->
  exists dropped,
    pending reader = Raw req ++ dropped ++ pending reader' /\
    (dropped <> [] -> pending reader' = [] /\ cutLine dropped = None).
Proof.
  unfold parseRequest, ReadString.
  destruct (cutLine (pending reader)) as [[line rest]|] eqn:E; [|done].
  apply cutLine_split in E.
  destruct (_ <? 3); [done|].
  match goal with |- context [requestHeaders ?f ?r ?q ?raw] =>
    destruct (requestHeaders f r q raw) as [[[q' raw']|err] rd] eqn:Hloop; [|done]
  end.
  intros ?; simplify_eq.
  apply requestHeaders_consumed in Hloop as (kept & dropped & -> & Hp & Hd).
  exists dropped. simpl in *. by rewrite E, Hp, <- !app_assoc.
Qed.

(** ** Traces *)

Ltac list_norm := repeat (progress (simpl; rewrite <- ?app_assoc)).

Lemma closes_app c t1 t2 : closes c (t1 ++ t2) = closes c t1 + closes c t2.
Proof. unfold closes. by rewrite List.filter_app, length_app. Qed.

Lemma closes_cons c e t :
  closes c (e :: t) = (if is_close c e then 1 else 0) + closes c t.
Proof. unfold closes. simpl. by destruct (is_close c e). Qed.

Lemma closes_nil c : closes c [] = 0.
Proof. reflexivity. Qed.

Lemma closes_none c t :
  Forall (fun e => is_close c e = false) t -> closes c t = 0.
Proof.
  induction 1 as [|e t He _ IH]; [done|]. by rewrite closes_cons, He, IH.
Qed.

Lemma writes_to_app c t1 t2 : writes_to c (t1 ++ t2) = writes_to c t1 ++ writes_to c t2.
Proof.
  induction t1 as [|e t1 IH]; [done|]. destruct e; simpl; try done.
  destruct (conn_eqb _ _); simpl; by rewrite IH.
Qed.

Lemma writes_to_none c t :
  Forall (fun e => is_write c e = false) t -> writes_to c t = [].
Proof.
  induction 1 as [|e t He _ IH]; [done|]. destruct e; simpl in *; try done.
  by rewrite He.
Qed.

Lemma conn_eqb_eq a b : conn_eqb a b = true <-> a = b.
Proof. destruct a, b; simpl; split; intros; done. Qed.

Lemma writes_to_In c t data :
  In data (writes_to c t) <-> In (ConnWrite c data) t.
Proof.
  induction t as [|e t IH]; [done|].
  destruct e as [| c' d | | | | | | | | | | | | |]; simpl;
    try (rewrite IH; split; [intros ?; by right | intros [?|?]; [discriminate | done]]).
  destruct (conn_eqb c' c) eqn:E; simpl; rewrite IH.
  - apply conn_eqb_eq in E. subst c'.
    split; (intros [?|?]; [left; congruence | by right]).
  - split; [intros ?; by right | intros [?|?]; [|done]].
    simplify_eq. by destruct c.
Qed.

Lemma quiet_closes c t : Forall (fun e => is_quiet e = true) t -> closes c t = 0.
Proof.
  intros H. apply closes_none. eapply Forall_impl; [exact H|].
  by intros []. 
Qed.

Lemma quiet_no_dial t e :
  Forall (fun e => is_quiet e = true) t -> In e t -> is_dial e = false.
Proof.
  intros H Hin. rewrite Forall_forall in H. apply list_elem_of_In, H in Hin.
  by destruct e.
Qed.

Lemma quiet_no_deadline t c :
  Forall (fun e => is_quiet e = true) t -> Forall (fun e => is_deadline c e = false) t.
Proof. intros H. eapply Forall_impl; [exact H|]. by intros []. Qed.

Lemma silent_quiet t :
  Forall (fun e => is_silent e = true) t -> Forall (fun e => is_quiet e = true) t.
Proof. intros H. eapply Forall_impl; [exact H|]. by intros []. Qed.

Lemma silent_writes c t : Forall (fun e => is_silent e = true) t -> writes_to c t = [].
Proof.
  intros H. apply writes_to_none. eapply Forall_impl; [exact H|]. by intros [].
Qed.

(** ** The blocklist *)

Lemma checkLines_silent w host lines :
  Forall (fun e => is_silent e = true) (fst (checkLines w host lines)).
Proof.
  induction lines as [|text lines IH]; simpl; [done|].
  case_bool_decide; [done|].
  destruct (EqualFold w host (TrimSpace text)).
  - by repeat constructor.
  - destruct (checkLines w host lines) as [es found]. by constructor.
Qed.

Lemma checkLines_found w host lines H :
  In H (hostsOf lines) -> EqualFold w host H = true ->
  snd (checkLines w host lines) = true.
Proof.
  unfold hostsOf.
  intros Hin Hfold. induction lines as [|text lines IH]; simpl in *; [done|].
  case_bool_decide as Hempty; simpl in Hin.
  - by apply IH.
  - destruct (EqualFold w host (TrimSpace text)) eqn:E; [done|].
    destruct Hin as [<-|Hin]; [congruence|].
    destruct (checkLines w host lines). by apply IH.
Qed.

Lemma sendForbiddenResponse_shape w domain :
  exists es,
    sendForbiddenResponse w domain = ConnWrite Client (forbiddenResponse domain) :: es /\
    Forall (fun e => is_silent e = true) es.
Proof.
  unfold sendForbiddenResponse. destruct (write_ok w Client 0); eexists; split; try done.
  by repeat constructor.
Qed.

(** A host check opens the blocklist file first; it writes the 403 page
    to the client when it answers "blocked" and writes nothing otherwise. *)
Lemma checkAndBlockHost_shape w domain :
  exists es,
    fst (checkAndBlockHost w domain) = OsOpen "blocked" :: es /\
    Forall (fun e => is_quiet e = true) es /\
    writes_to Client es
    = (if snd (checkAndBlockHost w domain) then [forbiddenResponse domain] else []) /\
    (forall c, c <> Client -> writes_to c es = []).
Proof.
  destruct (sendForbiddenResponse_shape w domain) as (send & Hsend & Hsilent).
  unfold checkAndBlockHost, checkHost. rewrite Hsend.
  destruct (blocked_file w) as [file|]; simpl.
  - destruct (Scan file) as [lines scanErr].
    pose proof (checkLines_silent w domain lines) as Hs.
    destruct (checkLines w domain lines) as [es found]. simpl in *.
    destruct found; [|destruct scanErr]; simpl; eexists; (split; [reflexivity|]).
    + split_and!.
      * rewrite !Forall_app. split_and!; [by apply silent_quiet|by repeat constructor|].
        constructor; [done|by apply silent_quiet].
      * rewrite !writes_to_app, (silent_writes _ es Hs). simpl.
        by rewrite (silent_writes _ send Hsilent).
      * intros c Hc. rewrite !writes_to_app, (silent_writes _ es Hs). simpl.
        rewrite (silent_writes _ send Hsilent). by destruct c.
    + assert (Forall (fun e => is_silent e = true)
                ((es ++ [FileClose]) ++ [Log ERROR "Host check failed"])) as Hall.
      { rewrite !Forall_app. split_and!; [done|by repeat constructor..]. }
      split_and!; [by apply silent_quiet| |intros c _]; by apply silent_writes.
    + assert (Forall (fun e => is_silent e = true) (es ++ [FileClose])) as Hall.
      { rewrite !Forall_app. split_and!; [done|by repeat constructor..]. }
      split_and!; [by apply silent_quiet| |intros c _]; by apply silent_writes.
  - eexists. split; [reflexivity|]. by split_and!; [repeat constructor|..].
Qed.

Lemma checkAndBlockHost_blocked w domain H :
  In H (scannedHosts w) -> EqualFold w domain H = true ->
  snd (checkAndBlockHost w domain) = true.
Proof.
  unfold scannedHosts, checkAndBlockHost, checkHost.
  destruct (blocked_file w) as [file|]; [|done].
  destruct (Scan file) as [lines scanErr]. simpl. intros Hin Hfold.
  pose proof (checkLines_found w domain lines H Hin Hfold) as Hfound.
  destruct (checkLines w domain lines) as [es found]. simpl in Hfound. by subst found.
Qed.

(** ** The plaintext forwarder *)

Lemma forwardResponse_shape w :
  Forall (fun e => is_quiet e = true) (fst (forwardResponse w)) /\
  writes_to Origin (fst (forwardResponse w)) = [].
Proof.
  unfold forwardResponse. destruct (fst (parseResponse (origin w))); simpl; [|done].
  split; [by repeat constructor|done].
Qed.

(** The paths through handleHTTP. *)
Lemma handleHTTP_cases w reader :
  let t := fst (handleHTTP w reader) in
  (exists e, fst (parseRequest reader) = Err e /\
     t = [SetDeadline Client (30 * Second); Log ERROR "Error parsing HTTP request";
          ConnClose Client])
  \/
  (exists req es,
     fst (parseRequest reader) = Ok req /\
     Forall (fun e => is_quiet e = true) es /\
     (forall c, c <> Client -> writes_to c es = []) /\
     let target := JoinHostPort (Host req) (Port req) in
     ((snd (checkAndBlockHost w (Host req)) = true /\
       writes_to Client es = [forbiddenResponse (Host req)] /\
       t = SetDeadline Client (30 * Second) :: OsOpen "blocked" :: es ++ [ConnClose Client])
      \/
      (snd (checkAndBlockHost w (Host req)) = false /\ dial_ok w target = false /\
       writes_to Client es = [] /\
       t = SetDeadline Client (30 * Second) :: OsOpen "blocked" :: es
           ++ [Log INFO "HTTP request"; NetDial target;
               Log ERROR "Error connecting to target"; ConnClose Client])
      \/
      (snd (checkAndBlockHost w (Host req)) = false /\ dial_ok w target = true /\
       writes_to Client es = [] /\
       exists reply,
         Forall (fun e => is_quiet e = true) reply /\
         writes_to Origin reply = [] /\
         t = SetDeadline Client (30 * Second) :: OsOpen "blocked" :: es
             ++ Log INFO "HTTP request" :: NetDial target :: ConnWrite Origin (Raw req)
             :: reply ++ [ConnClose Origin; ConnClose Client]))).
Proof.
  unfold handleHTTP. destruct (parseRequest reader) as [[req|e] reader']; simpl.
  2: { left. by eexists. }
  right. exists req.
  destruct (checkAndBlockHost_shape w (Host req)) as (es & Hes & Hq & Hwc & Hwo).
  destruct (checkAndBlockHost w (Host req)) as [es0 shouldBlock]. simpl in *. subst es0.
  exists es. split_and!; try done.
  destruct shouldBlock; simpl.
  { left. split_and!; try done. by rewrite app_nil_r. }
  right. destruct (dial_ok w (JoinHostPort (Host req) (Port req))); simpl.
  2: { left. split_and!; try done. by rewrite <- app_assoc. }
  right. split_and!; try done.
  destruct (write_ok w Origin 0); simpl.
  - pose proof (forwardResponse_shape w) as [Hfq Hfw].
    destruct (forwardResponse w) as [fes err]. simpl in *.
    exists (fes ++ match err with
                   | Some _ => [Log ERROR "Error forwarding response"]
                   | None => []
                   end).
    split_and!.
    + rewrite Forall_app. split; [done|]. destruct err; by repeat constructor.
    + rewrite writes_to_app, Hfw. by destruct err.
    + by list_norm.
  - exists [Log ERROR "Error forwarding request"]. split_and!; try done.
    + by repeat constructor.
    + by list_norm.
Qed.

(** ** The tunnel *)

Lemma merge_Permutation sched a b : merge sched a b ≡ₚ a ++ b.
Proof.
  revert a b. induction sched as [|[] sched IH]; intros a b; simpl; [done| |].
  - destruct a as [|x a]; [done|]. simpl. by rewrite IH.
  - destruct b as [|y b]; [by rewrite app_nil_r|].
    rewrite IH. apply Permutation_middle.
Qed.

Lemma closes_merge c sched a b :
  closes c (merge sched a b) = closes c a + closes c b.
Proof.
  revert a b. induction sched as [|[] sched IH]; intros a b; simpl.
  - apply closes_app.
  - destruct a as [|x a]; [done|]. rewrite !closes_cons, IH. lia.
  - destruct b as [|y b]; [by rewrite closes_nil|]. rewrite !closes_cons, IH. lia.
Qed.

Lemma Forall_merge (P : event -> Prop) sched a b :
  Forall P a -> Forall P b -> Forall P (merge sched a b).
Proof.
  intros Ha Hb. rewrite merge_Permutation. by apply Forall_app.
Qed.

(** io.Copy only writes, and only to its destination. *)
Lemma ioCopy_writes w dst k chunks closing :
  Forall (fun e => exists data, e = ConnWrite dst data) (fst (ioCopy w dst k chunks closing)).
Proof.
  revert k. induction chunks as [|chunk chunks IH]; intros k; simpl; [done|].
  destruct chunk as [|c chunk]; [apply IH|].
  destruct (write_ok w dst k).
  - specialize (IH (S k)). destruct (ioCopy w dst (S k) chunks closing) as [es err].
    simpl in *. constructor; [by eexists|done].
  - repeat constructor. by eexists.
Qed.

Lemma ioCopy_quiet w dst k chunks closing :
  Forall (fun e => is_quiet e = true) (fst (ioCopy w dst k chunks closing)).
Proof.
  eapply Forall_impl; [apply ioCopy_writes|]. by intros e [data ->].
Qed.

(** When no write fails, io.Copy delivers the bytes of its source
    unchanged and in order. *)
Lemma ioCopy_delivers w dst k chunks closing :
  (forall i, write_ok w dst i = true) ->
  concat (writes_to dst (fst (ioCopy w dst k chunks closing))) = concat chunks.
Proof.
  intros Hok. revert k. induction chunks as [|chunk chunks IH]; intros k; simpl; [done|].
  destruct chunk as [|c chunk]; [apply IH|].
  rewrite Hok. specialize (IH (S k)).
  destruct (ioCopy w dst (S k) chunks closing) as [es err]. simpl in *.
  assert (conn_eqb dst dst = true) as -> by by destruct dst.
  simpl. by rewrite IH.
Qed.

Lemma concat_dropBytes n chunks : concat (dropBytes n chunks) = drop n (concat chunks).
Proof.
  revert n. induction chunks as [|chunk chunks IH]; intros n; simpl.
  - by rewrite drop_nil.
  - destruct (length chunk <=? n) eqn:E.
    + apply Nat.leb_le in E. rewrite IH, drop_app_ge by done. done.
    + apply Nat.leb_gt in E. simpl. rewrite drop_app_le by lia. done.
Qed.

Lemma responseLines_S fuel reader response :
  responseLines (S fuel) reader response =
  let '(line, err, reader) := ReadString reader in
  match err with
  | Some e => (Err e, reader)
  | None =>
    if bool_decide (line = CRLF) then (Ok (response ++ line), reader)
    else responseLines fuel reader (response ++ line)
  end.
Proof. reflexivity. Qed.

(** readServerResponse returns a prefix of the stream: the lines up to
    and including the first blank line. *)
Lemma responseLines_prefix fuel reader response headers reader' :
  responseLines fuel reader response = (Ok headers, reader') ->
  exists block, headers = response ++ block /\ pending reader = block ++ pending reader'.
Proof.
  revert reader response.
  induction fuel as [|fuel IH]; intros reader response; [done|].
  rewrite responseLines_S. unfold ReadString.
  destruct (cutLine (pending reader)) as [[line rest]|] eqn:E; [|done].
  apply cutLine_split in E. case_bool_decide.
  - intros ?; simplify_eq. by exists CRLF.
  - intros Hrec. apply IH in Hrec as (block & -> & Hp). simpl in Hp.
    exists (line ++ block). by rewrite E, Hp, <- !app_assoc.
Qed.

Lemma forwardServerResponse_quiet w :
  Forall (fun e => is_quiet e = true) (forwardServerResponse w).
Proof.
  unfold forwardServerResponse. destruct (origin_tls w) as [chunks closing].
  destruct (fst (readServerResponse _)) as [headers|e]; [|by repeat constructor].
  constructor; [done|].
  destruct (write_ok w ClientTLS 0); simpl; [|by repeat constructor].
  pose proof (ioCopy_quiet w ClientTLS 1 (dropBytes (length headers) chunks) closing) as Hq.
  destruct (ioCopy _ _ _ _ _) as [es err]. simpl in *.
  rewrite !Forall_app. split_and!; [done| |by repeat constructor].
  destruct err; by repeat constructor.
Qed.

Lemma clientToServer_shape w :
  exists copy,
    clientToServer w = copy ++ [ConnClose OriginTLS; Done] /\
    Forall (fun e => is_quiet e = true) copy.
Proof. eexists. split; [reflexivity|]. apply ioCopy_quiet. Qed.

Lemma serverToClient_shape w :
  exists forward,
    serverToClient w = forward ++ [ConnClose ClientTLS; Done] /\
    Forall (fun e => is_quiet e = true) forward.
Proof. eexists. split; [reflexivity|]. apply forwardServerResponse_quiet. Qed.

Lemma tunnelConnections_closes w c :
  closes c (tunnelConnections w)
  = match c with OriginTLS | ClientTLS => 1 | _ => 0 end.
Proof.
  unfold tunnelConnections.
  destruct (clientToServer_shape w) as (copy & -> & Hc).
  destruct (serverToClient_shape w) as (forward & -> & Hf).
  rewrite closes_app, closes_merge, !closes_app, !closes_cons, !closes_nil.
  rewrite (quiet_closes _ _ Hc), (quiet_closes _ _ Hf). by destruct c.
Qed.

Lemma tunnelConnections_no_dial w :
  Forall (fun e => is_dial e = false) (tunnelConnections w).
Proof.
  unfold tunnelConnections.
  destruct (clientToServer_shape w) as (copy & -> & Hc).
  destruct (serverToClient_shape w) as (forward & -> & Hf).
  apply Forall_app. split; [|by repeat constructor].
  apply Forall_merge; apply Forall_app; split; try by repeat constructor.
  all: eapply Forall_impl; [eassumption|]; by intros [].
Qed.

(** ** The MITM path *)

(** The paths through establishMITMTunnel: it fails before the origin
    is dialled, the dial fails, or the tunnel runs. *)
Lemma establishMITMTunnel_cases w target domain :
  let '(t, err) := establishMITMTunnel w target domain in
  (err <> None /\
   (t = [ConnWrite Client ConnectionEstablished] \/
    t = [ConnWrite Client ConnectionEstablished; LoadRoot] \/
    t = [ConnWrite Client ConnectionEstablished; LoadRoot; TLSHandshake]))
  \/
  (err <> None /\ tls_dial_ok w target = false /\
   t = [ConnWrite Client ConnectionEstablished; LoadRoot; TLSHandshake; TLSDial target])
  \/
  (err = None /\ tls_dial_ok w target = true /\
   t = [ConnWrite Client ConnectionEstablished; LoadRoot; TLSHandshake; TLSDial target]
       ++ tunnelConnections w ++ [ConnClose OriginTLS]).
Proof.
  unfold establishMITMTunnel.
  destruct (write_ok w Client 0); simpl; [|left; split; [done|by left]].
  destruct (root_ca w) as [rootCA|e]; [|left; split; [done|by right; left]].
  destruct (generateCertificate w domain rootCA) as [fakeCert|e];
    [|left; split; [done|by right; left]].
  destruct (handshake_ok w); simpl; [|left; split; [done|by right; right]].
  destruct (tls_dial_ok w target); simpl; [|right; left; by split_and!].
  right; right. by split_and!.
Qed.

(** The paths through handleHTTPS. *)
Lemma handleHTTPS_cases w reader :
  let t := handleHTTPS w reader in
  (exists e, fst (processConnectRequest reader) = Err e /\
     t = [Log ERROR "Failed to process CONNECT request"; ConnClose Client])
  \/
  (exists target domain es,
     fst (processConnectRequest reader) = Ok (target, domain) /\
     Forall (fun e => is_quiet e = true) es /\
     (forall c, c <> Client -> writes_to c es = []) /\
     ((snd (checkAndBlockHost w domain) = true /\
       writes_to Client es = [forbiddenResponse domain] /\
       t = OsOpen "blocked" :: es ++ [ConnClose Client])
      \/
      (snd (checkAndBlockHost w domain) = false /\
       writes_to Client es = [] /\
       t = OsOpen "blocked" :: es
           ++ fst (establishMITMTunnel w target domain)
           ++ match snd (establishMITMTunnel w target domain) with
              | Some _ => [Log ERROR "MITM tunneling failed"]
              | None => []
              end
           ++ [ConnClose Client]))).
Proof.
  unfold handleHTTPS.
  destruct (fst (processConnectRequest reader)) as [[target domain]|e]; simpl.
  2: { left. by eexists. }
  right. exists target, domain.
  destruct (checkAndBlockHost_shape w domain) as (es & Hes & Hq & Hwc & Hwo).
  destruct (checkAndBlockHost w domain) as [es0 shouldBlock]. simpl in *. subst es0.
  exists es. split_and!; try done.
  destruct shouldBlock; simpl.
  { left. split_and!; try done. by rewrite app_nil_r. }
  right. split_and!; try done.
  destruct (establishMITMTunnel w target domain) as [mitm err]. by list_norm.
Qed.

(** The paths through handleConnection. *)
Lemma handleConnection_cases w :
  (length (pending (client w)) < 7 /\
   handleConnection w
   = [SetDeadline Client (30 * Second); Log ERROR "Error peeking connection";
      ConnClose Client])
  \/ (7 <= length (pending (client w)) /\
      handleConnection w
      = SetDeadline Client (30 * Second) :: handleHTTPS w (client w) ++ [ConnClose Client])
  \/ (7 <= length (pending (client w)) /\
      handleConnection w
      = SetDeadline Client (30 * Second) :: fst (handleHTTP w (client w))
        ++ [ConnClose Client]).
Proof.
  unfold handleConnection, Peek.
  destruct (7 <=? length (pending (client w))) eqn:E.
  - apply Nat.leb_le in E. case_bool_decide; [right; by left|right; by right].
  - apply Nat.leb_gt in E. by left.
Qed.

(** * The properties of the specification *)

Lemma handleHTTP_reader w reader :
  snd (handleHTTP w reader) = snd (parseRequest reader).
Proof. unfold handleHTTP. by destruct (parseRequest reader). Qed.

(** C8 (fails on the code). The plaintext forwarder of the proxy package
    never arms a deadline on the origin connection: on every path the
    only deadline handleHTTP sets is one more on the client socket. In
    scenario 1 the request is written to the origin right after the dial. *)
Theorem C8_no_deadline_on_origin :
  (forall w reader,
     Forall (fun e => is_deadline Origin e = false) (fst (handleHTTP w reader))) /\
  handleConnection plainWorld
  = [SetDeadline Client (30 * Second); SetDeadline Client (30 * Second);
     OsOpen "blocked"; FileClose; Log INFO "HTTP request";
     NetDial "example.test:80"; ConnWrite Origin plainGet;
     Log INFO "HTTP response"; ConnWrite Client plainReply;
     ConnClose Origin; ConnClose Client; ConnClose Client].
Proof.
  split; [|by vm_compute].
  intros w reader.
  destruct (handleHTTP_cases w reader) as
    [(e & _ & ->)|(req & es & _ & Hq & _ & [(_ & _ & ->)|[(_ & _ & _ & ->)|
      (_ & _ & _ & reply & Hr & _ & ->)]])].
  - by repeat constructor.
  - repeat constructor. apply Forall_app. split; [by apply quiet_no_deadline|].
    by repeat constructor.
  - repeat constructor. apply Forall_app. split; [by apply quiet_no_deadline|].
    by repeat constructor.
  - repeat constructor. apply Forall_app. split; [by apply quiet_no_deadline|].
    repeat constructor. apply Forall_app. split; [by apply quiet_no_deadline|].
    by repeat constructor.
Qed.

(** The stand-alone program arms the deadline that the proxy package
    leaves out: same world, same request. *)
Lemma main_handleHTTP_arms_origin_deadline :
  main.handleConnection plainWorld
  = [SetDeadline Client (30 * Second); Log INFO "HTTP";
     NetDial "example.test:80"; SetDeadline Origin (30 * Second);
     ConnWrite Origin plainGet; Log INFO "Response"; ConnWrite Client plainReply;
     ConnClose Origin; ConnClose Client].
Proof. by vm_compute. Qed.

(** C10. A plaintext request made of a request line, header lines and
    the blank line, followed by any bytes [body]: parseRequest consumes
    the head and leaves [body] in the buffered reader (which may have
    fetched it from the socket, but nothing takes it out), handleHTTP
    reads nothing more, and the only bytes it writes to the origin are
    the head (when the host is not blocked and the dial succeeds; nothing
    otherwise). *)
Theorem C10_body_neither_read_nor_forwarded
        (w : World) (first : str) (headers : list str) (body : str) (e : error) :
  is_line first -> 3 <= length (Split (TrimSpace first) " ") ->
  Forall is_header_line headers ->
  let reader := mkReader (first ++ concat headers ++ CRLF ++ body) e in
  let head := first ++ concat headers ++ CRLF in
  exists req,
    parseRequest reader = (Ok req, mkReader body e) /\
    Raw req = head /\
    snd (handleHTTP w reader) = mkReader body e /\
    writes_to Origin (fst (handleHTTP w reader))
    = if negb (snd (checkAndBlockHost w (Host req)))
         && dial_ok w (JoinHostPort (Host req) (Port req))
      then [head] else [].
Proof.
  intros Hfirst Hparts Hheaders reader head.
  destruct (parseRequest_block first headers body e Hfirst Hparts Hheaders)
    as (req & Hparse & Hraw & _).
  exists req. fold reader in Hparse. split_and!; try done.
  { by rewrite handleHTTP_reader, Hparse. }
  destruct (handleHTTP_cases w reader) as
    [(err & Herr & _)|(req' & es & Hreq & Hq & Hw & Hcases)].
  { by rewrite Hparse in Herr. }
  rewrite Hparse in Hreq. simpl in Hreq. injection Hreq as <-.
  specialize (Hw Origin ltac:(done)).
  destruct Hcases as [(-> & _ & ->)|[(-> & -> & _ & ->)|(-> & -> & _ & reply & _ & Hr & ->)]];
    simpl; rewrite writes_to_app, Hw; simpl; [done..|].
  rewrite writes_to_app, Hr. by rewrite Hraw.
Qed.

Lemma C10_witness :
  exists req,
    parseRequest (mkReader (postLine ++ concat postHeaders ++ CRLF ++ postBody) io_EOF)
    = (Ok req, mkReader postBody io_EOF) /\
    Raw req = postLine ++ concat postHeaders ++ CRLF /\
    snd (handleHTTP quiet (mkReader (postLine ++ concat postHeaders ++ CRLF ++ postBody) io_EOF))
    = mkReader postBody io_EOF /\
    writes_to Origin
      (fst (handleHTTP quiet (mkReader (postLine ++ concat postHeaders ++ CRLF ++ postBody) io_EOF)))
    = if negb (snd (checkAndBlockHost quiet (Host req)))
         && dial_ok quiet (JoinHostPort (Host req) (Port req))
      then [postLine ++ concat postHeaders ++ CRLF] else [].
Proof.
  apply (C10_body_neither_read_nor_forwarded quiet postLine postHeaders postBody io_EOF).
  - reflexivity.
  - vm_compute. lia.
  - repeat constructor; discriminate.
Defined.

(** C6 (fails on the code). When the input ends inside a header line,
    parseRequest has read that partial line from the stream but has not
    added it to [Raw]: the bytes forwarded to the origin are shorter than
    the bytes consumed. parseResponse loses the partial line of a
    response in the same way. *)
Theorem C6_partial_line_consumed_but_dropped :
  (exists req,
     parseRequest (mkReader cutRequest io_EOF) = (Ok req, mkReader [] io_EOF) /\
     Raw req = "GET / HTTP/1.1" ++ CRLF ++ "Host: example.test" ++ CRLF /\
     cutRequest = Raw req ++ "Accept: */*" /\
     writes_to Origin (handleConnection (with_client (mkReader cutRequest io_EOF) quiet))
     = [Raw req]) /\
  (exists resp,
     parseResponse (mkReader cutReply io_EOF) = (Ok resp, mkReader [] io_EOF) /\
     RawResponse resp = "HTTP/1.1 204 No Content" ++ CRLF /\
     cutReply = RawResponse resp ++ "Server: x").
Proof.
  split; eexists; by vm_compute.
Qed.

(** What does hold for every successful parse: the consumed bytes are
    [Raw] followed by at most one unterminated line, which is dropped;
    nothing is dropped when bytes remain in the reader. *)
Lemma parseRequest_roundtrip reader req reader' :
  parseRequest reader = (Ok req, reader') ->
  pending reader' <> [] ->
  pending reader = Raw req ++ pending reader'.
Proof.
  intros Hparse Hrest.
  apply parseRequest_consumed in Hparse as (dropped & -> & Hd).
  destruct dropped as [|c d]; [done|].
  destruct Hd as [Hnil _]; [done|]. by rewrite Hnil in Hrest.
Qed.

Lemma quiet_Forall_no_dial t :
  Forall (fun e => is_quiet e = true) t -> Forall (fun e => is_dial e = false) t.
Proof. intros H. eapply Forall_impl; [exact H|]. by intros []. Qed.



Lemma blocked_request_403 (es tail : list event) (domain : str) :
  writes_to Client es = [forbiddenResponse domain] ->
  In (ConnWrite Client (forbiddenResponse domain)) (es ++ tail).
Proof.
  intros Hw. apply in_or_app. left. apply writes_to_In. rewrite Hw. by left.
Qed.

(** ** Counting closes *)

Lemma opened_app w c t1 t2 : opened w c (t1 ++ t2) = opened w c t1 || opened w c t2.
Proof. apply existsb_app. Qed.

Lemma opened_no_dial w c t :
  Forall (fun e => is_dial e = false) t -> opened w c t = false.
Proof.
  induction 1 as [|e t He _ IH]; [done|]. unfold opened in *. simpl. rewrite IH.
  by destruct e.
Qed.

Lemma opened_quiet w c t :
  Forall (fun e => is_quiet e = true) t -> opened w c t = false.
Proof. intros H. by apply opened_no_dial, quiet_Forall_no_dial. Qed.

Lemma opened_cons w c e t : opened w c (e :: t) = opens w c e || opened w c t.
Proof. reflexivity. Qed.

Lemma opened_nil w c : opened w c [] = false.
Proof. reflexivity. Qed.

Ltac count_closes :=
  repeat match goal with
         | |- context [closes _ (_ ++ _)] => rewrite closes_app
         | |- context [closes _ (_ :: _)] => rewrite closes_cons
         | |- context [closes _ []] => rewrite closes_nil
         | H : Forall (fun e => is_quiet e = true) ?t |- context [closes ?c ?t] =>
           rewrite (quiet_closes c t H)
         | |- context [closes _ (tunnelConnections _)] => rewrite tunnelConnections_closes
         | |- context [opened _ _ (_ ++ _)] => rewrite opened_app
         | |- context [opened _ _ (_ :: _)] => rewrite opened_cons
         | |- context [opened _ _ []] => rewrite opened_nil
         | H : Forall (fun e => is_quiet e = true) ?t |- context [opened ?w ?c ?t] =>
           rewrite (opened_quiet w c t H)
         | |- context [opened ?w ?c (tunnelConnections ?w)] =>
           rewrite (opened_no_dial w c _ (tunnelConnections_no_dial w))
         end.

(** Every path through the dispatcher, with its calls of Close. *)
Lemma handleConnection_closes (w : World) (c : conn) :
  closes c (handleConnection w)
  = match c with
    | Client => if 7 <=? length (pending (client w)) then 2 else 1
    | Origin => if opened w Origin (handleConnection w) then 1 else 0
    | OriginTLS => if opened w OriginTLS (handleConnection w) then 2 else 0
    | ClientTLS => if opened w OriginTLS (handleConnection w) then 1 else 0
    end.
Proof.
  destruct (handleConnection_cases w) as [[Hpeek ->]|[[Hpeek ->]|[Hpeek ->]]].
  - apply Nat.leb_gt in Hpeek. rewrite Hpeek. by destruct c.
  - apply Nat.leb_le in Hpeek. rewrite Hpeek.
    destruct (handleHTTPS_cases w (client w)) as
      [(err & _ & ->)|(target & domain & es & _ & Hq & _ & [(_ & _ & ->)|(_ & _ & ->)])].
    + by destruct c.
    + count_closes. by destruct c.
    + pose proof (establishMITMTunnel_cases w target domain) as Hm.
      destruct (establishMITMTunnel w target domain) as [mitm err]. simpl.
      destruct Hm as [(Herr & [-> | [-> | ->]]) | [(Herr & Hdial & ->) | (-> & Hdial & ->)]];
        try (destruct err; [|done]); count_closes; simpl; rewrite ?Hdial;
        by destruct c.
  - apply Nat.leb_le in Hpeek. rewrite Hpeek.
    destruct (handleHTTP_cases w (client w)) as
      [(err & _ & ->)|(req & es & _ & Hq & _ & [(_ & _ & ->)|[(_ & Hdial & _ & ->)|
        (_ & Hdial & _ & reply & Hr & _ & ->)]])].
    + by destruct c.
    + count_closes. by destruct c.
    + count_closes. simpl. rewrite ?Hdial. by destruct c.
    + count_closes. simpl. rewrite ?Hdial. by destruct c.
Qed.

(** C3 (amended). On every path through the dispatcher the client
    socket is closed at least once and the last action is one of these
    closes: Close is called once when the peek fails and twice on every
    path through handleHTTP or handleHTTPS, each of which defers its own
    Close. An origin connection of the plaintext path is closed exactly
    once; the two TLS endpoints of a tunnel are closed by the pump, and
    the origin endpoint once more by establishMITMTunnel. *)
Theorem C3_closes_on_every_path (w : World) :
  let t := handleConnection w in
  closes Client t = (if 7 <=? length (pending (client w)) then 2 else 1) /\
  last t = Some (ConnClose Client) /\
  closes Origin t = (if opened w Origin t then 1 else 0) /\
  closes OriginTLS t = (if opened w OriginTLS t then 2 else 0) /\
  closes ClientTLS t = (if opened w OriginTLS t then 1 else 0).
Proof.
  intros t. subst t.
  split_and!;
    [exact (handleConnection_closes w Client) |
     | exact (handleConnection_closes w Origin)
     | exact (handleConnection_closes w OriginTLS)
     | exact (handleConnection_closes w ClientTLS)].
  destruct (handleConnection_cases w) as [[_ ->]|[[_ ->]|[_ ->]]]; [reflexivity|..];
    by rewrite app_comm_cons, last_snoc.
Qed.

(** C3 as stated fails on scenario 1: the client socket is closed twice. *)
Lemma C3_counterexample :
  closes Client (handleConnection plainWorld) = 2 /\
  ~ closed_exactly_once plainWorld.
Proof.
  split; [by vm_compute|]. intros [Hclient _]. vm_compute in Hclient. discriminate.
Qed.

(** ** The CONNECT path when the dial fails *)

Lemma tls_dials_app t1 t2 : tls_dials (t1 ++ t2) = tls_dials t1 ++ tls_dials t2.
Proof.
  induction t1 as [|e t1 IH]; [done|]. destruct e; simpl; by rewrite ?IH.
Qed.

Lemma tls_dials_none t : Forall (fun e => is_dial e = false) t -> tls_dials t = [].
Proof. induction 1 as [|e t He _ IH]; [done|]. by destruct e. Qed.

Lemma tls_dials_In t address : In (TLSDial address) t -> In address (tls_dials t).
Proof.
  induction t as [|e t IH]; [done|]. intros [->|Hin]; [by left|].
  destruct e; simpl; auto.
Qed.

(** C1 (amended). In the CONNECT path the 200 line is written before the
    origin is dialled. When the dial fails nothing more is written to the
    client: the error is logged and the client socket is closed. *)
Theorem C1_dial_failure_after_200 (w : World) (target : str) :
  In (TLSDial target) (handleConnection w) -> tls_dial_ok w target = false ->
  exists es,
    handleConnection w
    = SetDeadline Client (30 * Second) :: OsOpen "blocked" :: es
      ++ [ConnWrite Client ConnectionEstablished; LoadRoot; TLSHandshake;
          TLSDial target; Log ERROR "MITM tunneling failed";
          ConnClose Client; ConnClose Client] /\
    Forall (fun e => is_quiet e = true) es /\
    writes_to Client (handleConnection w) = [ConnectionEstablished].
Proof.
  intros Hin Hfail. apply tls_dials_In in Hin.
  destruct (handleConnection_cases w) as [[_ Ht]|[[_ Ht]|[_ Ht]]];
    rewrite Ht in *; clear Ht.
  - done.
  - destruct (handleHTTPS_cases w (client w)) as
      [(err & _ & Ht)|(tg & domain & es & _ & Hq & _ & [(_ & _ & Ht)|(_ & Hw & Ht)])];
      rewrite Ht in *; clear Ht.
    + done.
    + simpl in Hin. rewrite !tls_dials_app in Hin.
      by rewrite (tls_dials_none es (quiet_Forall_no_dial _ Hq)) in Hin.
    + pose proof (establishMITMTunnel_cases w tg domain) as Hm.
      destruct (establishMITMTunnel w tg domain) as [mitm err]. simpl in *.
      rewrite !tls_dials_app in Hin.
      rewrite (tls_dials_none es (quiet_Forall_no_dial _ Hq)) in Hin.
      destruct Hm as [(Herr & [-> | [-> | ->]]) | [(Herr & Hdial & ->) | (-> & Hdial & ->)]];
        try (destruct err; [|done]); simpl in Hin.
      * done.
      * done.
      * done.
      * destruct Hin as [->|[]]. exists es. split_and!; [by list_norm|done|].
        simpl. rewrite !writes_to_app, Hw. done.
      * rewrite !tls_dials_app in Hin.
        rewrite (tls_dials_none _ (tunnelConnections_no_dial w)) in Hin.
        destruct Hin as [->|[]]. congruence.
  - destruct (handleHTTP_cases w (client w)) as
      [(err & _ & Ht)|(req & es & _ & Hq & _ & [(_ & _ & Ht)|[(_ & _ & _ & Ht)|
        (_ & _ & _ & reply & Hr & _ & Ht)]])];
      rewrite Ht in *; clear Ht; simpl in Hin; rewrite ?tls_dials_app in Hin;
      rewrite ?(tls_dials_none es (quiet_Forall_no_dial _ Hq)) in Hin;
      simpl in Hin; rewrite ?tls_dials_app in Hin;
      rewrite ?(tls_dials_none reply (quiet_Forall_no_dial _ Hr)) in Hin; done.
Qed.

Lemma C1_witness :
  exists es,
    handleConnection unreachableWorld
    = SetDeadline Client (30 * Second) :: OsOpen "blocked" :: es
      ++ [ConnWrite Client ConnectionEstablished; LoadRoot; TLSHandshake;
          TLSDial "unreachable.test:443"; Log ERROR "MITM tunneling failed";
          ConnClose Client; ConnClose Client] /\
    Forall (fun e => is_quiet e = true) es /\
    writes_to Client (handleConnection unreachableWorld) = [ConnectionEstablished].
Proof.
  apply (C1_dial_failure_after_200 unreachableWorld "unreachable.test:443").
  - vm_compute. tauto.
  - reflexivity.
Defined.

(** C1 as stated fails on scenario 5: the client has been sent the 200
    line and is sent no 502. *)
Lemma C1_counterexample :
  handleConnection unreachableWorld
  = [SetDeadline Client (30 * Second); OsOpen "blocked"; FileClose;
     ConnWrite Client ConnectionEstablished; LoadRoot; TLSHandshake;
     TLSDial "unreachable.test:443"; Log ERROR "MITM tunneling failed";
     ConnClose Client; ConnClose Client] /\
  ~ sends_502_instead_of_200 unreachableWorld.
Proof.
  split; [by vm_compute|]. intros Hclaim.
  destruct (Hclaim "unreachable.test:443") as [_ Hno200].
  - vm_compute. tauto.
  - reflexivity.
  - apply Hno200. vm_compute. tauto.
Qed.

(** The stand-alone program answers a failed dial with 502 and has not
    sent 200: same world, same request. *)
Lemma main_handleHTTPS_sends_502 :
  main.handleConnection (with_dials (fun _ => false) (fun _ => false) unreachableWorld)
  = [SetDeadline Client (30 * Second); Log INFO "HTTPS CONNECT";
     NetDial "unreachable.test:443"; Log ERROR "Error connecting to target";
     ConnWrite Client BadGateway; ConnClose Client].
Proof. by vm_compute. Qed.

(** ** The pump *)

Lemma readServerResponse_prefix reader headers reader' :
  readServerResponse reader = (Ok headers, reader') ->
  pending reader = headers ++ pending reader'.
Proof.
  unfold readServerResponse. intros Hlines.
  apply responseLines_prefix in Hlines as (block & -> & Hp). done.
Qed.

(** C2 (amended). The two directions of the pump differ. Client to
    origin is a raw copy. Origin to client first reads lines up to a
    blank line and forwards nothing when the stream ends before one;
    otherwise it writes that block and copies the rest. Each direction
    ends by calling Close on its destination, and the pump returns when
    both directions are done: its trace is an interleaving of the two,
    followed by the return of Wait. *)
Theorem C2_pump_directions (w : World) :
  (forall i, write_ok w ClientTLS i = true) ->
  (forall i, write_ok w OriginTLS i = true) ->
  (exists copy,
     clientToServer w = copy ++ [ConnClose OriginTLS; Done] /\
     Forall (fun e => exists data, e = ConnWrite OriginTLS data) copy /\
     concat (writes_to OriginTLS copy) = concat (fst (client_tls w))) /\
  (exists forward,
     serverToClient w = forward ++ [ConnClose ClientTLS; Done] /\
     Forall (fun e => is_quiet e = true) forward /\
     match fst (readServerResponse
                  (mkReader (concat (fst (origin_tls w))) (snd (origin_tls w)))) with
     | Ok headers => concat (writes_to ClientTLS forward) = concat (fst (origin_tls w))
     | Err _ => writes_to ClientTLS forward = []
     end) /\
  (exists body,
     tunnelConnections w = body ++ [WaitReturns] /\
     body ≡ₚ clientToServer w ++ serverToClient w).
Proof.
  intros Hclient Horigin. split_and!.
  - eexists. split_and!; [reflexivity|apply ioCopy_writes|].
    by apply ioCopy_delivers.
  - eexists. split_and!; [reflexivity|apply forwardServerResponse_quiet|].
    unfold forwardServerResponse. destruct (origin_tls w) as [chunks closing]. simpl.
    destruct (readServerResponse (mkReader (concat chunks) closing))
      as [[headers|err] reader'] eqn:Hread; simpl; [|done].
    apply readServerResponse_prefix in Hread. simpl in Hread.
    rewrite Hclient. simpl.
    pose proof (ioCopy_delivers w ClientTLS 1 (dropBytes (length headers) chunks) closing
                  Hclient) as Hcopy.
    destruct (ioCopy w ClientTLS 1 _ closing) as [es err]. simpl in *.
    rewrite !writes_to_app, !concat_app, Hcopy, concat_dropBytes.
    rewrite !Hread, drop_app_length.
    destruct err; simpl; by rewrite app_nil_r.
  - eexists. split; [reflexivity|]. apply merge_Permutation.
Qed.

Lemma C2_witness :
  (exists copy,
     clientToServer tunnelWorld = copy ++ [ConnClose OriginTLS; Done] /\
     Forall (fun e => exists data, e = ConnWrite OriginTLS data) copy /\
     concat (writes_to OriginTLS copy) = concat (fst (client_tls tunnelWorld))) /\
  (exists forward,
     serverToClient tunnelWorld = forward ++ [ConnClose ClientTLS; Done] /\
     Forall (fun e => is_quiet e = true) forward /\
     match fst (readServerResponse
                  (mkReader (concat (fst (origin_tls tunnelWorld)))
                            (snd (origin_tls tunnelWorld)))) with
     | Ok headers =>
       concat (writes_to ClientTLS forward) = concat (fst (origin_tls tunnelWorld))
     | Err _ => writes_to ClientTLS forward = []
     end) /\
  (exists body,
     tunnelConnections tunnelWorld = body ++ [WaitReturns] /\
     body ≡ₚ clientToServer tunnelWorld ++ serverToClient tunnelWorld).
Proof.
  apply (C2_pump_directions tunnelWorld); intros i; reflexivity.
Defined.

(** C2 as stated fails where the origin sends "pong" and closes: the
    bytes never reach the client, and both endpoints are closed rather
    than half-closed. *)
Lemma C2_counterexample :
  tunnelConnections pingPongWorld
  = [ConnWrite OriginTLS "ping"; ConnClose OriginTLS; Done;
     Log ERROR "Failed reading headers"; ConnClose ClientTLS; Done; WaitReturns] /\
  ~ pump_half_closes pingPongWorld.
Proof.
  split; [by vm_compute|]. intros Hclaim.
  destruct Hclaim as (_ & Hpong & _); [done..|]. vm_compute in Hpong. discriminate.
Qed.

(** The stand-alone program copies raw bytes in both directions and
    half-closes: same streams, over a raw TCP tunnel. *)
Lemma main_handleHTTPS_half_closes :
  main.handleConnection
    (with_origin (mkReader "pong" io_EOF)
       (with_client (mkReader ("CONNECT api.test:443 HTTP/1.1" ++ CRLF ++ CRLF ++ "ping")
                              io_EOF) quiet))
  = [SetDeadline Client (30 * Second); Log INFO "HTTPS CONNECT";
     NetDial "api.test:443"; ConnWrite Client ConnectionEstablished;
     ConnWrite Origin "ping"; ConnCloseWrite Origin; Done;
     ConnWrite Client "pong"; ConnCloseWrite Client; Done; WaitReturns;
     ConnClose Origin; ConnClose Client].
Proof. by vm_compute. Qed.

(** ** TrimSpace *)

Lemma TrimLeft_split (s : str) :
  exists sp, s = sp ++ TrimLeft s /\ Forall (fun c => isSpace c = true) sp.
Proof.
  induction s as [|c s (sp & Hs & Hsp)]; simpl; [by exists []|].
  destruct (isSpace c) eqn:E.
  - exists (c :: sp). simpl. split; [by rewrite <- Hs|by constructor].
  - by exists [].
Qed.

Lemma TrimLeft_head (s : str) :
  match TrimLeft s with
  | c :: _ => isSpace c = false
  | [] => True
  end.
Proof.
  induction s as [|c s IH]; simpl; [done|]. by destruct (isSpace c) eqn:E.
Qed.

Lemma TrimLeft_fixed (s : str) :
  match s with c :: _ => isSpace c = false | [] => True end -> TrimLeft s = s.
Proof. destruct s as [|c s]; simpl; [done|]. by intros ->. Qed.

Lemma TrimRight_split (s : str) :
  exists sp, s = TrimRight s ++ sp /\ Forall (fun c => isSpace c = true) sp.
Proof.
  unfold TrimRight. destruct (TrimLeft_split (rev s)) as (sp & Hs & Hsp).
  exists (rev sp). split.
  - rewrite <- rev_app_distr, <- Hs. by rewrite rev_involutive.
  - by apply Forall_rev.
Qed.

Lemma TrimRight_fixed (s : str) : TrimLeft (rev s) = rev s -> TrimRight s = s.
Proof. unfold TrimRight. intros ->. apply rev_involutive. Qed.

(** The result of TrimSpace neither starts nor ends with white space, so
    trimming it again changes nothing. *)
Lemma TrimSpace_idempotent (s : str) : TrimSpace (TrimSpace s) = TrimSpace s.
Proof.
  unfold TrimSpace.
  set (u := TrimLeft s).
  assert (TrimLeft (TrimRight u) = TrimRight u) as ->.
  { apply TrimLeft_fixed. pose proof (TrimLeft_head s) as Hhead. fold u in Hhead.
    destruct (TrimRight_split u) as (sp & Hu & _).
    destruct (TrimRight u) as [|c t]; [done|]. rewrite Hu in Hhead. done. }
  apply TrimRight_fixed. unfold TrimRight. rewrite rev_involutive.
  apply TrimLeft_fixed, TrimLeft_head.
Qed.

(** ** parseResponse *)

Lemma responseHeaders_S fuel reader headers buf :
  responseHeaders (S fuel) reader headers buf =
  let '(line, err, reader) := ReadString reader in
  match err with
  | Some e => if is_EOF e then (Ok (headers, buf), reader) else (Err e, reader)
  | None =>
    if bool_decide (line = CRLF) then (Ok (headers, buf ++ line), reader)
    else responseHeaders fuel reader (storeHeader headers line) (buf ++ line)
  end.
Proof.
  unfold storeHeader. cbn [responseHeaders].
  destruct (ReadString reader) as [[line [e|]] rd]; [done|].
  case_bool_decide; [done|]. by case_bool_decide.
Qed.

Lemma responseHeaders_block (lines : list str) (rest : str) (e : error) :
  Forall is_header_line lines ->
  forall fuel headers buf, length lines < fuel ->
    responseHeaders fuel (mkReader (concat lines ++ CRLF ++ rest) e) headers buf
    = (Ok (fold_left storeHeader lines headers, buf ++ concat lines ++ CRLF),
       mkReader rest e).
Proof.
  induction 1 as [|h hs [Hh Hne] _ IH]; intros [|fuel] headers buf Hlt;
    simpl in Hlt; try lia.
  - rewrite responseHeaders_S. change (concat [] ++ CRLF ++ rest) with (CRLF ++ rest).
    rewrite (ReadString_line _ _ _ CRLF_is_line). by rewrite bool_decide_eq_true_2.
  - rewrite responseHeaders_S. simpl concat. rewrite <- app_assoc.
    rewrite (ReadString_line _ _ _ Hh). rewrite (bool_decide_eq_false_2 _ Hne).
    rewrite IH by lia. simpl. by rewrite <- !app_assoc.
Qed.

Lemma storeHeader_lookup headers line name :
  storeHeader headers line !! name
  = match SplitN line ":" 2 with
    | [k; v] => if bool_decide (TrimSpace k = name) then Some (TrimSpace v)
                else headers !! name
    | _ => headers !! name
    end.
Proof.
  unfold storeHeader. destruct (SplitN line ":" 2) as [|k [|v [|x parts]]]; simpl; try done.
  case_bool_decide as Hk.
  - subst name. apply lookup_insert_eq.
  - by apply lookup_insert_ne.
Qed.

(** The header map after a block of lines is the map of [headerValue]. *)
Lemma fold_storeHeader_lookup lines headers name :
  fold_left storeHeader lines headers !! name
  = match headerValue name lines with
    | Some v => Some v
    | None => headers !! name
    end.
Proof.
  revert headers. induction lines as [|line lines IH]; intros headers; simpl; [done|].
  rewrite IH. destruct (headerValue name lines); [done|].
  rewrite storeHeader_lookup. change (list_ascii_of_string ":") with [":"%char].
  destruct (SplitN line _ 2) as [|k [|v [|x parts]]]; try done.
  by case_bool_decide.
Qed.

Lemma headerValue_trimmed name lines v :
  headerValue name lines = Some v -> TrimSpace name = name /\ TrimSpace v = v.
Proof.
  induction lines as [|line lines IH]; simpl; [done|].
  destruct (headerValue name lines); [by intros [= <-]; apply IH|].
  destruct (SplitN line _ 2) as [|k [|x [|y parts]]]; try done.
  case_bool_decide as Hk; [|done]. intros [= <-]. subst name.
  split; apply TrimSpace_idempotent.
Qed.

(** C4 (amended). For a response made of a status line, header lines
    and the blank line, the header map holds for every name the trimmed
    value of the last line whose trimmed name is that name byte for byte:
    names are compared exactly, not case-insensitively. Stored names and
    values carry no surrounding white space. The body is read when, and
    only when, a header spelled exactly Content-Length has a positive
    value. *)
Theorem C4_header_map_is_case_sensitive
        (status : str) (lines : list str) (rest : str) (e : error) :
  is_line status -> 2 <= length (Split (TrimSpace status) " ") ->
  Forall is_header_line lines ->
  contentLength lines <= length rest ->
  exists resp,
    parseResponse (mkReader (status ++ concat lines ++ CRLF ++ rest) e)
    = (Ok resp, mkReader (drop (contentLength lines) rest) e) /\
    (forall name, Headers resp !! name = headerValue name lines) /\
    (forall name v, Headers resp !! name = Some v ->
                    TrimSpace name = name /\ TrimSpace v = v) /\
    Body resp = take (contentLength lines) rest /\
    RawResponse resp = status ++ concat lines ++ CRLF ++ Body resp.
Proof.
  intros Hstatus Hparts Hlines Hrest. unfold parseResponse.
  rewrite (ReadString_line _ _ _ Hstatus).
  destruct (length (Split (TrimSpace status) " ") <? 2) eqn:E;
    [apply Nat.ltb_lt in E; lia|].
  rewrite (responseHeaders_block lines rest e Hlines).
  2: { simpl. rewrite !length_app. pose proof (length_concat_lines _ Hlines). lia. }
  assert (forall name, fold_left storeHeader lines ∅ !! name = headerValue name lines)
    as Hmap.
  { intros name. rewrite fold_storeHeader_lookup, lookup_empty.
    by destruct (headerValue name lines). }
  assert (responseBody (mkReader rest e) (fold_left storeHeader lines ∅)
          = (Ok (take (contentLength lines) rest),
             mkReader (drop (contentLength lines) rest) e)) as ->.
  { unfold responseBody, contentLength. rewrite Hmap.
    unfold contentLength in Hrest.
    destruct (headerValue "Content-Length" lines) as [cl|]; [|by rewrite drop_0].
    destruct (0 <? fst (Atoi cl))%Z; [|by rewrite drop_0].
    unfold ReadFull. simpl. apply Nat.leb_le in Hrest. by rewrite Hrest. }
  eexists. split; [reflexivity|]. simpl. split_and!; try done.
  - intros name v Hv. rewrite Hmap in Hv. by apply headerValue_trimmed in Hv.
  - by rewrite <- !app_assoc.
Qed.

Lemma C4_witness :
  exists resp,
    parseResponse (mkReader (replyLine ++ concat replyHeaders ++ CRLF ++ "hi!") io_EOF)
    = (Ok resp, mkReader (drop (contentLength replyHeaders) "hi!") io_EOF) /\
    (forall name, Headers resp !! name = headerValue name replyHeaders) /\
    (forall name v, Headers resp !! name = Some v ->
                    TrimSpace name = name /\ TrimSpace v = v) /\
    Body resp = take (contentLength replyHeaders) "hi!" /\
    RawResponse resp = replyLine ++ concat replyHeaders ++ CRLF ++ Body resp.
Proof.
  apply (C4_header_map_is_case_sensitive replyLine replyHeaders "hi!" io_EOF).
  - reflexivity.
  - vm_compute. lia.
  - repeat constructor; discriminate.
  - vm_compute. lia.
Defined.

(** C4 as stated fails on a response whose length header is written
    content-length: the lookup of Content-Length finds nothing and the
    body is left unread. *)
Lemma C4_counterexample :
  (exists resp,
     parseResponse (mkReader lowerCaseReply io_EOF) = (Ok resp, mkReader "hi" io_EOF) /\
     Headers resp !! ("content-length" : str) = Some ("2" : str) /\
     Headers resp !! ("Content-Length" : str) = None /\
     Body resp = []) /\
  ~ header_names_fold_case (mkReader lowerCaseReply io_EOF).
Proof.
  assert (exists resp,
            parseResponse (mkReader lowerCaseReply io_EOF) = (Ok resp, mkReader "hi" io_EOF) /\
            Headers resp !! ("content-length" : str) = Some ("2" : str) /\
            Headers resp !! ("Content-Length" : str) = None /\
            Body resp = []) as Hex by (eexists; by vm_compute).
  split; [exact Hex|].
  destruct Hex as (resp & Hp & Hlower & Hupper & _). intros Hclaim.
  specialize (Hclaim resp _ "content-length" "Content-Length" Hp eq_refl).
  congruence.
Qed.

Example headerValue_last_wins :
  headerValue "X-Trace" replyHeaders = Some ("c" : str) /\
  headerValue "x-trace" replyHeaders = Some ("b" : str) /\
  headerValue "X-TRACE" replyHeaders = None.
Proof. by vm_compute. Qed.

(** ** Split on a single byte *)

Lemma Split_colon_cons (c : ascii) (s : str) :
  Split (c :: s) ":" = if Ascii.eqb ":" c then [] :: Split s ":"
                       else consHead c (Split s ":").
Proof.
  unfold Split. change (list_ascii_of_string ":") with [":"%char].
  cbn [genSplit HasPrefix length Nat.sub fmap option_fmap option_map].
  assert (HasPrefix s [] = true) as -> by by destruct s.
  by rewrite andb_true_r.
Qed.

Lemma Split_colon_nil : Split [] ":" = [[]].
Proof. reflexivity. Qed.

Lemma Split_before_colon (a r : str) :
  ~ In ":"%char a -> Split (a ++ ":"%char :: r) ":" = a :: Split r ":".
Proof.
  induction a as [|c a IH]; intros Hno; simpl.
  - by rewrite Split_colon_cons.
  - rewrite Split_colon_cons.
    destruct (Ascii.eqb ":" c) eqn:E.
    + apply Ascii.eqb_eq in E. subst c. exfalso. apply Hno. by left.
    + rewrite IH; [done|]. intros Hin. apply Hno. by right.
Qed.

Lemma Split_colon_nonempty (s : str) : exists h t, Split s ":" = h :: t.
Proof.
  induction s as [|c s (h & t & IH)]; [by eexists _, _|].
  rewrite Split_colon_cons, IH. destruct (Ascii.eqb ":" c); by eexists _, _.
Qed.

(** A string with a colon splits at its first colon. *)
Lemma first_colon (s : str) :
  1 <= count_occ ascii_dec s ":"%char ->
  exists a r, s = a ++ ":"%char :: r /\ ~ In ":"%char a /\
              count_occ ascii_dec s ":"%char = S (count_occ ascii_dec r ":"%char).
Proof.
  induction s as [|c s IH]; simpl; [lia|].
  destruct (ascii_dec c ":") as [Heq|Hne].
  - intros _. subst c. exists [], s. split_and!; [done|by intros []|done].
  - intros Hc. destruct (IH Hc) as (a & r & Hs & Hno & Hcount).
    exists (c :: a), r. split_and!; [by rewrite Hs| |done].
    intros [->|Hin]; [done|]. by apply Hno.
Qed.

(** ** The Host header *)

Lemma cutLine_no_LF (s : str) : ~ In LF s -> is_line (s ++ [LF]).
Proof.
  unfold is_line. induction s as [|c s IH]; intros Hno; simpl; [done|].
  destruct (Ascii.eqb c LF) eqn:E.
  - apply Ascii.eqb_eq in E. subst c. exfalso. apply Hno. by left.
  - rewrite IH; [done|]. intros Hin. apply Hno. by right.
Qed.

Lemma TrimSpace_fixed (v : str) :
  TrimSpace v = v -> TrimLeft v = v /\ TrimRight v = v.
Proof.
  unfold TrimSpace. intros Hv.
  destruct (TrimLeft_split v) as (sp & Hl & _).
  destruct (TrimRight_split (TrimLeft v)) as (sp' & Hr & _).
  assert (sp = []) as ->.
  { apply (f_equal length) in Hl, Hr. rewrite Hv in Hr. rewrite length_app in Hl, Hr.
    destruct sp; [done|]. simpl in *. lia. }
  simpl in Hl. rewrite <- Hl in *. done.
Qed.

Lemma TrimSpace_padded (v : str) :
  TrimSpace v = v -> v <> [] -> TrimSpace (" "%char :: v ++ CRLF) = v.
Proof.
  intros Hv Hne. destruct (TrimSpace_fixed v Hv) as [Hl Hr].
  unfold TrimSpace. change (TrimLeft (" "%char :: v ++ CRLF)) with (TrimLeft (v ++ CRLF)).
  assert (TrimLeft (v ++ CRLF) = v ++ CRLF) as ->.
  { apply TrimLeft_fixed. pose proof (TrimLeft_head v) as Hhead. rewrite Hl in Hhead.
    by destruct v. }
  unfold TrimRight. rewrite rev_app_distr.
  change (TrimLeft (rev CRLF ++ rev v)) with (TrimLeft (rev v)).
  exact Hr.
Qed.

Lemma requestHeader_Host (value a b rest : str) (req : HTTPRequest) :
  value = a ++ ":" ++ b ++ ":" ++ rest -> ~ In ":"%char a -> ~ In ":"%char b ->
  Host (requestHeader "Host" value req) = a /\
  Port (requestHeader "Host" value req) = b.
Proof.
  intros -> Ha Hb. unfold requestHeader. rewrite bool_decide_eq_true_2 by done.
  change (a ++ ":" ++ b ++ ":" ++ rest) with (a ++ ":"%char :: (b ++ ":"%char :: rest)).
  rewrite (Split_before_colon a _ Ha), (Split_before_colon b _ Hb).
  destruct (Split_colon_nonempty rest) as (h & t & ->). done.
Qed.

(** C9. A request whose Host header has a value with two or more
    colons: parseRequest sets the host to the text before the first colon
    and the port to the text between the first and the second colon, as
    the Host case of its switch does on any request under construction.
    For the bracketed IPv6 literal [::1]:8080 the host is the single
    byte "[" and the port is empty. *)
Theorem C9_host_with_several_colons (first value body : str) (e : error) :
  is_line first -> 3 <= length (Split (TrimSpace first) " ") ->
  TrimSpace value = value -> ~ In LF value ->
  2 <= count_occ ascii_dec value ":"%char ->
  (exists req reader' a b rest,
     parseRequest (mkReader (first ++ "Host: " ++ value ++ CRLF ++ CRLF ++ body) e)
     = (Ok req, reader') /\
     value = a ++ ":" ++ b ++ ":" ++ rest /\
     ~ In ":"%char a /\ ~ In ":"%char b /\
     Host req = a /\ Port req = b /\
     (forall q, Host (requestHeader "Host" value q) = a /\
                Port (requestHeader "Host" value q) = b)) /\
  (exists req reader',
     parseRequest (mkReader ("GET / HTTP/1.1" ++ CRLF ++ "Host: [::1]:8080" ++ CRLF ++ CRLF)
                            io_EOF)
     = (Ok req, reader') /\
     Host req = "[" /\ Port req = []).
Proof.
  intros Hfirst Hparts Htrim HnoLF Hcolons. split; [|eexists _, _; by vm_compute].
  destruct (first_colon value) as (a & r & Hvalue & Ha & Hcount); [lia|].
  destruct (first_colon r) as (b & rest & Hr & Hb & _); [lia|].
  assert (value = a ++ ":" ++ b ++ ":" ++ rest) as Hshape by by rewrite Hvalue, Hr.
  assert (value <> []) as Hne by (intros ->; simpl in Hcolons; lia).
  set (line := "Host: " ++ value ++ CRLF).
  assert (is_line line) as Hline.
  { unfold line. replace ("Host: " ++ value ++ CRLF) with (("Host: " ++ value ++ [CR]) ++ [LF])
      by (by rewrite <- !app_assoc).
    apply cutLine_no_LF. rewrite !in_app_iff. simpl.
    intros [H|[H|H]]; [|done|]; vm_compute in H; intuition discriminate. }
  assert (line <> CRLF) as HneCRLF.
  { intros H. apply (f_equal length) in H. unfold line in H.
    rewrite !length_app in H. simpl in H. lia. }
  assert (SplitN line ":" 2 = ["Host" : str; " "%char :: value ++ CRLF]) as Hsplit
    by reflexivity.
  unfold parseRequest.
  replace (first ++ "Host: " ++ value ++ CRLF ++ CRLF ++ body)
    with (first ++ line ++ CRLF ++ body) by (unfold line; by rewrite <- !app_assoc).
  rewrite (ReadString_line _ _ _ Hfirst).
  destruct (length (Split (TrimSpace first) " ") <? 3) eqn:E;
    [apply Nat.ltb_lt in E; lia|].
  cbn [pending].
  destruct (length (line ++ CRLF ++ body)) as [|n] eqn:Hlen.
  { rewrite !length_app in Hlen. simpl in Hlen. lia. }
  rewrite requestHeaders_S, (ReadString_line _ _ _ Hline).
  rewrite (bool_decide_eq_false_2 _ HneCRLF), Hsplit.
  rewrite bool_decide_eq_false_2 by (simpl; lia).
  rewrite requestHeaders_S, (ReadString_line _ _ _ CRLF_is_line).
  rewrite bool_decide_eq_true_2 by done.
  eexists _, _, a, b, rest. split; [reflexivity|]. split_and!; try done.
  3: { intros q. by apply (requestHeader_Host value a b rest). }
  all: cbn [nth]; rewrite (TrimSpace_padded value Htrim Hne);
    change (TrimSpace "Host") with ("Host" : str);
    by apply (requestHeader_Host value a b rest).
Qed.

Lemma C9_witness :
  (exists req reader' a b rest,
     parseRequest (mkReader (("GET / HTTP/1.1" ++ CRLF) ++ "Host: " ++ "[::1]:8080"
                             ++ CRLF ++ CRLF ++ []) io_EOF)
     = (Ok req, reader') /\
     ("[::1]:8080" : str) = a ++ ":" ++ b ++ ":" ++ rest /\
     ~ In ":"%char a /\ ~ In ":"%char b /\
     Host req = a /\ Port req = b /\
     (forall q, Host (requestHeader "Host" "[::1]:8080" q) = a /\
                Port (requestHeader "Host" "[::1]:8080" q) = b)) /\
  (exists req reader',
     parseRequest (mkReader ("GET / HTTP/1.1" ++ CRLF ++ "Host: [::1]:8080" ++ CRLF ++ CRLF)
                            io_EOF)
     = (Ok req, reader') /\
     Host req = "[" /\ Port req = []).
Proof.
  apply (C9_host_with_several_colons ("GET / HTTP/1.1" ++ CRLF) "[::1]:8080" [] io_EOF).
  - reflexivity.
  - vm_compute. lia.
  - reflexivity.
  - vm_compute. intuition discriminate.
  - vm_compute. lia.
Defined.

(** ** Certificate generation *)

Lemma SetBytes_nonneg (b : str) : (0 <= SetBytes b)%Z.
Proof.
  unfold SetBytes.
  assert (forall acc, (0 <= acc)%Z ->
            (0 <= fold_left (fun acc c => acc * 256 + Z.of_N (N_of_ascii c)) b acc)%Z) as H.
  { induction b as [|c b IH]; intros acc Hacc; simpl; [done|]. apply IH. lia. }
  by apply H.
Qed.

Lemma SetBytes_acc (b : str) (acc : Z) :
  fold_left (fun acc c => (acc * 256 + Z.of_N (N_of_ascii c))%Z) b acc
  = (acc * 256 ^ Z.of_nat (length b) + SetBytes b)%Z.
Proof.
  unfold SetBytes. revert acc. induction b as [|c b IH]; intros acc.
  - simpl. lia.
  - cbn [fold_left length]. rewrite IH, (IH (0 * 256 + Z.of_N (N_of_ascii c))%Z).
    rewrite Nat2Z.inj_succ, Z.pow_succ_r by lia. lia.
Qed.

Lemma SetBytes_app (b1 b2 : str) :
  SetBytes (b1 ++ b2) = (SetBytes b1 * 256 ^ Z.of_nat (length b2) + SetBytes b2)%Z.
Proof. unfold SetBytes at 1. rewrite fold_left_app. apply SetBytes_acc. Qed.

Lemma byte_range (c : ascii) : (0 <= Z.of_N (N_of_ascii c) < 256)%Z.
Proof. pose proof (N_ascii_bounded c). lia. Qed.

Lemma SetBytes_bound (b : str) : (0 <= SetBytes b < 256 ^ Z.of_nat (length b))%Z.
Proof.
  induction b as [|c b IH] using rev_ind; [by vm_compute|].
  rewrite SetBytes_app, length_app. cbn [length]. pose proof (byte_range c) as Hc.
  replace (SetBytes [c]) with (Z.of_N (N_of_ascii c)) by (by vm_compute; lia).
  replace (Z.of_nat (length b + 1)) with (Z.succ (Z.of_nat (length b))) by lia.
  rewrite Z.pow_succ_r by lia. change (256 ^ Z.of_nat 1)%Z with 256%Z. lia.
Qed.

(** SetBytes reads its argument as a number in base 256, the first byte
    the most significant. *)
Lemma SetBytes_digit (b : str) (i : nat) (c : ascii) :
  b !! i = Some c ->
  ((SetBytes b / 256 ^ Z.of_nat (length b - 1 - i)) mod 256 = Z.of_N (N_of_ascii c))%Z.
Proof.
  intros Hi. apply list_elem_of_split_length in Hi as (b1 & b2 & -> & ->).
  rewrite length_app. cbn [length].
  replace (length b1 + S (length b2) - 1 - length b1) with (length b2) by lia.
  change (c :: b2) with ([c] ++ b2). rewrite app_assoc, SetBytes_app, SetBytes_app.
  pose proof (SetBytes_bound b2) as Hb2. pose proof (byte_range c) as Hc.
  replace (SetBytes [c]) with (Z.of_N (N_of_ascii c)) by (by vm_compute; lia).
  change (256 ^ Z.of_nat (length [c]))%Z with 256%Z.
  rewrite Z.div_add_l by lia. rewrite (Z.div_small (SetBytes b2)) by lia.
  rewrite Z.add_0_r, Z.add_comm, Z.mod_add by lia. apply Z.mod_small. lia.
Qed.

Lemma byte_zero (c : ascii) : Z.of_N (N_of_ascii c) = 0%Z <-> c = zero.
Proof.
  split; [|by intros ->]. intros Hc. rewrite <- (ascii_N_embedding c).
  replace (N_of_ascii c) with 0%N by lia. reflexivity.
Qed.

(** The number is positive unless every byte is zero. *)
Lemma SetBytes_pos (b : str) :
  (0 < SetBytes b)%Z <-> exists c, In c b /\ c <> zero.
Proof.
  induction b as [|c b IH] using rev_ind.
  - split; [by vm_compute|]. by intros (c & [] & _).
  - rewrite SetBytes_app. cbn [length].
    replace (SetBytes [c]) with (Z.of_N (N_of_ascii c)) by (by vm_compute; lia).
    change (256 ^ Z.of_nat 1)%Z with 256%Z.
    pose proof (SetBytes_bound b) as Hb. pose proof (byte_range c) as Hc.
    pose proof (byte_zero c) as Hz. split.
    + intros Hpos. destruct (decide (c = zero)) as [Hzero|Hnz].
      * destruct (proj1 IH) as (c' & Hin & Hc'); [apply Hz in Hzero; lia|].
        exists c'. split; [|done]. apply in_app_iff. by left.
      * exists c. split; [|done]. apply in_app_iff. right. by left.
    + intros (c' & [Hin|[<-|[]]]%in_app_iff & Hc').
      * assert (0 < SetBytes b)%Z by (apply IH; by exists c'). lia.
      * assert (Z.of_N (N_of_ascii c) <> 0)%Z by (by intros ?%Hz). lia.
Qed.

Lemma ASCII_is_valid_UTF8 (s : str) : isIA5String s = true -> utf8_ValidString s = true.
Proof.
  unfold isIA5String, utf8_ValidString. induction s as [|c s IH]; [done|].
  cbn [forallb validFrom]. intros [Hc Hs]%andb_prop. unfold isASCII in Hc.
  rewrite Hc. by apply IH.
Qed.

Lemma not_IA5_no_certificate w template parent pub priv :
  forallb isIA5String (DNSNames template) = false ->
  exists e, CreateCertificate w template parent pub priv = Err e.
Proof.
  intros Hnames. unfold CreateCertificate. rewrite Hnames.
  destruct (_ <? 0)%Z; [by eexists|].
  destruct (utf8_ValidString _); [|by eexists].
  destruct (_ =? _)%Z; by eexists.
Qed.

(** C7 (amended). Let key generation and signing succeed, the root's
    key pair match and the root be allowed to sign. For a domain whose
    clean part is ASCII, generateCertificate returns a chain of one leaf
    certificate with: NotBefore five minutes before and NotAfter two
    hours after the clock readings taken for them; the serial number the
    SHA-256 digest of the domain followed by the formatted time stamp,
    read as an unsigned integer in base 256 with the first byte the most
    significant, so it is not negative, below 256 to the length of the
    digest, has the bytes of the digest as its digits, and is positive
    unless every byte of the digest is zero; the clean domain as common
    name; the clean domain and its wildcard as the DNS
    names; key usage digitalSignature and keyEncipherment; extended key
    usage serverAuth; basic constraints present with CA false. The
    issuer is the root's subject, the signature is made with the root's
    private key and the leaf passes the signature check against the
    root. For a domain whose clean part holds a byte above 0x7f no
    certificate is made: x509.CreateCertificate returns an error. *)
Theorem C7_minted_leaf (w : World) (domain : str) (rootCA : tls_Certificate)
        (privateKey : PrivateKey) :
  rsa_GenerateKey w = Ok privateKey ->
  (forall c, exists signature, rsa_Sign w (Key rootCA) c = Ok signature) ->
  (forall c signature,
     rsa_Sign w (Key rootCA) c = Ok signature ->
     rsa_Verify w (CertPublicKey (Leaf rootCA)) c signature = true) ->
  may_sign (Leaf rootCA) = true ->
  rsa_Public w (Key rootCA) = CertPublicKey (Leaf rootCA) ->
  let cleanDomain := nth 0 (Split domain ":") [] in
  let digest := sha256_Sum w (domain ++ format_RFC3339Nano w (clock w 0)) in
  (isIA5String cleanDomain = true ->
   exists cert leaf,
     generateCertificate w domain rootCA = Ok cert /\
     Chain cert = [leaf] /\ Key cert = privateKey /\
     NotBefore leaf = (clock w 1 - 5 * Minute)%Z /\
     NotAfter leaf = (clock w 2 + 2 * Hour)%Z /\
     SerialNumber leaf = SetBytes digest /\
     (0 <= SerialNumber leaf < 256 ^ Z.of_nat (length digest))%Z /\
     (forall i c, digest !! i = Some c ->
        ((SerialNumber leaf / 256 ^ Z.of_nat (length digest - 1 - i)) mod 256
         = Z.of_N (N_of_ascii c))%Z) /\
     ((0 < SerialNumber leaf)%Z <-> exists c, In c digest /\ c <> zero) /\
     Subject_CommonName leaf = cleanDomain /\
     DNSNames leaf = [cleanDomain; "*." ++ cleanDomain] /\
     KeyUsage leaf = Z.lor KeyUsageDigitalSignature KeyUsageKeyEncipherment /\
     ExtKeyUsages leaf = [ExtKeyUsageServerAuth] /\
     BasicConstraintsValid leaf = true /\ IsCA leaf = false /\
     CertPublicKey leaf = rsa_Public w privateKey /\
     Issuer_CommonName leaf = Subject_CommonName (Leaf rootCA) /\
     rsa_Sign w (Key rootCA) (tbs leaf) = Ok (Signature leaf) /\
     CheckSignatureFrom w leaf (Leaf rootCA) = true) /\
  (isIA5String cleanDomain = false ->
   exists e, generateCertificate w domain rootCA = Err e).
Proof.
  intros Hkey Hsign Hpair Hca Hmatch cleanDomain digest.
  unfold generateCertificate. rewrite Hkey. fold cleanDomain. fold digest.
  split; intros Hascii.
  - unfold CreateCertificate.
    cbn [SerialNumber Subject_CommonName DNSNames NotBefore NotAfter KeyUsage
         ExtKeyUsages BasicConstraintsValid IsCA SubjectKeyId AuthorityKeyId].
    pose proof (SetBytes_bound digest) as Hserial.
    assert ((SetBytes digest <? 0)%Z = false) as -> by (apply Z.ltb_ge; lia).
    rewrite (ASCII_is_valid_UTF8 _ Hascii), Hmatch, Z.eqb_refl.
    assert (forallb isIA5String [cleanDomain; "*." ++ cleanDomain] = true) as ->.
    { cbn [forallb]. rewrite Hascii. unfold isIA5String in *.
      rewrite forallb_app, Hascii. reflexivity. }
    cbn [negb].
    match goal with |- context [rsa_Sign w (Key rootCA) ?c] =>
      destruct (Hsign c) as [signature Hsig]; rewrite Hsig;
      rewrite (Hpair c signature Hsig)
    end.
    cbn [negb]. eexists _, _. split; [reflexivity|].
    cbn [Chain Key NotBefore NotAfter SerialNumber Subject_CommonName DNSNames KeyUsage
         ExtKeyUsages BasicConstraintsValid IsCA CertPublicKey Issuer_CommonName
         Signature].
    split_and!; try done; try lia;
      try exact (proj1 Hserial); try exact (proj2 Hserial).
    + intros i c Hi. exact (SetBytes_digit digest i c Hi).
    + exact (SetBytes_pos digest).
    + unfold CheckSignatureFrom. rewrite Hca. by apply Hpair.
  - match goal with |- context [CreateCertificate w ?t ?p ?pub ?priv] =>
      destruct (not_IA5_no_certificate w t p pub priv) as [e ->]; [|by exists e]
    end.
    cbn [DNSNames forallb]. by rewrite Hascii.
Qed.

Lemma C7_witness :
  let cleanDomain := nth 0 (Split "api.test:443" ":") [] in
  let digest := sha256_Sum quiet ("api.test:443" ++ format_RFC3339Nano quiet (clock quiet 0)) in
  exists cert leaf,
    generateCertificate quiet "api.test:443" sampleRoot = Ok cert /\
    Chain cert = [leaf] /\ Key cert = 23%Z /\
    NotBefore leaf = (clock quiet 1 - 5 * Minute)%Z /\
    NotAfter leaf = (clock quiet 2 + 2 * Hour)%Z /\
    SerialNumber leaf = SetBytes digest /\
    (0 <= SerialNumber leaf < 256 ^ Z.of_nat (length digest))%Z /\
    (forall i c, digest !! i = Some c ->
       ((SerialNumber leaf / 256 ^ Z.of_nat (length digest - 1 - i)) mod 256
        = Z.of_N (N_of_ascii c))%Z) /\
    ((0 < SerialNumber leaf)%Z <-> exists c, In c digest /\ c <> zero) /\
    Subject_CommonName leaf = cleanDomain /\
    DNSNames leaf = [cleanDomain; "*." ++ cleanDomain] /\
    KeyUsage leaf = Z.lor KeyUsageDigitalSignature KeyUsageKeyEncipherment /\
    ExtKeyUsages leaf = [ExtKeyUsageServerAuth] /\
    BasicConstraintsValid leaf = true /\ IsCA leaf = false /\
    CertPublicKey leaf = rsa_Public quiet 23%Z /\
    Issuer_CommonName leaf = Subject_CommonName (Leaf sampleRoot) /\
    rsa_Sign quiet (Key sampleRoot) (tbs leaf) = Ok (Signature leaf) /\
    CheckSignatureFrom quiet leaf (Leaf sampleRoot) = true.
Proof.
  refine (proj1 (C7_minted_leaf quiet "api.test:443" sampleRoot 23%Z _ _ _ _ _) _).
  - reflexivity.
  - intros c. eexists. reflexivity.
  - intros c signature Hs. injection Hs as <-. by apply bool_decide_eq_true_2.
  - reflexivity.
  - reflexivity.
  - reflexivity.
Defined.

(** C7 as stated fails for a domain that is not ASCII: in a world where
    api.test gets its certificate, the target of a CONNECT to a host
    with an accented letter gets none, since x509.CreateCertificate
    refuses DNS names that are not IA5 strings; the CONNECT flow ends
    after the 200 line. *)
Lemma C7_counterexample :
  (exists cert, generateCertificate quiet "api.test:443" sampleRoot = Ok cert) /\
  generateCertificate quiet accentedTarget sampleRoot
  = Err (errorString "x509: name cannot be encoded as an IA5String") /\
  ~ every_domain_is_minted quiet sampleRoot.
Proof.
  assert (generateCertificate quiet accentedTarget sampleRoot
          = Err (errorString "x509: name cannot be encoded as an IA5String")) as Herr
    by (by vm_compute).
  split_and!; [eexists; by vm_compute|done|].
  intros Hclaim. destruct (Hclaim accentedTarget) as (cert & leaf & Hok & _). congruence.
Qed.

Example minted_names :
  match generateCertificate quiet "api.test:443" sampleRoot with
  | Ok cert => List.map DNSNames (Chain cert) = [["api.test" : str; "*.api.test" : str]]
  | Err _ => False
  end.
Proof. by vm_compute. Qed.

(** ** The scenarios of the specification, run *)

(** Scenario 3: a blocked CONNECT is answered with the 403 page and
    nothing is dialled. *)
Example blocked_connect_trace :
  handleConnection (with_client (mkReader blockedConnect io_EOF) blockWorld)
  = [SetDeadline Client (30 * Second); OsOpen "blocked";
     Printf ("target: ads.test, unwanted ads.test" ++ [LF]);
     Log WARN "Blocked host accessed"; FileClose;
     ConnWrite Client (forbiddenResponse "ads.test");
     ConnClose Client; ConnClose Client].
Proof. by vm_compute. Qed.

(** Scenario 6: a malformed CONNECT is logged and the connection closed,
    with no origin activity. *)
Example malformed_connect_trace :
  handleConnection (with_client (mkReader ("CONNECT" ++ CRLF ++ CRLF) io_EOF) quiet)
  = [SetDeadline Client (30 * Second);
     Log ERROR "Failed to process CONNECT request"; ConnClose Client; ConnClose Client].
Proof. by vm_compute. Qed.

(** Scenario 2: a CONNECT that reaches the tunnel, under one schedule. *)
Example tunnel_trace :
  handleConnection tunnelWorld
  = [SetDeadline Client (30 * Second); OsOpen "blocked"; FileClose;
     ConnWrite Client ConnectionEstablished; LoadRoot; TLSHandshake;
     TLSDial "api.test:443";
     ConnWrite OriginTLS ("GET / HTTP/1.1" ++ CRLF ++ CRLF);
     ConnWrite ClientTLS ("HTTP/1.1 200 OK" ++ CRLF ++ CRLF);
     ConnWrite ClientTLS "he"; ConnClose OriginTLS; Done;
     ConnWrite ClientTLS "llo"; Log INFO "Full response"; ConnClose ClientTLS; Done;
     WaitReturns; ConnClose OriginTLS; ConnClose Client; ConnClose Client].
Proof. by vm_compute. Qed.

(** * Further properties of the code *)

(** ** The blocklist *)

Lemma checkLines_found_inv w host lines :
  snd (checkLines w host lines) = true ->
  exists H, In H (hostsOf lines) /\ EqualFold w host H = true.
Proof.
  unfold hostsOf.
  induction lines as [|text lines IH]; simpl; [done|].
  case_bool_decide as Hempty; simpl; [done|].
  destruct (EqualFold w host (TrimSpace text)) eqn:E.
  - intros _. exists (TrimSpace text). split; [by left|done].
  - destruct (checkLines w host lines) as [es found]. simpl in *.
    intros Hfound. destruct (IH Hfound) as (H & Hin & Hfold).
    exists H. split; [by right|done].
Qed.

Lemma checkAndBlockHost_listed w domain :
  snd (checkAndBlockHost w domain) = true ->
  exists H, In H (scannedHosts w) /\ EqualFold w domain H = true.
Proof.
  unfold scannedHosts, checkAndBlockHost, checkHost.
  destruct (blocked_file w) as [file|]; [|done].
  destruct (Scan file) as [lines scanErr]. simpl.
  pose proof (checkLines_found_inv w domain lines) as Hinv.
  destruct (checkLines w domain lines) as [es found]. simpl in *.
  destruct found; [intros _; by apply Hinv|].
  by destruct scanErr.
Qed.

Lemma checkAndBlockHost_unlisted w domain :
  (forall H, In H (scannedHosts w) -> EqualFold w domain H = false) ->
  snd (checkAndBlockHost w domain) = false.
Proof.
  intros Hnone. destruct (snd (checkAndBlockHost w domain)) eqn:E; [|done].
  apply checkAndBlockHost_listed in E as (H & Hin & Hfold).
  by rewrite (Hnone H Hin) in Hfold.
Qed.

(** X1. checkAndBlockHost answers "blocked" exactly when strings.EqualFold
    equates the domain with some host the scanner delivers from the
    blocklist file. A file that cannot be opened, and the lines from one
    too long to scan onwards, block nothing. *)
Theorem X1_blocked_iff_listed (w : World) (domain : str) :
  snd (checkAndBlockHost w domain) = true <->
  exists H, In H (scannedHosts w) /\ EqualFold w domain H = true.
Proof.
  split; [apply checkAndBlockHost_listed|].
  intros (H & Hin & Hfold); by eapply checkAndBlockHost_blocked.
Qed.

(** ** What reaches the client socket *)

Lemma writes_only_other c c' t :
  c <> c' -> Forall (writes_only c) t -> writes_to c' t = [].
Proof.
  intros Hne Hall. apply writes_to_none. eapply Forall_impl; [exact Hall|].
  intros e [Hs|[data ->]]; [by destruct e|]. simpl.
  destruct (conn_eqb c c') eqn:E; [|done]. by apply conn_eqb_eq in E.
Qed.

Lemma forwardServerResponse_writes w :
  Forall (writes_only ClientTLS) (forwardServerResponse w).
Proof.
  unfold forwardServerResponse. destruct (origin_tls w) as [chunks closing].
  destruct (fst (readServerResponse _)) as [headers|e];
    [|repeat constructor; by left].
  constructor; [right; by eexists|].
  destruct (write_ok w ClientTLS 0); simpl; [|repeat constructor; by left].
  pose proof (ioCopy_writes w ClientTLS 1 (dropBytes (length headers) chunks) closing) as Hw.
  destruct (ioCopy _ _ _ _ _) as [es err]. simpl in *.
  rewrite !Forall_app. split_and!.
  - eapply Forall_impl; [exact Hw|]. intros e He. by right.
  - destruct err; repeat constructor; by left.
  - repeat constructor; by left.
Qed.

Lemma writes_to_merge_left c sched a b :
  Forall (fun e => is_write c e = false) b ->
  writes_to c (merge sched a b) = writes_to c a.
Proof.
  intros Hb. revert a b Hb.
  induction sched as [|[] sched IH]; intros a b Hb; simpl.
  - by rewrite writes_to_app, (writes_to_none c b Hb), app_nil_r.
  - destruct a as [|x a]; [by apply writes_to_none|].
    destruct x; simpl; rewrite ?IH by done; done.
  - destruct b as [|y b]; [done|]. inversion Hb as [|? ? Hy Hb']; subst.
    destruct y; simpl in *; rewrite ?Hy, ?IH by done; done.
Qed.

Lemma writes_to_merge_right c sched a b :
  Forall (fun e => is_write c e = false) a ->
  writes_to c (merge sched a b) = writes_to c b.
Proof.
  intros Ha. revert a b Ha.
  induction sched as [|[] sched IH]; intros a b Ha; simpl.
  - by rewrite writes_to_app, (writes_to_none c a Ha).
  - destruct a as [|x a]; [done|]. inversion Ha as [|? ? Hx Ha']; subst.
    destruct x; simpl in *; rewrite ?Hx, ?IH by done; done.
  - destruct b as [|y b]; [by apply writes_to_none|].
    destruct y; simpl; rewrite ?IH by done; done.
Qed.

Lemma writes_only_not c c' t :
  c <> c' -> Forall (writes_only c) t -> Forall (fun e => is_write c' e = false) t.
Proof.
  intros Hne Hall. eapply Forall_impl; [exact Hall|].
  intros e [Hs|[data ->]]; [by destruct e|]. simpl.
  destruct (conn_eqb c c') eqn:E; [|done]. by apply conn_eqb_eq in E.
Qed.

Lemma clientToServer_writes w :
  Forall (fun e => is_write ClientTLS e = false) (clientToServer w) /\
  Forall (fun e => is_write Client e = false) (clientToServer w) /\
  writes_to OriginTLS (clientToServer w)
  = writes_to OriginTLS (fst (ioCopy w OriginTLS 0 (fst (client_tls w)) (snd (client_tls w)))).
Proof.
  unfold clientToServer.
  pose proof (ioCopy_writes w OriginTLS 0 (fst (client_tls w)) (snd (client_tls w))) as Hw.
  assert (Forall (writes_only OriginTLS)
            (fst (ioCopy w OriginTLS 0 (fst (client_tls w)) (snd (client_tls w)))))
    as Honly by (eapply Forall_impl; [exact Hw|]; intros e He; by right).
  split_and!.
  - apply Forall_app. split; [|by repeat constructor].
    by apply (writes_only_not OriginTLS ClientTLS).
  - apply Forall_app. split; [|by repeat constructor].
    by apply (writes_only_not OriginTLS Client).
  - by rewrite writes_to_app, app_nil_r.
Qed.

Lemma serverToClient_writes w :
  Forall (fun e => is_write OriginTLS e = false) (serverToClient w) /\
  Forall (fun e => is_write Client e = false) (serverToClient w) /\
  writes_to ClientTLS (serverToClient w) = writes_to ClientTLS (forwardServerResponse w).
Proof.
  unfold serverToClient. pose proof (forwardServerResponse_writes w) as Honly.
  split_and!.
  - apply Forall_app. split; [|by repeat constructor].
    by apply (writes_only_not ClientTLS OriginTLS).
  - apply Forall_app. split; [|by repeat constructor].
    by apply (writes_only_not ClientTLS Client).
  - by rewrite writes_to_app, app_nil_r.
Qed.

Lemma tunnelConnections_client_writes w : writes_to Client (tunnelConnections w) = [].
Proof.
  unfold tunnelConnections.
  destruct (clientToServer_writes w) as (_ & Hc & _).
  destruct (serverToClient_writes w) as (_ & Hs & _).
  rewrite writes_to_app, (writes_to_merge_left _ _ _ _ Hs), (writes_to_none _ _ Hc). done.
Qed.

Lemma handleHTTP_client_writes w reader :
  writes_to Client (fst (handleHTTP w reader)) = plainClientWrites w reader.
Proof.
  unfold handleHTTP, plainClientWrites.
  destruct (parseRequest reader) as [[req|e] reader']; simpl; [|done].
  destruct (checkAndBlockHost_shape w (Host req)) as (es & Hes & _ & Hwc & _).
  destruct (checkAndBlockHost w (Host req)) as [es0 shouldBlock]. simpl in *. subst es0.
  simpl. rewrite !writes_to_app, Hwc.
  destruct shouldBlock; simpl; [done|].
  destruct (dial_ok w (JoinHostPort (Host req) (Port req))); simpl; [|done].
  rewrite writes_to_app. destruct (write_ok w Origin 0); simpl; [|done].
  unfold forwardResponse. destruct (fst (parseResponse (origin w))); simpl; [|done].
  by destruct (write_ok w Client 0).
Qed.

Lemma establishMITMTunnel_client_writes w target domain :
  writes_to Client (fst (establishMITMTunnel w target domain)) = [ConnectionEstablished].
Proof.
  pose proof (establishMITMTunnel_cases w target domain) as Hm.
  destruct (establishMITMTunnel w target domain) as [mitm err]. simpl.
  destruct Hm as [(_ & [-> | [-> | ->]]) | [(_ & _ & ->) | (_ & _ & ->)]]; try done.
  simpl. by rewrite !writes_to_app, tunnelConnections_client_writes.
Qed.

Lemma handleHTTPS_client_writes w reader :
  writes_to Client (handleHTTPS w reader) = connectClientWrites w reader.
Proof.
  unfold connectClientWrites.
  destruct (handleHTTPS_cases w reader) as
    [(e & -> & ->)|(target & domain & es & -> & _ & _ & [(-> & Hw & ->)|(-> & Hw & ->)])];
    [done| |].
  - simpl. by rewrite writes_to_app, Hw.
  - simpl. rewrite !writes_to_app, Hw, establishMITMTunnel_client_writes.
    by destruct (snd (establishMITMTunnel w target domain)).
Qed.

(** X2. A request whose host strings.EqualFold equates with none of the
    hosts the scanner delivers from the blocklist file is served. On the
    plaintext path the origin
    [host:port] is dialled and the only bytes the client can receive are
    the raw bytes of the origin's parsed response. On the CONNECT path
    the one thing written to the client socket is the 200 line. This
    includes every request made while the blocklist file cannot be
    opened. *)
Theorem X2_unlisted_host_is_served (w : World) (host : str) :
  (forall H, In H (scannedHosts w) -> EqualFold w host H = false) ->
  (forall reader req,
     fst (parseRequest reader) = Ok req -> Host req = host ->
     In (NetDial (JoinHostPort host (Port req))) (fst (handleHTTP w reader)) /\
     forall data,
       In (ConnWrite Client data) (fst (handleHTTP w reader)) ->
       exists resp, fst (parseResponse (origin w)) = Ok resp /\ data = RawResponse resp) /\
  (forall reader target,
     fst (processConnectRequest reader) = Ok (target, host) ->
     writes_to Client (handleHTTPS w reader) = [ConnectionEstablished]).
Proof.
  intros Hnone.
  pose proof (checkAndBlockHost_unlisted w host Hnone) as Hpass.
  split.
  - intros reader req Hreq <-. split.
    + destruct (handleHTTP_cases w reader) as
        [(e & He & _)|(req' & es & Hreq' & _ & _ & Hcases)]; [congruence|].
      assert (req' = req) as -> by congruence.
      destruct Hcases as [(Hb & _)|[(_ & _ & _ & ->)|(_ & _ & _ & reply & _ & _ & ->)]];
        [congruence|..]; right; right; apply in_or_app; right; right; by left.
    + intros data Hin. apply writes_to_In in Hin.
      rewrite handleHTTP_client_writes in Hin. unfold plainClientWrites in Hin.
      rewrite Hreq, Hpass in Hin.
      destruct (_ && _); [|done].
      destruct (fst (parseResponse (origin w))) as [resp|]; [|done].
      destruct Hin as [<-|[]]. by exists resp.
  - intros reader target Hreq.
    rewrite handleHTTPS_client_writes. unfold connectClientWrites.
    by rewrite Hreq, Hpass.
Qed.

Lemma X2_witness :
  (In (NetDial (JoinHostPort "open.test" (Port openReq)))
      (fst (handleHTTP blockWorld (mkReader openGet io_EOF))) /\
   forall data,
     In (ConnWrite Client data) (fst (handleHTTP blockWorld (mkReader openGet io_EOF))) ->
     exists resp, fst (parseResponse (origin blockWorld)) = Ok resp /\
                  data = RawResponse resp) /\
  writes_to Client (handleHTTPS blockWorld (mkReader openConnect io_EOF))
  = [ConnectionEstablished].
Proof.
  pose proof (X2_unlisted_host_is_served blockWorld "open.test") as [Hplain Hconnect].
  - intros H Hin. vm_compute in Hin. destruct Hin as [<-|[<-|[]]]; reflexivity.
  - split.
    + apply (Hplain (mkReader openGet io_EOF) openReq); reflexivity.
    + apply (Hconnect (mkReader openConnect io_EOF) "open.test:443"). reflexivity.
Defined.

(** X3. The raw client socket is written to at most once per
    connection, whatever the path: the 403 page for a blocked host, or
    the raw bytes of the origin's response on the plaintext path, or the
    200 line on the CONNECT path. Everything else a client of a tunnel
    receives goes through the TLS endpoint. *)
Theorem X3_client_socket_written_once (w : World) (reader : Reader) :
  writes_to Client (fst (handleHTTP w reader)) = plainClientWrites w reader /\
  writes_to Client (handleHTTPS w reader) = connectClientWrites w reader /\
  length (writes_to Client (handleConnection w)) <= 1.
Proof.
  split_and!; [apply handleHTTP_client_writes|apply handleHTTPS_client_writes|].
  destruct (handleConnection_cases w) as [[_ ->]|[[_ ->]|[_ ->]]]; simpl; [lia|..];
    rewrite writes_to_app, app_nil_r.
  - rewrite handleHTTPS_client_writes. unfold connectClientWrites.
    destruct (fst (processConnectRequest _)) as [[target domain]|]; [|simpl; lia].
    destruct (snd (checkAndBlockHost w domain)); simpl; lia.
  - rewrite handleHTTP_client_writes. unfold plainClientWrites.
    destruct (fst (parseRequest _)) as [req|]; [|simpl; lia].
    destruct (snd (checkAndBlockHost w (Host req))); [simpl; lia|].
    destruct (_ && _); [|simpl; lia].
    destruct (fst (parseResponse (origin w))); simpl; lia.
Qed.

(** ** The CONNECT request *)

Lemma Contains_colon (s : str) : Contains s ":" = true <-> In ":"%char s.
Proof.
  change (list_ascii_of_string ":") with [":"%char].
  induction s as [|c s IH]; [by split|].
  change (Contains (c :: s) [":"%char])
    with ((Ascii.eqb ":" c && HasPrefix s []) || Contains s [":"%char]).
  assert (HasPrefix s [] = true) as -> by by destruct s.
  rewrite andb_true_r. simpl In.
  destruct (Ascii.eqb_spec ":" c) as [<-|Hne]; simpl.
  - split; [by left|done].
  - rewrite IH. split; [by right|]. by intros [?|?].
Qed.

Lemma Split_first_piece (a r : str) :
  ~ In ":"%char a -> nth 0 (Split (a ++ ":"%char :: r) ":") [] = a.
Proof. intros Ha. by rewrite Split_before_colon. Qed.

Lemma In_first_colon (s : str) :
  In ":"%char s -> exists a r, s = a ++ ":"%char :: r /\ ~ In ":"%char a.
Proof.
  intros Hin. apply (count_occ_In ascii_dec) in Hin.
  destruct (first_colon s) as (a & r & -> & Ha & _); [lia|]. by exists a, r.
Qed.

(** X4. Whenever processConnectRequest succeeds, the target it returns
    is the domain it returns, a colon and a port part, and the domain
    holds no colon: a requested authority without a colon is given the
    port 443, and one with a colon is dialled as requested while the
    domain is what stands before its first colon. *)
Theorem X4_connect_target (reader reader' : Reader) (target domain : str) :
  processConnectRequest reader = (Ok (target, domain), reader') ->
  ~ In ":"%char domain /\
  (exists port, target = domain ++ ":" ++ port) /\
  exists requested,
    readConnectRequest reader = (Ok requested, reader') /\
    (~ In ":"%char requested -> target = requested ++ ":443" /\ domain = requested) /\
    (In ":"%char requested -> target = requested).
Proof.
  unfold processConnectRequest.
  destruct (readConnectRequest reader) as [[requested|e] rd]; [|done].
  destruct (Contains requested ":") eqn:E; simpl; intros ?; simplify_eq.
  - apply Contains_colon in E. destruct (In_first_colon _ E) as (a & r & -> & Ha).
    rewrite Split_first_piece by done.
    split_and!; [done|by exists r|].
    eexists. split_and!; [done| |done]. intros Hno. by destruct Hno.
  - assert (~ In ":"%char requested) as Hno.
    { intros Hin. apply Contains_colon in Hin. congruence. }
    change (requested ++ list_ascii_of_string ":443")
      with (requested ++ ":"%char :: list_ascii_of_string "443").
    rewrite Split_first_piece by done.
    split_and!; [done|by exists (list_ascii_of_string "443")|].
    eexists. split_and!; [done|done|]. intros Hin. by destruct Hno.
Qed.

Lemma X4_witness :
  ~ In ":"%char ("open.test" : str) /\
  (exists port, ("open.test:443" : str) = "open.test" ++ ":" ++ port) /\
  exists requested,
    readConnectRequest (mkReader openConnect io_EOF) = (Ok requested, mkReader [] io_EOF) /\
    (~ In ":"%char requested ->
     ("open.test:443" : str) = requested ++ ":443" /\ ("open.test" : str) = requested) /\
    (In ":"%char requested -> ("open.test:443" : str) = requested).
Proof.
  apply (X4_connect_target (mkReader openConnect io_EOF)). reflexivity.
Defined.

Lemma connectLines_no_blank (lines : list str) (tail : str) (e : error) :
  Forall is_header_line lines -> cutLine tail = None ->
  forall fuel request, length lines < fuel ->
    connectLines fuel (mkReader (concat lines ++ tail) e) request
    = (Err e, mkReader [] e).
Proof.
  intros Hlines Htail.
  induction Hlines as [|h hs [Hh Hne] _ IH]; intros [|fuel] request Hlt;
    simpl in Hlt; try lia.
  - simpl. unfold ReadString. simpl. by rewrite Htail.
  - simpl concat. rewrite <- app_assoc. cbn [connectLines].
    rewrite (ReadString_line _ _ _ Hh). rewrite (bool_decide_eq_false_2 _ Hne).
    apply IH. lia.
Qed.

(** X5. A CONNECT request whose stream ends before a blank line is
    refused whatever the reason the stream ended, an orderly shutdown
    included: readConnectRequest returns the read error with every byte
    consumed, and handleHTTPS logs, writes nothing to the client and
    closes the socket. *)
Theorem X5_connect_needs_blank_line
        (w : World) (lines : list str) (tail : str) (e : error) :
  Forall is_header_line lines -> cutLine tail = None ->
  let reader := mkReader (concat lines ++ tail) e in
  readConnectRequest reader = (Err e, mkReader [] e) /\
  handleHTTPS w reader
  = [Log ERROR "Failed to process CONNECT request"; ConnClose Client].
Proof.
  intros Hlines Htail reader.
  assert (readConnectRequest reader = (Err e, mkReader [] e)) as Hread.
  { unfold readConnectRequest. rewrite (connectLines_no_blank lines tail e); [done..|].
    simpl. rewrite length_app. pose proof (length_concat_lines _ Hlines). lia. }
  split; [done|].
  unfold handleHTTPS, processConnectRequest. by rewrite Hread.
Qed.

Lemma X5_witness :
  let reader := mkReader (concat (fst cutConnect) ++ snd cutConnect) io_EOF in
  readConnectRequest reader = (Err io_EOF, mkReader [] io_EOF) /\
  handleHTTPS quiet reader
  = [Log ERROR "Failed to process CONNECT request"; ConnClose Client].
Proof.
  apply (X5_connect_needs_blank_line quiet (fst cutConnect) (snd cutConnect) io_EOF).
  - repeat constructor; by vm_compute.
  - reflexivity.
Defined.

(** ** The outcomes of parseRequest *)

Lemma requestHeaders_error fuel reader req raw e reader' :
  requestHeaders fuel reader req raw = (Err e, reader') ->
  length (pending reader) < fuel ->
  e = closing reader /\ is_EOF e = false.
Proof.
  revert reader req raw.
  induction fuel as [|fuel IH]; intros reader req raw; [simpl; lia|].
  rewrite requestHeaders_S. unfold ReadString.
  destruct (cutLine (pending reader)) as [[line rest]|] eqn:E.
  - apply cutLine_shorter in E.
    case_bool_decide; [done|].
    case_bool_decide; intros Hrec Hlt; apply IH in Hrec; simpl in *; try done; lia.
  - destruct (is_EOF (closing reader)) eqn:Heof; [done|].
    intros ? _; by simplify_eq.
Qed.

Lemma requestHeaders_EOF fuel reader req raw :
  closing reader = io_EOF -> length (pending reader) < fuel ->
  exists out, fst (requestHeaders fuel reader req raw) = Ok out.
Proof.
  intros Heof Hlt.
  destruct (requestHeaders fuel reader req raw) as [[out|e] rd] eqn:E; [by exists out|].
  apply requestHeaders_error in E as [-> Hno]; [|done]. by rewrite Heof in Hno.
Qed.

(** X6. parseRequest fails in two ways only: with the error of the
    stream, or with "malformed request line". When the stream ends by
    an orderly shutdown, it succeeds exactly when the first line is
    complete and has three space-separated parts: a header block cut
    short by the end of the stream is accepted. *)
Theorem X6_parseRequest_outcome (reader : Reader) :
  (forall e, fst (parseRequest reader) = Err e ->
     e = closing reader \/ e = errorString "malformed request line") /\
  (closing reader = io_EOF ->
   ((exists req, fst (parseRequest reader) = Ok req) <->
    exists line rest, cutLine (pending reader) = Some (line, rest) /\
                      3 <= length (Split (TrimSpace line) " "))).
Proof.
  unfold parseRequest, ReadString.
  destruct (cutLine (pending reader)) as [[line rest]|] eqn:E; cbn [fst].
  2: { split; [intros e ?; simplify_eq; by left|].
       intros _. split; [by intros [req ?]|by intros (? & ? & ? & _)]. }
  destruct (_ <? 3) eqn:Hparts; cbn [fst].
  { apply Nat.ltb_lt in Hparts. split; [intros e ?; simplify_eq; by right|].
    intros _. split; [by intros [req ?]|].
    intros (? & ? & ? & ?); simplify_eq. lia. }
  apply Nat.ltb_ge in Hparts.
  match goal with |- context [requestHeaders ?f ?r ?q ?raw] =>
    pose proof (requestHeaders_error f r q raw) as Herr;
    pose proof (requestHeaders_EOF f r q raw) as Heof;
    destruct (requestHeaders f r q raw) as [[[q' raw']|err] rd]
  end; cbn [fst] in *.
  - split; [done|]. intros _. split; [|by eexists]. intros _. by exists line, rest.
  - split.
    + intros e ?; simplify_eq. left. by apply (Herr e rd); [|simpl; lia].
    + intros Hc. destruct (Heof Hc) as [out ?]; [simpl; lia|done].
Qed.

(** ** A request without a Host header *)

Lemma requestHeader_other key value req :
  key <> ("Host" : str) ->
  Host (requestHeader key value req) = Host req /\
  Port (requestHeader key value req) = Port req.
Proof.
  intros Hne. unfold requestHeader. rewrite (bool_decide_eq_false_2 _ Hne).
  by repeat case_bool_decide.
Qed.

Lemma length_two {A} (l : list A) (d : A) : length l = 2 -> l = [nth 0 l d; nth 1 l d].
Proof. by destruct l as [|? [|? [|? ?]]]. Qed.

Lemma headerValue_None_cons name line lines :
  headerValue name (line :: lines) = None ->
  headerValue name lines = None /\
  (length (SplitN line ":" 2) = 2 -> TrimSpace (nth 0 (SplitN line ":" 2) []) <> name).
Proof.
  simpl. destruct (headerValue name lines); [done|]. intros Hnone. split; [done|].
  intros Hlen Hname. rewrite (length_two _ [] Hlen) in Hnone.
  by rewrite bool_decide_eq_true_2 in Hnone.
Qed.

Lemma requestHeaders_block_no_Host (headers : list str) (body : str) (e : error) :
  Forall is_header_line headers -> headerValue "Host" headers = None ->
  forall fuel req raw, length headers < fuel ->
  exists req',
    requestHeaders fuel (mkReader (concat headers ++ CRLF ++ body) e) req raw
    = (Ok (req', raw ++ concat headers ++ CRLF), mkReader body e) /\
    Host req' = Host req /\ Port req' = Port req.
Proof.
  induction 1 as [|h hs [Hh Hne] _ IH]; intros Hnone [|fuel] req raw Hlt;
    simpl in Hlt; try lia.
  - rewrite requestHeaders_S. change (concat [] ++ CRLF ++ body) with (CRLF ++ body).
    rewrite (ReadString_line _ _ _ CRLF_is_line). rewrite bool_decide_eq_true_2 by done.
    by eexists.
  - apply headerValue_None_cons in Hnone as [Hrest Hkey].
    rewrite requestHeaders_S. simpl concat. rewrite <- app_assoc.
    rewrite (ReadString_line _ _ _ Hh). rewrite (bool_decide_eq_false_2 _ Hne).
    case_bool_decide as Hlen.
    + destruct (IH Hrest fuel req (raw ++ h)) as (req' & -> & ? & ?); [lia|].
      exists req'. by rewrite <- !app_assoc.
    + assert (length (SplitN h ":" 2) = 2) as Hlen'.
      { lia. }
      destruct (requestHeader_other (TrimSpace (nth 0 (SplitN h ":" 2) []))
                  (TrimSpace (nth 1 (SplitN h ":" 2) [])) req (Hkey Hlen')) as [HH HP].
      destruct (IH Hrest fuel (requestHeader (TrimSpace (nth 0 (SplitN h ":" 2) []))
                                       (TrimSpace (nth 1 (SplitN h ":" 2) [])) req)
                  (raw ++ h)) as (req' & -> & ? & ?); [lia|].
      exists req'. rewrite <- !app_assoc. split_and!; [done|congruence..].
Qed.

Lemma scannedHosts_nonempty w H : In H (scannedHosts w) -> H <> [].
Proof.
  unfold scannedHosts, hostsOf. destruct (blocked_file w); [|done].
  intros Hin%List.filter_In. destruct Hin as [_ Hne]. by case_bool_decide.
Qed.

(** X7. A request in which no header line carries the name Host, spelled
    exactly so, keeps the empty host and the default port 80. The empty
    host equals no entry of the blocklist, so the request is never
    blocked, and the address handed to net.Dial is ":80". A Host header
    written "host:" is such a request, whatever host it names. *)
Theorem X7_request_without_Host
        (w : World) (first : str) (headers : list str) (body : str) (e : error) :
  is_line first -> 3 <= length (Split (TrimSpace first) " ") ->
  Forall is_header_line headers ->
  headerValue "Host" headers = None ->
  let reader := mkReader (first ++ concat headers ++ CRLF ++ body) e in
  exists req,
    fst (parseRequest reader) = Ok req /\ Host req = [] /\ Port req = "80" /\
    snd (checkAndBlockHost w (Host req)) = false /\
    In (NetDial ":80") (fst (handleHTTP w reader)).
Proof.
  intros Hfirst Hparts Hheaders Hnone reader.
  assert (exists req, fst (parseRequest reader) = Ok req /\ Host req = [] /\
                      Port req = "80") as (req & Hreq & HH & HP).
  { unfold reader, parseRequest. rewrite (ReadString_line _ _ _ Hfirst).
    destruct (_ <? 3) eqn:E; [apply Nat.ltb_lt in E; lia|].
    match goal with |- context [requestHeaders ?f ?r ?q ?raw] =>
      destruct (requestHeaders_block_no_Host headers body e Hheaders Hnone f q raw)
        as (req' & -> & HH & HP)
    end.
    - simpl. rewrite !length_app. pose proof (length_concat_lines _ Hheaders). lia.
    - eexists. split; [reflexivity|]. simpl. by rewrite HH, HP. }
  assert (snd (checkAndBlockHost w []) = false) as Hpass.
  { apply checkAndBlockHost_unlisted. intros H Hin%scannedHosts_nonempty.
    by destruct H. }
  exists req. rewrite HH. split_and!; try done.
  - destruct (handleHTTP_cases w reader) as
      [(e' & He & _)|(req' & es & Hreq' & _ & _ & Hcases)]; [congruence|].
    assert (req' = req) as -> by congruence. rewrite HH, HP in Hcases.
    destruct Hcases as [(Hb & _)|[(_ & _ & _ & ->)|(_ & _ & _ & reply & _ & _ & ->)]];
      [congruence|..]; right; right; apply in_or_app; right; right; by left.
Qed.

Lemma X7_witness :
  let reader :=
    mkReader (lowerHostLine ++ concat lowerHostHeaders ++ CRLF ++ []) io_EOF in
  exists req,
    fst (parseRequest reader) = Ok req /\ Host req = [] /\ Port req = "80" /\
    snd (checkAndBlockHost blockWorld (Host req)) = false /\
    In (NetDial ":80") (fst (handleHTTP blockWorld reader)).
Proof.
  apply (X7_request_without_Host blockWorld lowerHostLine lowerHostHeaders [] io_EOF).
  - reflexivity.
  - vm_compute. lia.
  - repeat constructor; by vm_compute.
  - reflexivity.
Defined.

(** ** What is forwarded is what was received *)

Lemma responseHeaders_consumed fuel reader headers buf headers' buf' reader' :
  responseHeaders fuel reader headers buf = (Ok (headers', buf'), reader') ->
  exists kept dropped,
    buf' = buf ++ kept /\
    pending reader = kept ++ dropped ++ pending reader' /\
    (dropped <> [] -> pending reader' = [] /\ cutLine dropped = None).
Proof.
  revert reader headers buf.
  induction fuel as [|fuel IH]; intros reader headers buf; [done|].
  rewrite responseHeaders_S. unfold ReadString.
  destruct (cutLine (pending reader)) as [[line rest]|] eqn:E.
  - apply cutLine_split in E.
    case_bool_decide.
    { intros ?; simplify_eq. exists CRLF, []. by rewrite E. }
    intros Hq. apply IH in Hq as (kept & dropped & -> & Hp & Hd). simpl in Hp.
    exists (line ++ kept), dropped. by rewrite E, Hp, <- !app_assoc.
  - destruct (is_EOF (closing reader)); [|done].
    intros ?; simplify_eq. exists [], (pending reader). simpl.
    rewrite !app_nil_r. by split_and!.
Qed.

Lemma ReadFull_consumed reader n body reader' :
  ReadFull reader n = (Ok body, reader') ->
  pending reader = body ++ pending reader' /\ length body = n.
Proof.
  unfold ReadFull. destruct (n <=? length (pending reader)) eqn:E; [|done].
  apply Nat.leb_le in E. intros ?; simplify_eq. simpl.
  by rewrite take_drop, length_take_le.
Qed.

Lemma responseBody_consumed reader headers body reader' :
  responseBody reader headers = (Ok body, reader') ->
  pending reader = body ++ pending reader'.
Proof.
  unfold responseBody. destruct (headers !! _) as [cl|]; [|intros ?; by simplify_eq].
  destruct (0 <? _)%Z; [|intros ?; by simplify_eq].
  intros Hfull. by apply ReadFull_consumed in Hfull as [? _].
Qed.

(** Whenever parseResponse succeeds, RawResponse is the lines it kept
    followed by the body, and the stream held these bytes in this order;
    an unterminated last line is read and dropped, and then there is no
    body. *)
Lemma parseResponse_consumed reader resp reader' :
  parseResponse reader = (Ok resp, reader') ->
  exists head dropped,
    RawResponse resp = head ++ Body resp /\
    pending reader = head ++ dropped ++ Body resp ++ pending reader' /\
    (dropped <> [] -> Body resp = [] /\ pending reader' = [] /\ cutLine dropped = None).
Proof.
  unfold parseResponse, ReadString.
  destruct (cutLine (pending reader)) as [[line rest]|] eqn:E; [|done].
  apply cutLine_split in E.
  destruct (_ <? 2); [done|].
  match goal with |- context [responseHeaders ?f ?r ?h ?buf] =>
    destruct (responseHeaders f r h buf) as [[[headers buf']|err] rd] eqn:Hloop; [|done]
  end.
  destruct (responseBody rd headers) as [[body|err] rd'] eqn:Hbody; [|done].
  intros ?; simplify_eq. simpl.
  apply responseHeaders_consumed in Hloop as (kept & dropped & -> & Hp & Hd).
  apply responseBody_consumed in Hbody. simpl in Hp.
  exists (line ++ kept), dropped. split_and!; [done| |].
  - by rewrite E, Hp, Hbody, <- !app_assoc.
  - intros Hne. destruct (Hd Hne) as [Hempty Hcut]. rewrite Hempty in Hbody.
    symmetry in Hbody. apply app_eq_nil in Hbody as [-> ->]. by rewrite <- Hempty.
Qed.

Lemma handleHTTP_origin_writes w reader :
  writes_to Origin (fst (handleHTTP w reader))
  = match fst (parseRequest reader) with
    | Err _ => []
    | Ok req =>
      if negb (snd (checkAndBlockHost w (Host req)))
         && dial_ok w (JoinHostPort (Host req) (Port req))
      then [Raw req] else []
    end.
Proof.
  destruct (handleHTTP_cases w reader) as
    [(e & -> & ->)|(req & es & -> & _ & Hw & Hcases)]; [done|].
  assert (writes_to Origin es = []) as Hes by by apply Hw.
  destruct Hcases as
    [(-> & _ & ->)|[(-> & -> & _ & ->)|(-> & -> & _ & reply & _ & Hr & ->)]]; simpl;
    rewrite ?writes_to_app, ?Hes; simpl; rewrite ?writes_to_app, ?Hr; done.
Qed.

(** X8. On the plaintext path nothing is made up and nothing is
    reordered: what handleHTTP writes to the origin is a prefix of the
    bytes the client sent, and what it writes to the client is the 403
    page for the requested host or a prefix of the bytes the origin
    sent. *)
Theorem X8_forwarded_bytes_are_prefixes (w : World) (reader : Reader) :
  (forall data, In (ConnWrite Origin data) (fst (handleHTTP w reader)) ->
     exists rest, pending reader = data ++ rest) /\
  (forall data, In (ConnWrite Client data) (fst (handleHTTP w reader)) ->
     (exists req, fst (parseRequest reader) = Ok req /\
                  data = forbiddenResponse (Host req)) \/
     exists rest, pending (origin w) = data ++ rest).
Proof.
  split; intros data Hin%writes_to_In.
  - rewrite handleHTTP_origin_writes in Hin.
    destruct (parseRequest reader) as [[req|e] rd] eqn:Hreq; [|done]. simpl in Hin.
    destruct (_ && _); [|done]. destruct Hin as [<-|[]].
    apply parseRequest_consumed in Hreq as (dropped & -> & _). by eexists.
  - rewrite handleHTTP_client_writes in Hin. unfold plainClientWrites in Hin.
    destruct (fst (parseRequest reader)) as [req|e]; [|done].
    destruct (snd (checkAndBlockHost w (Host req))).
    { destruct Hin as [<-|[]]. left. by exists req. }
    destruct (_ && _); [|done].
    destruct (parseResponse (origin w)) as [[resp|e] rd] eqn:Hresp; [|done].
    destruct Hin as [<-|[]]. right.
    apply parseResponse_consumed in Hresp as (head & dropped & -> & -> & Hd).
    destruct dropped as [|c dropped].
    + eexists. by rewrite <- !app_assoc.
    + destruct Hd as (-> & _); [done|]. rewrite app_nil_r. by eexists.
Qed.

(** ** A whole exchange on the plaintext path *)

Lemma parseResponse_block (status : str) (lines : list str) (rest : str) (e : error) :
  is_line status -> 2 <= length (Split (TrimSpace status) " ") ->
  Forall is_header_line lines ->
  let parts := Split (TrimSpace status) " " in
  let head := status ++ concat lines ++ CRLF in
  (contentLength lines <= length rest ->
   exists resp,
     parseResponse (mkReader (head ++ rest) e)
     = (Ok resp, mkReader (drop (contentLength lines) rest) e) /\
     Proto resp = nth 0 parts [] /\
     StatusCode resp = fst (Atoi (nth 1 parts [])) /\
     Status resp = (if 2 <? length parts then Join (drop 2 parts) " " else []) /\
     (forall name, Headers resp !! name = headerValue name lines) /\
     Body resp = take (contentLength lines) rest /\
     RawResponse resp = head ++ take (contentLength lines) rest) /\
  (length rest < contentLength lines ->
   exists err, fst (parseResponse (mkReader (head ++ rest) e)) = Err err).
Proof.
  intros Hstatus Hparts Hlines parts head. unfold head, parseResponse.
  rewrite <- !app_assoc.
  rewrite (ReadString_line _ _ _ Hstatus).
  destruct (_ <? 2) eqn:E; [apply Nat.ltb_lt in E; lia|].
  rewrite (responseHeaders_block lines rest e Hlines).
  2: { simpl. rewrite !length_app. pose proof (length_concat_lines _ Hlines). lia. }
  assert (forall name, fold_left storeHeader lines ∅ !! name = headerValue name lines)
    as Hmap.
  { intros name. rewrite fold_storeHeader_lookup, lookup_empty.
    by destruct (headerValue name lines). }
  split; intros Hrest.
  - assert (responseBody (mkReader rest e) (fold_left storeHeader lines ∅)
            = (Ok (take (contentLength lines) rest),
               mkReader (drop (contentLength lines) rest) e)) as ->.
    { unfold responseBody, contentLength. rewrite Hmap.
      unfold contentLength in Hrest.
      destruct (headerValue "Content-Length" lines) as [cl|]; [|by rewrite drop_0].
      destruct (0 <? fst (Atoi cl))%Z; [|by rewrite drop_0].
      unfold ReadFull. simpl. apply Nat.leb_le in Hrest. by rewrite Hrest. }
    eexists. split; [reflexivity|]. simpl. split_and!; try done.
    by rewrite <- !app_assoc.
  - unfold responseBody. rewrite Hmap. unfold contentLength in Hrest.
    destruct (headerValue "Content-Length" lines) as [cl|]; [|simpl in Hrest; lia].
    destruct (0 <? fst (Atoi cl))%Z; [|simpl in Hrest; lia].
    unfold ReadFull. simpl pending. apply Nat.leb_gt in Hrest. rewrite Hrest.
    by eexists.
Qed.

(** X9. A plaintext exchange from end to end. The host is not blocked,
    the dial and the write to the origin succeed, and the origin answers
    with a status line, header lines and the blank line, followed by
    [rest]. The origin receives the request head once. When [rest] holds
    the bytes that Content-Length announces, the client receives in one
    write the response head and that many bytes of [rest], and no byte
    after them; without a Content-Length header spelled exactly so this
    is the head alone. When [rest] is shorter than announced the client
    receives nothing. *)
Theorem X9_plaintext_exchange
        (w : World) (reader : Reader) (req : HTTPRequest)
        (status : str) (lines : list str) (rest : str) (e : error) :
  fst (parseRequest reader) = Ok req ->
  snd (checkAndBlockHost w (Host req)) = false ->
  dial_ok w (JoinHostPort (Host req) (Port req)) = true ->
  write_ok w Origin 0 = true ->
  origin w = mkReader ((status ++ concat lines ++ CRLF) ++ rest) e ->
  is_line status -> 2 <= length (Split (TrimSpace status) " ") ->
  Forall is_header_line lines ->
  let t := fst (handleHTTP w reader) in
  writes_to Origin t = [Raw req] /\
  (contentLength lines <= length rest ->
   writes_to Client t
   = [(status ++ concat lines ++ CRLF) ++ take (contentLength lines) rest]) /\
  (headerValue "Content-Length" lines = None ->
   writes_to Client t = [status ++ concat lines ++ CRLF]) /\
  (length rest < contentLength lines -> writes_to Client t = []).
Proof.
  intros Hreq Hpass Hdial Hwrite Horigin Hstatus Hparts Hlines t.
  destruct (parseResponse_block status lines rest e Hstatus Hparts Hlines)
    as [Hfull Hshort].
  assert (writes_to Client t
          = match fst (parseResponse (origin w)) with
            | Ok resp => [RawResponse resp] | Err _ => [] end) as Hclient.
  { unfold t. rewrite handleHTTP_client_writes. unfold plainClientWrites.
    by rewrite Hreq, Hpass, Hdial, Hwrite. }
  rewrite Hclient, Horigin.
  split_and!.
  - unfold t. by rewrite handleHTTP_origin_writes, Hreq, Hpass, Hdial.
  - intros Hlen. destruct (Hfull Hlen) as (resp & -> & _ & _ & _ & _ & _ & Hraw).
    cbn [fst]. by rewrite Hraw.
  - intros Hnone.
    assert (contentLength lines = 0) as Hzero by (unfold contentLength; by rewrite Hnone).
    destruct Hfull as (resp & -> & _ & _ & _ & _ & _ & Hraw); [lia|].
    cbn [fst]. by rewrite Hraw, Hzero, take_0, app_nil_r.
  - intros Hlen. by destruct (Hshort Hlen) as [err ->].
Qed.

Lemma X9_witness :
  let t := fst (handleHTTP plainWorld (mkReader plainGet io_EOF)) in
  writes_to Origin t = [plainGet] /\
  (contentLength [("Content-Length: 2" : str) ++ CRLF] <= length ("hi" : str) ->
   writes_to Client t
   = [((("HTTP/1.1 200 OK" : str) ++ CRLF) ++ concat [("Content-Length: 2" : str) ++ CRLF]
       ++ CRLF) ++ take (contentLength [("Content-Length: 2" : str) ++ CRLF]) "hi"]) /\
  (headerValue "Content-Length" [("Content-Length: 2" : str) ++ CRLF] = None ->
   writes_to Client t
   = [(("HTTP/1.1 200 OK" : str) ++ CRLF) ++ concat [("Content-Length: 2" : str) ++ CRLF]
      ++ CRLF]) /\
  (length ("hi" : str) < contentLength [("Content-Length: 2" : str) ++ CRLF] ->
   writes_to Client t = []).
Proof.
  apply (X9_plaintext_exchange plainWorld (mkReader plainGet io_EOF)
           (mkHTTPRequest "GET" "http://example.test/x" "HTTP/1.1" "80" "example.test"
                          [] [] plainGet)
           (("HTTP/1.1 200 OK" : str) ++ CRLF) [("Content-Length: 2" : str) ++ CRLF]
           "hi" io_EOF); try reflexivity.
  - vm_compute. lia.
  - repeat constructor; by vm_compute.
Defined.

(** ** The 403 page read back *)

Lemma digit_not_space (c : ascii) : digitVal c <> None -> isSpace c = false.
Proof.
  destruct c as [[] [] [] [] [] [] [] []]; vm_compute; congruence.
Qed.

Lemma digit_not_sign (c : ascii) :
  digitVal c <> None -> Ascii.eqb c "-" = false /\ Ascii.eqb c "+" = false.
Proof.
  destruct c as [[] [] [] [] [] [] [] []]; vm_compute; intuition congruence.
Qed.

Lemma digit_not_LF (c : ascii) : digitVal c <> None -> c <> LF.
Proof.
  destruct c as [[] [] [] [] [] [] [] []]; vm_compute; congruence.
Qed.

Lemma uint_digits (d : Decimal.uint) :
  Forall (fun c => digitVal c <> None)
         (list_ascii_of_string (NilEmpty.string_of_uint d)).
Proof. induction d; simpl; constructor; try done; by vm_compute. Qed.

Lemma parseDigits_uint (d : Decimal.uint) (acc : Z) :
  (0 <= acc)%Z ->
  parseDigits acc (list_ascii_of_string (NilEmpty.string_of_uint d))
  = Some (match acc with
          | Z.pos p => Z.pos (Pos.of_uint_acc d p)
          | _ => Z.of_N (Pos.of_uint d)
          end).
Proof.
  revert acc. induction d as [|d IH|d IH|d IH|d IH|d IH|d IH|d IH|d IH|d IH|d IH];
    intros acc Hacc; [by destruct acc|..];
    cbn [NilEmpty.string_of_uint list_ascii_of_string parseDigits];
    match goal with |- context [digitVal ?c] =>
      let v := eval vm_compute in (digitVal c) in change (digitVal c) with v
    end; cbv beta iota; rewrite IH by lia;
    (destruct acc as [|p|p];
     [reflexivity
     |cbn [Z.mul Z.add Pos.of_uint_acc]; do 3 f_equal; lia
     |lia]).
Qed.

Lemma Itoa_digits (n : Z) :
  (0 <= n)%Z -> Itoa n <> [] /\ Forall (fun c => digitVal c <> None) (Itoa n).
Proof.
  intros Hn. unfold Itoa. destruct n as [|p|p]; [|..|lia].
  - split; [done|]. repeat constructor. by vm_compute.
  - simpl. pose proof (Unsigned.to_uint_nonnil p) as Hnil.
    pose proof (uint_digits (Pos.to_uint p)) as Hd.
    destruct (Pos.to_uint p); try done; split; try done.
Qed.

Lemma Atoi_Itoa (n : Z) : (0 <= n <= maxInt)%Z -> Atoi (Itoa n) = (n, true).
Proof.
  intros [Hn Hmax]. destruct (Itoa_digits n Hn) as [Hne Hd].
  assert (parseDigits 0 (Itoa n) = Some n) as Hparse.
  { unfold Itoa. destruct n as [|p|p]; [done| |lia]. simpl.
    pose proof (Unsigned.to_uint_nonnil p) as Hnil.
    pose proof (parseDigits_uint (Pos.to_uint p) 0 ltac:(lia)) as Hp.
    rewrite DecimalPos.Unsigned.of_to in Hp.
    by destruct (Pos.to_uint p). }
  unfold Atoi. destruct (Itoa n) as [|c s]; [done|].
  apply Forall_cons in Hd as [Hc _]. destruct (digit_not_sign c Hc) as [-> ->].
  rewrite Hparse.
  destruct (maxInt <? n)%Z eqn:E1; [apply Z.ltb_lt in E1; lia|].
  destruct (n <? minInt)%Z eqn:E2; [apply Z.ltb_lt in E2; unfold minInt in E2; lia|].
  done.
Qed.

Lemma TrimSpace_no_space (s : str) :
  Forall (fun c => isSpace c = false) s -> TrimSpace s = s.
Proof.
  intros Hs. unfold TrimSpace.
  assert (TrimLeft s = s) as -> by (destruct s; [done|]; apply Forall_cons in Hs as [Hc _];
                                    simpl; by rewrite Hc).
  apply TrimRight_fixed. apply Forall_rev in Hs.
  destruct (rev s) as [|c r]; [done|]. apply Forall_cons in Hs as [Hc _].
  simpl. by rewrite Hc.
Qed.

(** A response of the shape sendForbiddenResponse writes, with any
    body and any rendering of its length in decimal digits. *)
Lemma page_parses_back (html digits extra : str) (e : error) :
  digits <> [] -> Forall (fun c => digitVal c <> None) digits ->
  Atoi digits = (Z.of_nat (length html), true) -> 0 < length html ->
  exists resp,
    parseResponse
      (mkReader ("HTTP/1.1 403 Forbidden" ++ CRLF ++
                 "Content-Type: text/html; charset=utf-8" ++ CRLF ++
                 "Content-Length: " ++ digits ++ CRLF ++
                 "Connection: close" ++ CRLF ++
                 CRLF ++ html ++ extra) e)
    = (Ok resp, mkReader extra e) /\
    Proto resp = "HTTP/1.1" /\ StatusCode resp = 403%Z /\ Status resp = "Forbidden" /\
    Headers resp !! ("Content-Length" : str) = Some digits /\
    Body resp = html /\
    RawResponse resp
    = "HTTP/1.1 403 Forbidden" ++ CRLF ++
      "Content-Type: text/html; charset=utf-8" ++ CRLF ++
      "Content-Length: " ++ digits ++ CRLF ++
      "Connection: close" ++ CRLF ++
      CRLF ++ html.
Proof.
  intros Hne Hd Hatoi Hpos.
  pose (status := ("HTTP/1.1 403 Forbidden" : str) ++ CRLF).
  pose (ct := ("Content-Type: text/html; charset=utf-8" : str) ++ CRLF).
  pose (cl := ("Content-Length: " : str) ++ digits ++ CRLF).
  pose (cn := ("Connection: close" : str) ++ CRLF).
  assert (is_line cl) as Hcl.
  { unfold cl. replace (("Content-Length: " : str) ++ digits ++ CRLF)
      with ((("Content-Length: " : str) ++ digits ++ [CR]) ++ [LF])
      by (by rewrite <- !app_assoc).
    apply cutLine_no_LF. rewrite !in_app_iff. intros [H|[H|H]].
    - vm_compute in H. intuition discriminate.
    - apply list_elem_of_In in H. rewrite Forall_forall in Hd.
      by apply (digit_not_LF LF (Hd LF H)).
    - vm_compute in H. intuition discriminate. }
  assert (cl <> CRLF) as HclNe.
  { intros H. apply (f_equal length) in H. unfold cl in H.
    rewrite !length_app in H. simpl in H. lia. }
  assert (TrimSpace digits = digits) as Htrim.
  { apply TrimSpace_no_space. eapply Forall_impl; [exact Hd|]. apply digit_not_space. }
  assert (Forall is_header_line [ct; cl; cn]) as Hlines.
  { apply Forall_cons_2; [split; [reflexivity|discriminate]|].
    apply Forall_cons_2; [by split|].
    apply Forall_cons_2; [split; [reflexivity|discriminate]|]. constructor. }
  assert (headerValue "Content-Length" [ct; cl; cn] = Some digits) as Hvalue.
  { assert (SplitN cn ":" 2 = [("Connection" : str); (" close" : str) ++ CRLF]) as Hcn
      by reflexivity.
    assert (SplitN cl ":" 2 = [("Content-Length" : str); " "%char :: digits ++ CRLF])
      as Hsplit by reflexivity.
    cbn [headerValue]. rewrite Hcn, Hsplit.
    rewrite (bool_decide_eq_false_2 (TrimSpace "Connection" = "Content-Length"))
      by (by vm_compute).
    rewrite (bool_decide_eq_true_2 (TrimSpace "Content-Length" = "Content-Length"))
      by (by vm_compute).
    by rewrite (TrimSpace_padded _ Htrim Hne). }
  assert (contentLength [ct; cl; cn] = length html) as Hlen.
  { unfold contentLength. rewrite Hvalue, Hatoi. cbn [fst].
    destruct (0 <? Z.of_nat (length html))%Z eqn:E; [by rewrite Nat2Z.id|].
    apply Z.ltb_ge in E. lia. }
  destruct (parseResponse_block status [ct; cl; cn] (html ++ extra) e)
    as [Hfull _]; [reflexivity|vm_compute; lia|done|].
  destruct Hfull as (resp & Hparse & Hproto & Hcode & Hstat & Hmap & Hbody & Hraw).
  { rewrite Hlen, length_app. lia. }
  rewrite Hlen in Hparse, Hbody, Hraw.
  rewrite drop_app_length in Hparse. rewrite take_app_length in Hbody, Hraw.
  assert ((status ++ concat [ct; cl; cn] ++ CRLF)
          = "HTTP/1.1 403 Forbidden" ++ CRLF ++
            "Content-Type: text/html; charset=utf-8" ++ CRLF ++
            "Content-Length: " ++ digits ++ CRLF ++
            "Connection: close" ++ CRLF ++ CRLF) as Hhead.
  { unfold status, ct, cl, cn. cbn [concat]. by rewrite app_nil_r, <- !app_assoc. }
  rewrite Hhead in Hparse, Hraw. rewrite <- !app_assoc in Hparse, Hraw.
  exists resp. split_and!; try done. by rewrite Hmap.
Qed.

Lemma forbiddenResponse_parses_back (domain extra : str) (e : error) :
  (Z.of_nat (length (forbiddenHTMLTemplate domain)) <= maxInt)%Z ->
  exists resp,
    parseResponse (mkReader (forbiddenResponse domain ++ extra) e)
    = (Ok resp, mkReader extra e) /\
    Proto resp = "HTTP/1.1" /\ StatusCode resp = 403%Z /\ Status resp = "Forbidden" /\
    Headers resp !! ("Content-Length" : str)
    = Some (Itoa (Z.of_nat (length (forbiddenHTMLTemplate domain)))) /\
    Body resp = forbiddenHTMLTemplate domain /\
    RawResponse resp = forbiddenResponse domain.
Proof.
  intros Hmax.
  assert (0 < length (forbiddenHTMLTemplate domain)) as Hpos.
  { unfold forbiddenHTMLTemplate. rewrite length_app. simpl. lia. }
  unfold forbiddenResponse. cbv zeta.
  generalize dependent (forbiddenHTMLTemplate domain). intros html Hmax Hpos.
  destruct (Itoa_digits (Z.of_nat (length html)) ltac:(lia)) as [Hne Hd].
  pose proof (Atoi_Itoa (Z.of_nat (length html)) ltac:(lia)) as Hatoi.
  generalize dependent (Itoa (Z.of_nat (length html))). intros digits Hne Hd Hatoi.
  destruct (page_parses_back html digits extra e Hne Hd Hatoi Hpos)
    as (resp & Hparse & Hrest).
  exists resp. rewrite <- !app_assoc. by split.
Qed.

(** X10. The 403 page that sendForbiddenResponse writes is a response
    that parseResponse reads back in full, whatever the domain: status
    403, the Content-Length header it carries is the length of the HTML
    body, the body is the HTML page, and RawResponse is the page as
    written. Bytes that follow the page stay in the reader. *)
Theorem X10_forbidden_page_parses_back (domain extra : str) (e : error) :
  (Z.of_nat (length (forbiddenHTMLTemplate domain)) <= maxInt)%Z ->
  exists resp,
    parseResponse (mkReader (forbiddenResponse domain ++ extra) e)
    = (Ok resp, mkReader extra e) /\
    Proto resp = "HTTP/1.1" /\ StatusCode resp = 403%Z /\ Status resp = "Forbidden" /\
    Headers resp !! ("Content-Length" : str)
    = Some (Itoa (Z.of_nat (length (forbiddenHTMLTemplate domain)))) /\
    Body resp = forbiddenHTMLTemplate domain /\
    RawResponse resp = forbiddenResponse domain.
Proof. apply forbiddenResponse_parses_back. Qed.

Lemma X10_witness :
  exists resp,
    parseResponse (mkReader (forbiddenResponse "ads.test" ++ "next") io_EOF)
    = (Ok resp, mkReader "next" io_EOF) /\
    Proto resp = "HTTP/1.1" /\ StatusCode resp = 403%Z /\ Status resp = "Forbidden" /\
    Headers resp !! ("Content-Length" : str)
    = Some (Itoa (Z.of_nat (length (forbiddenHTMLTemplate "ads.test")))) /\
    Body resp = forbiddenHTMLTemplate "ads.test" /\
    RawResponse resp = forbiddenResponse "ads.test".
Proof.
  apply (X10_forbidden_page_parses_back "ads.test" "next" io_EOF).
  vm_compute. discriminate.
Defined.

(** ** The tunnel under any schedule *)

Lemma conn_eqb_refl c : conn_eqb c c = true.
Proof. by destruct c. Qed.

Lemma ioCopy_prefix w dst k chunks closing :
  exists rest,
    concat chunks = concat (writes_to dst (fst (ioCopy w dst k chunks closing))) ++ rest.
Proof.
  revert k. induction chunks as [|chunk chunks IH]; intros k; simpl; [by exists []|].
  destruct chunk as [|c chunk]; [apply IH|].
  destruct (write_ok w dst k).
  - destruct (IH (S k)) as [rest Hrest].
    destruct (ioCopy w dst (S k) chunks closing) as [es err]. simpl in *.
    rewrite conn_eqb_refl. simpl. exists rest. by rewrite Hrest, <- app_assoc.
  - simpl. rewrite conn_eqb_refl. simpl. exists (concat chunks). by rewrite app_nil_r.
Qed.

Lemma forwardServerResponse_prefix w :
  exists rest,
    concat (fst (origin_tls w))
    = concat (writes_to ClientTLS (forwardServerResponse w)) ++ rest.
Proof.
  unfold forwardServerResponse. destruct (origin_tls w) as [chunks closing]. simpl fst.
  destruct (readServerResponse (mkReader (concat chunks) closing))
    as [[headers|e] rd] eqn:Hread; simpl; [|by eexists].
  apply readServerResponse_prefix in Hread. simpl in Hread.
  destruct (write_ok w ClientTLS 0); simpl.
  - destruct (ioCopy_prefix w ClientTLS 1 (dropBytes (length headers) chunks) closing)
      as [rest Hrest].
    destruct (ioCopy _ _ _ _ _) as [es err]. simpl in *.
    exists rest.
    rewrite concat_dropBytes, Hread, drop_app_length in Hrest.
    rewrite !writes_to_app, Hread, Hrest.
    destruct err; cbn [writes_to app]; by rewrite !app_nil_r, <- app_assoc.
  - exists (pending rd). by rewrite app_nil_r.
Qed.

Lemma tunnelConnections_writes w :
  writes_to OriginTLS (tunnelConnections w)
  = writes_to OriginTLS (fst (ioCopy w OriginTLS 0 (fst (client_tls w)) (snd (client_tls w))))
  /\
  writes_to ClientTLS (tunnelConnections w) = writes_to ClientTLS (forwardServerResponse w).
Proof.
  unfold tunnelConnections.
  destruct (clientToServer_writes w) as (Hc1 & _ & Hc).
  destruct (serverToClient_writes w) as (Hs1 & _ & Hs).
  rewrite !writes_to_app, !app_nil_r.
  by rewrite (writes_to_merge_left _ _ _ _ Hs1), (writes_to_merge_right _ _ _ _ Hc1).
Qed.

(** X11. Whatever the schedule of the two goroutines, and whichever
    writes fail, the tunnel relays each direction in order and without
    additions: the bytes written to the origin endpoint are a prefix of
    the bytes the client sent, the bytes written to the client endpoint
    are a prefix of the bytes the origin sent, and nothing is written to
    the raw client socket. When no write to the origin fails, the origin
    receives all the client sent. *)
Theorem X11_tunnel_relays_in_order (w : World) :
  let t := tunnelConnections w in
  (exists rest, concat (fst (client_tls w)) = concat (writes_to OriginTLS t) ++ rest) /\
  (exists rest, concat (fst (origin_tls w)) = concat (writes_to ClientTLS t) ++ rest) /\
  writes_to Client t = [] /\
  ((forall i, write_ok w OriginTLS i = true) ->
   concat (writes_to OriginTLS t) = concat (fst (client_tls w))).
Proof.
  destruct (tunnelConnections_writes w) as [Ho Hc]. simpl. rewrite Ho, Hc.
  split_and!.
  - apply ioCopy_prefix.
  - apply forwardServerResponse_prefix.
  - apply tunnelConnections_client_writes.
  - intros Hok. by apply ioCopy_delivers.
Qed.

(** ** What interception requires *)

Lemma quiet_not_TLSDial t target :
  Forall (fun e => is_quiet e = true) t -> ~ In (TLSDial target) t.
Proof. intros Hq Hin. by pose proof (quiet_no_dial _ _ Hq Hin). Qed.

Lemma tunnelConnections_not_TLSDial w target : ~ In (TLSDial target) (tunnelConnections w).
Proof.
  intros Hin. pose proof (tunnelConnections_no_dial w) as Hno.
  rewrite Forall_forall in Hno. by apply list_elem_of_In, Hno in Hin.
Qed.

Lemma establishMITMTunnel_dials w target domain address :
  In (TLSDial address) (fst (establishMITMTunnel w target domain)) ->
  address = target /\ write_ok w Client 0 = true /\ handshake_ok w = true /\
  exists rootCA fakeCert,
    root_ca w = Ok rootCA /\ generateCertificate w domain rootCA = Ok fakeCert.
Proof.
  unfold establishMITMTunnel.
  destruct (write_ok w Client 0); simpl; [|intuition discriminate].
  destruct (root_ca w) as [rootCA|e] eqn:Hca; simpl; [|intuition discriminate].
  destruct (generateCertificate w domain rootCA) as [fakeCert|e] eqn:Hmint; simpl;
    [|intuition discriminate].
  destruct (handshake_ok w); simpl; [|intuition discriminate].
  assert (In (TLSDial address) (tunnelConnections w ++ [ConnClose OriginTLS]) -> False)
    as Hno.
  { rewrite in_app_iff. intros [Hin|Hin]; [by apply tunnelConnections_not_TLSDial in Hin|].
    simpl in Hin. intuition discriminate. }
  intros Hin.
  assert (TLSDial target = TLSDial address \/
          In (TLSDial address) (tunnelConnections w ++ [ConnClose OriginTLS]))
    as [Heq|Hbad].
  { destruct (tls_dial_ok w target); simpl in Hin; intuition (try discriminate). }
  - injection Heq as <-. split_and!; try done. by exists rootCA, fakeCert.
  - by destruct (Hno Hbad).
Qed.

Lemma establishMITMTunnel_tls_writes w target domain c data :
  c = OriginTLS \/ c = ClientTLS ->
  In (ConnWrite c data) (fst (establishMITMTunnel w target domain)) ->
  tls_dial_ok w target = true /\
  In (TLSDial target) (fst (establishMITMTunnel w target domain)).
Proof.
  intros Hc.
  pose proof (establishMITMTunnel_cases w target domain) as Hm.
  destruct (establishMITMTunnel w target domain) as [mitm err]. simpl.
  destruct Hm as [(_ & [-> | [-> | ->]]) | [(_ & _ & ->) | (_ & Hok & ->)]].
  1-4: simpl; intros Hin; destruct Hc as [-> | ->]; intuition discriminate.
  intros _. split; [done|]. simpl. tauto.
Qed.

(** X12. What interception requires. handleHTTPS dials the origin over
    TLS only for the target of the CONNECT request, and only after the
    host passed the blocklist, the 200 line was written, the root CA was
    loaded, a leaf was minted for the domain and the TLS handshake with
    the client succeeded. Bytes are written to either TLS endpoint only
    when that dial succeeded. *)
Theorem X12_interception_requires (w : World) (reader : Reader) :
  (forall address, In (TLSDial address) (handleHTTPS w reader) ->
     exists domain rootCA fakeCert,
       fst (processConnectRequest reader) = Ok (address, domain) /\
       snd (checkAndBlockHost w domain) = false /\
       write_ok w Client 0 = true /\
       root_ca w = Ok rootCA /\ generateCertificate w domain rootCA = Ok fakeCert /\
       handshake_ok w = true) /\
  (forall c data, c = OriginTLS \/ c = ClientTLS ->
     In (ConnWrite c data) (handleHTTPS w reader) ->
     exists target domain,
       fst (processConnectRequest reader) = Ok (target, domain) /\
       tls_dial_ok w target = true /\ In (TLSDial target) (handleHTTPS w reader)).
Proof.
  unfold handleHTTPS.
  destruct (fst (processConnectRequest reader)) as [[target domain]|e].
  2: { split; [intros address|intros c data [-> | ->]]; simpl; intuition discriminate. }
  destruct (checkAndBlockHost_shape w domain) as (es & Hes & Hq & Hwc & Hwo).
  destruct (checkAndBlockHost w domain) as [es0 shouldBlock] eqn:Hcheck.
  simpl in *. subst es0.
  split.
  - intros address. rewrite !in_app_iff. intros [[Hin|Hin]|Hin].
    + destruct Hin as [?|Hin]; [discriminate|]. by apply quiet_not_TLSDial in Hin.
    + destruct shouldBlock; [done|].
      pose proof (establishMITMTunnel_dials w target domain address) as Hd.
      destruct (establishMITMTunnel w target domain) as [mitm err]. simpl in *.
      apply in_app_iff in Hin as [Hin|Hin].
      * destruct (Hd Hin) as (-> & ? & ? & rootCA & fakeCert & ? & ?).
        exists domain, rootCA, fakeCert. by rewrite Hcheck.
      * destruct err; simpl in Hin; intuition discriminate.
    + simpl in Hin. intuition discriminate.
  - intros c data Hc. rewrite !in_app_iff. intros [[Hin|Hin]|Hin].
    + destruct Hin as [?|Hin]; [discriminate|]. apply writes_to_In in Hin.
      rewrite Hwo in Hin; [done|]. by destruct Hc as [-> | ->].
    + destruct shouldBlock; [done|].
      pose proof (establishMITMTunnel_tls_writes w target domain c data Hc) as Hd.
      destruct (establishMITMTunnel w target domain) as [mitm err]. simpl in *.
      apply in_app_iff in Hin as [Hin|Hin].
      * destruct (Hd Hin) as [Hok Hdial]. exists target, domain. split_and!; try done.
        right. rewrite !in_app_iff. left. right. by left.
      * destruct err; simpl in Hin; destruct Hc as [-> | ->]; intuition discriminate.
    + simpl in Hin. destruct Hc as [-> | ->]; intuition discriminate.
Qed.

(** ** The stand-alone program *)

Lemma ioCopy_only w dst k chunks closing :
  Forall (writes_only dst) (fst (ioCopy w dst k chunks closing)).
Proof.
  eapply Forall_impl; [apply ioCopy_writes|]. intros e He. by right.
Qed.

Lemma writes_only_no_close c c' t :
  Forall (writes_only c) t -> Forall (fun e => is_close c' e = false) t.
Proof.
  intros H. eapply Forall_impl; [exact H|]. intros e [Hs|[data ->]]; [by destruct e|done].
Qed.

Lemma writes_only_no_dial c t :
  Forall (writes_only c) t -> Forall (fun e => is_dial e = false) t.
Proof.
  intros H. eapply Forall_impl; [exact H|]. intros e [Hs|[data ->]]; [by destruct e|done].
Qed.

Lemma main_clientToServer_shape w reader :
  exists copy,
    main.clientToServer w reader = copy ++ [ConnCloseWrite Origin; Done] /\
    Forall (writes_only Origin) copy /\
    writes_to Origin copy
    = writes_to Origin (fst (ioCopy w Origin 0 [pending reader] (closing reader))).
Proof.
  unfold main.clientToServer.
  pose proof (ioCopy_only w Origin 0 [pending reader] (closing reader)) as Hw.
  destruct (ioCopy w Origin 0 [pending reader] (closing reader)) as [es err].
  simpl in *. eexists. rewrite app_assoc. split; [reflexivity|]. split.
  - apply Forall_app. split; [done|]. destruct err; repeat constructor; by left.
  - rewrite writes_to_app. destruct err; simpl; by rewrite app_nil_r.
Qed.

Lemma main_serverToClient_shape w :
  exists copy,
    main.serverToClient w = copy ++ [ConnCloseWrite Client; Done] /\
    Forall (writes_only Client) copy /\
    writes_to Client copy
    = writes_to Client (fst (ioCopy w Client 1 [pending (origin w)] (closing (origin w)))).
Proof.
  unfold main.serverToClient.
  pose proof (ioCopy_only w Client 1 [pending (origin w)] (closing (origin w))) as Hw.
  destruct (ioCopy w Client 1 [pending (origin w)] (closing (origin w))) as [es err].
  simpl in *. eexists. rewrite app_assoc. split; [reflexivity|]. split.
  - apply Forall_app. split; [done|]. destruct err; repeat constructor; by left.
  - rewrite writes_to_app. destruct err; simpl; by rewrite app_nil_r.
Qed.

(** The raw tunnel of the stand-alone program: no Close, no dial, and
    each connection is written by one goroutine only. *)
Lemma main_pump w reader :
  let t := merge (schedule w) (main.clientToServer w reader) (main.serverToClient w) in
  (forall c, closes c t = 0) /\
  Forall (fun e => is_dial e = false) t /\
  writes_to Client t
  = writes_to Client (fst (ioCopy w Client 1 [pending (origin w)] (closing (origin w)))) /\
  writes_to Origin t
  = writes_to Origin (fst (ioCopy w Origin 0 [pending reader] (closing reader))).
Proof.
  destruct (main_clientToServer_shape w reader) as (up & -> & Hup & Hupw).
  destruct (main_serverToClient_shape w) as (down & -> & Hdown & Hdownw).
  simpl. split_and!.
  - intros c. rewrite closes_merge, !closes_app.
    rewrite (closes_none c up) by by apply (writes_only_no_close Origin).
    rewrite (closes_none c down) by by apply (writes_only_no_close Client).
    done.
  - apply Forall_merge; apply Forall_app; split;
      try (by repeat constructor); by eapply writes_only_no_dial.
  - rewrite writes_to_merge_right, writes_to_app, app_nil_r; [done|].
    apply Forall_app. split; [|by repeat constructor].
    by apply (writes_only_not Origin Client).
  - rewrite writes_to_merge_left, writes_to_app, app_nil_r; [done|].
    apply Forall_app. split; [|by repeat constructor].
    by apply (writes_only_not Client Origin).
Qed.

Lemma main_parseHTTPResponse_silent reader :
  Forall (fun e => is_silent e = true) (snd (fst (main.parseHTTPResponse reader))).
Proof.
  unfold main.parseHTTPResponse. repeat case_match; simpl; by repeat constructor.
Qed.

Lemma main_handleHTTP_closes w reader c :
  closes c (main.handleHTTP w reader)
  = match c with
    | Origin => if opened w Origin (main.handleHTTP w reader) then 1 else 0
    | _ => 0
    end.
Proof.
  unfold main.handleHTTP.
  destruct (fst (main.ParseRawHTTP reader)) as [httpObj|e]; [|by destruct c].
  cbv zeta.
  destruct (dial_ok w (JoinHostPort (Host httpObj) (Port httpObj))) eqn:Hdial;
    cbn [negb].
  2: { count_closes. cbn [opens is_close]. rewrite Hdial. by destruct c. }
  match goal with |- context [?r ++ [ConnClose Origin]] => set (reply := r) end.
  assert (Forall (fun e => is_quiet e = true) reply) as Hreply.
  { unfold reply. destruct (write_ok w Origin 0); cbn [negb]; [|by repeat constructor].
    pose proof (main_parseHTTPResponse_silent (origin w)) as Hs.
    destruct (main.parseHTTPResponse (origin w)) as [[[resp|e] es] rd]; simpl in Hs;
      (apply Forall_app; split; [by apply silent_quiet|]).
    - destruct (write_ok w Client 0); by repeat constructor.
    - by repeat constructor. }
  clearbody reply. count_closes. cbn [opens is_close conn_eqb]. rewrite Hdial.
  by destruct c.
Qed.

Lemma main_handleHTTPS_closes w reader c :
  closes c (main.handleHTTPS w reader)
  = match c with
    | Origin => if opened w Origin (main.handleHTTPS w reader) then 1 else 0
    | _ => 0
    end.
Proof.
  unfold main.handleHTTPS.
  destruct (connectLines _ reader []) as [[connectRequest|e] rd]; [|by destruct c].
  cbv zeta.
  destruct (_ <? 3); [by destruct c|].
  match goal with |- context [NetDial ?t] => set (target := t) end.
  destruct (dial_ok w target) eqn:Hdial; cbn [negb].
  2: { count_closes. cbn [opens is_close]. rewrite Hdial. by destruct c. }
  destruct (write_ok w Client 0); cbn [negb].
  - destruct (main_pump w rd) as (Hcl & Hnd & _). cbv zeta in Hcl, Hnd.
    count_closes. rewrite Hcl, (opened_no_dial w Origin _ Hnd).
    cbn [opens is_close conn_eqb]. rewrite Hdial. by destruct c.
  - count_closes. cbn [opens is_close conn_eqb]. rewrite Hdial. by destruct c.
Qed.

Lemma main_handleConnection_cases w :
  main.handleConnection w
  = [SetDeadline Client (30 * Second); Log ERROR "Error peeking connection";
     ConnClose Client]
  \/ main.handleConnection w
     = SetDeadline Client (30 * Second) :: main.handleHTTPS w (client w)
       ++ [ConnClose Client]
  \/ main.handleConnection w
     = SetDeadline Client (30 * Second) :: main.handleHTTP w (client w)
       ++ [ConnClose Client].
Proof.
  unfold main.handleConnection. destruct (Peek (client w) 7) as [peek [e|]]; [by left|].
  case_bool_decide; tauto.
Qed.

(** X13. The stand-alone program closes what it opened exactly once: on
    every path through its dispatcher Close is called once on the client
    socket, as the last action, and on the origin connection once when
    the dial succeeded and never otherwise. Its handlers do not close
    the client socket themselves, and its tunnel half-closes only. *)
Theorem X13_main_closes_once (w : World) :
  let t := main.handleConnection w in
  closes Client t = 1 /\ last t = Some (ConnClose Client) /\
  closes Origin t = (if opened w Origin t then 1 else 0) /\
  closes Client (main.handleHTTP w (client w)) = 0 /\
  closes Client (main.handleHTTPS w (client w)) = 0.
Proof.
  pose proof (main_handleHTTP_closes w (client w)) as Hplain.
  pose proof (main_handleHTTPS_closes w (client w)) as Hconnect.
  cbv zeta.
  assert (forall body,
    (forall c, closes c body
               = match c with
                 | Origin => if opened w Origin body then 1 else 0
                 | _ => 0
                 end) ->
    closes Client (SetDeadline Client (30 * Second) :: body ++ [ConnClose Client]) = 1 /\
    last (SetDeadline Client (30 * Second) :: body ++ [ConnClose Client])
    = Some (ConnClose Client) /\
    closes Origin (SetDeadline Client (30 * Second) :: body ++ [ConnClose Client])
    = (if opened w Origin (SetDeadline Client (30 * Second) :: body ++ [ConnClose Client])
       then 1 else 0)) as Hwrap.
  { intros body Hbody. split_and!.
    - by rewrite closes_cons, closes_app, (Hbody Client).
    - by rewrite app_comm_cons, last_snoc.
    - rewrite closes_cons, closes_app, opened_cons, opened_app, (Hbody Origin).
      cbn. rewrite orb_false_r. by destruct (opened w Origin body). }
  destruct (main_handleConnection_cases w) as [-> | [-> | ->]].
  - split_and!; try reflexivity; [apply (Hplain Client)|apply (Hconnect Client)].
  - destruct (Hwrap _ Hconnect) as (? & ? & ?).
    split_and!; try done; [apply (Hplain Client)|apply (Hconnect Client)].
  - destruct (Hwrap _ Hplain) as (? & ? & ?).
    split_and!; try done; [apply (Hplain Client)|apply (Hconnect Client)].
Qed.

Lemma main_handleHTTPS_dial w reader address :
  In (NetDial address) (main.handleHTTPS w reader) ->
  main.handleHTTPS w reader
  = Log INFO "HTTPS CONNECT" :: NetDial address ::
    (if negb (dial_ok w address)
     then [Log ERROR "Error connecting to target"; ConnWrite Client BadGateway]
     else
       ConnWrite Client ConnectionEstablished ::
       (if negb (write_ok w Client 0) then [Log ERROR "Error sending 200 response"]
        else merge (schedule w)
               (main.clientToServer w
                  (snd (connectLines (S (length (pending reader))) reader [])))
               (main.serverToClient w)
             ++ [WaitReturns])
       ++ [ConnClose Origin]).
Proof.
  unfold main.handleHTTPS.
  destruct (connectLines _ reader []) as [[connectRequest|e] rd];
    [|simpl; intuition discriminate].
  destruct (_ <? 3); [simpl; intuition discriminate|].
  set (target := if negb (Contains _ ":") then _ else _).
  intros [?|[Heq|Hin]]; [discriminate|by simplify_eq|].
  exfalso. destruct (dial_ok w target); simpl in Hin; [|intuition discriminate].
  destruct Hin as [?|Hin]; [discriminate|].
  apply in_app_iff in Hin as [Hin|Hin]; [|simpl in Hin; intuition discriminate].
  destruct (write_ok w Client 0); simpl in Hin; [|intuition discriminate].
  apply in_app_iff in Hin as [Hin|Hin]; [|simpl in Hin; intuition discriminate].
  destruct (main_pump w rd) as (_ & Hnd & _). simpl in Hnd.
  rewrite Forall_forall in Hnd. by apply list_elem_of_In, Hnd in Hin.
Qed.

(** X14. The CONNECT handler of the stand-alone program dials before it
    answers. When the dial fails, the client is sent the 502 line and
    nothing else, and nothing is written to or closed on an origin. When
    it succeeds, the first bytes sent to the client are the 200 line and
    what follows is, in order, a prefix of the bytes the origin sent;
    the origin is sent a prefix of the bytes that follow the CONNECT
    head on the client's stream, those already buffered included. *)
Theorem X14_main_connect_answers (w : World) (reader : Reader) (address : str) :
  In (NetDial address) (main.handleHTTPS w reader) ->
  let t := main.handleHTTPS w reader in
  let buffered := snd (connectLines (S (length (pending reader))) reader []) in
  (dial_ok w address = false ->
   writes_to Client t = [BadGateway] /\ writes_to Origin t = [] /\ closes Origin t = 0) /\
  (dial_ok w address = true ->
   exists relayed,
     writes_to Client t = ConnectionEstablished :: relayed /\
     (exists rest, pending (origin w) = concat relayed ++ rest) /\
     (exists rest, pending buffered = concat (writes_to Origin t) ++ rest) /\
     closes Origin t = 1).
Proof.
  intros Hin t buffered. unfold t. rewrite (main_handleHTTPS_dial w reader address Hin).
  fold buffered. split; intros Hdial; rewrite Hdial; simpl; [done|].
  destruct (write_ok w Client 0); simpl.
  - destruct (main_pump w buffered) as (Hcl & _ & Hc & Ho). simpl in Hcl, Hc, Ho.
    rewrite !writes_to_app, !closes_cons, !closes_app, Hcl, Hc, Ho. simpl.
    eexists. split; [by rewrite app_nil_r|]. rewrite !app_nil_r. split_and!; [| |done].
    + destruct (ioCopy_prefix w Client 1 [pending (origin w)] (closing (origin w)))
        as [rest Hrest]. simpl in Hrest. rewrite app_nil_r in Hrest. by exists rest.
    + destruct (ioCopy_prefix w Origin 0 [pending buffered] (closing buffered))
        as [rest Hrest]. simpl in Hrest. rewrite app_nil_r in Hrest. by exists rest.
  - exists []. split_and!; try done; by eexists.
Qed.

Lemma X14_witness :
  let w := with_dials (fun _ => false) (fun _ => false) quiet in
  let reader := mkReader unreachableConnect io_EOF in
  let t := main.handleHTTPS w reader in
  let buffered := snd (connectLines (S (length (pending reader))) reader []) in
  (dial_ok w "unreachable.test:443" = false ->
   writes_to Client t = [BadGateway] /\ writes_to Origin t = [] /\ closes Origin t = 0) /\
  (dial_ok w "unreachable.test:443" = true ->
   exists relayed,
     writes_to Client t = ConnectionEstablished :: relayed /\
     (exists rest, pending (origin w) = concat relayed ++ rest) /\
     (exists rest, pending buffered = concat (writes_to Origin t) ++ rest) /\
     closes Origin t = 1).
Proof.
  apply (X14_main_connect_answers (with_dials (fun _ => false) (fun _ => false) quiet)
           (mkReader unreachableConnect io_EOF) "unreachable.test:443").
  vm_compute. tauto.
Defined.

Lemma Atoi_error (s : str) :
  snd (Atoi s) = false ->
  fst (Atoi s) = 0%Z \/ fst (Atoi s) = maxInt \/ fst (Atoi s) = minInt.
Proof.
  unfold Atoi. repeat case_match; simpl; try done; tauto.
Qed.

(** X15. The response parser of the stand-alone program and the one of
    the proxy package do the same on every stream, the panic of
    makeslice for a length above runtime.maxAlloc included, with two
    exceptions. An error while reading the body is wrapped by the
    former. For a Content-Length beyond the range of int, which Atoi
    clamps to the largest int and reports as an error, the former skips
    the body and returns a response with an empty one, while the latter
    ignores the error, asks make for that many bytes and panics. *)
Theorem X15_response_parsers_agree (reader : Reader) :
  match main.parseHTTPResponse_run reader with
  | Panics => parseResponse_run reader = Panics
  | Returns (Ok resp, _, _) =>
    (exists reader', parseResponse_run reader = Returns (Ok resp, reader')) \/
    (parseResponse_run reader = Panics /\
     exists cl, Headers resp !! ("Content-Length" : str) = Some cl /\
                Atoi cl = (maxInt, false) /\ Body resp = [])
  | Returns (Err e, _, _) =>
    exists e' reader',
      parseResponse_run reader = Returns (Err e', reader') /\
      (e = e' \/ e = wrapError "error reading response body" e')
  end.
Proof.
  unfold main.parseHTTPResponse_run, parseResponse_run, main.allocation, allocation,
    headersReached, main.parseHTTPResponse, parseResponse.
  destruct (ReadString reader) as [[statusLine [e|]] rd]; [simpl; eauto|].
  destruct (_ <? 2); [simpl; eauto|].
  destruct (responseHeaders _ rd ∅ statusLine) as [[[headers buf]|e] rd'];
    [|simpl; eauto].
  unfold responseBody.
  destruct (headers !! ("Content-Length" : str)) as [cl|] eqn:Hcl.
  2: { destruct (headers !! ("Transfer-Encoding" : str)) as [te|];
         [destruct (Contains te "chunked")|]; simpl; left; eauto. }
  pose proof (Atoi_error cl) as Herr.
  destruct (Atoi cl) as [len ok] eqn:Hatoi. simpl in *.
  destruct ok; simpl.
  - destruct (0 <? len)%Z; [|simpl; left; eauto].
    destruct (makeslice_panics len); [done|].
    destruct (ReadFull rd' (Z.to_nat len)) as [[body|e] rd'']; simpl; eauto.
  - destruct Herr as [-> | [-> | ->]]; [done|simpl; left; eauto| |simpl; left; eauto].
    right. split; [reflexivity|]. exists cl. by rewrite Hatoi.
Qed.

(** A Content-Length of twenty nines: the stand-alone program returns
    the response without a body, the proxy package panics. *)
Example overflowing_length :
  let reply := "HTTP/1.1 200 OK" ++ CRLF ++ "Content-Length: 99999999999999999999"
               ++ CRLF ++ CRLF ++ "hi" in
  (exists resp,
     main.parseHTTPResponse_run (mkReader reply io_EOF)
     = Returns (Ok resp, [LogPrintf "Warning: Malformed Content-Length header"],
                mkReader "hi" io_EOF) /\
     Body resp = []) /\
  parseResponse_run (mkReader reply io_EOF) = Panics.
Proof. split; [eexists; split; by vm_compute|by vm_compute]. Qed.

(** ** The blocklist matches whole hosts *)

Lemma EqualFold_ASCII_length w (s t : str) :
  forallb isASCII s = true -> forallb isASCII t = true ->
  EqualFold w s t = true -> length s = length t.
Proof.
  revert t. induction s as [|c s IH]; intros [|d t]; simpl; try done.
  intros [-> Hs]%andb_prop [-> Ht]%andb_prop. simpl.
  intros [_ H]%andb_prop. by rewrite (IH t Hs Ht H).
Qed.

(** X16. Among ASCII names the blocklist matches whole hosts only: an
    ASCII host whose length differs from the length of every entry the
    scanner delivers, all of them ASCII, is not blocked, so neither a
    subdomain of a listed host nor a listed host written with a trailing
    dot is. (Beyond ASCII, strings.EqualFold equates strings of
    different lengths.) *)
Theorem X16_blocklist_matches_whole_hosts (w : World) (host : str) :
  forallb isASCII host = true ->
  (forall H, In H (scannedHosts w) ->
             forallb isASCII H = true /\ length H <> length host) ->
  snd (checkAndBlockHost w host) = false /\
  writes_to Client (fst (checkAndBlockHost w host)) = [].
Proof.
  intros Hascii Hlen.
  assert (snd (checkAndBlockHost w host) = false) as Hpass.
  { apply checkAndBlockHost_unlisted. intros H Hin.
    destruct (Hlen H Hin) as [HH Hne].
    destruct (EqualFold w host H) eqn:E; [|done].
    apply EqualFold_ASCII_length in E; [|done..]. by destruct Hne. }
  split; [done|].
  destruct (checkAndBlockHost_shape w host) as (es & -> & _ & Hw & _).
  by rewrite Hpass in Hw.
Qed.

Lemma X16_witness :
  snd (checkAndBlockHost blockWorld "a.ads.test") = false /\
  writes_to Client (fst (checkAndBlockHost blockWorld "a.ads.test")) = [].
Proof.
  apply (X16_blocklist_matches_whole_hosts blockWorld "a.ads.test").
  - reflexivity.
  - intros H Hin. vm_compute in Hin.
    destruct Hin as [<-|[<-|[]]]; (split; [reflexivity|vm_compute; lia]).
Defined.

(** ** Host and port of a parsed request *)

Lemma consHead_colon_free c parts :
  c <> ":"%char ->
  Forall (fun p => ~ In ":"%char p) parts ->
  Forall (fun p => ~ In ":"%char p) (consHead c parts).
Proof.
  intros Hc Hparts. destruct Hparts as [|p ps Hp Hps]; simpl.
  - constructor; [|constructor]. by intros [?|[]].
  - constructor; [|done]. by intros [?|?].
Qed.

Lemma Split_colon_free (s : str) : Forall (fun p => ~ In ":"%char p) (Split s ":").
Proof.
  induction s as [|c s IH];
    [rewrite Split_colon_nil; constructor; [by intros []|constructor]|].
  rewrite Split_colon_cons. destruct (Ascii.eqb_spec ":" c) as [<-|Hne].
  - constructor; [by intros []|done].
  - apply consHead_colon_free; [congruence|done].
Qed.

Lemma nth_colon_free i (parts : list str) :
  Forall (fun p => ~ In ":"%char p) parts -> ~ In ":"%char (nth i parts []).
Proof.
  intros H. revert i. induction H as [|p ps Hp _ IH]; intros [|i]; simpl;
    [by intros []|by intros []|done|apply IH].
Qed.

Lemma requestHeader_colon_free key value req :
  ~ In ":"%char (Host req) -> ~ In ":"%char (Port req) ->
  ~ In ":"%char (Host (requestHeader key value req)) /\
  ~ In ":"%char (Port (requestHeader key value req)).
Proof.
  intros HH HP. unfold requestHeader. pose proof (Split_colon_free value) as Hs.
  repeat case_bool_decide; try done.
  destruct (1 <? _); simpl; split; try done; by apply nth_colon_free.
Qed.

Lemma requestHeaders_colon_free fuel reader req raw req' raw' reader' :
  requestHeaders fuel reader req raw = (Ok (req', raw'), reader') ->
  ~ In ":"%char (Host req) -> ~ In ":"%char (Port req) ->
  ~ In ":"%char (Host req') /\ ~ In ":"%char (Port req').
Proof.
  revert reader req raw.
  induction fuel as [|fuel IH]; intros reader req raw; [done|].
  rewrite requestHeaders_S. destruct (ReadString reader) as [[line [err|]] rd].
  - destruct (is_EOF err); [|done]. intros ?; by simplify_eq.
  - case_bool_decide; [intros ?; by simplify_eq|].
    case_bool_decide; [apply IH|].
    intros Hrec HH HP. apply IH in Hrec; [done|by apply requestHeader_colon_free..].
Qed.

Lemma parseRequest_colon_free reader req :
  fst (parseRequest reader) = Ok req ->
  ~ In ":"%char (Host req) /\ ~ In ":"%char (Port req).
Proof.
  unfold parseRequest. destruct (ReadString reader) as [[firstLine [err|]] rd]; [done|].
  destruct (_ <? 3); [done|].
  match goal with |- context [requestHeaders ?f ?r ?q ?raw] =>
    destruct (requestHeaders f r q raw) as [[[q' raw']|e] rd'] eqn:Hloop; [|done]
  end.
  cbn [fst]. intros ?; simplify_eq.
  apply requestHeaders_colon_free in Hloop; [done|cbn..]; [by intros []|].
  vm_compute. intuition discriminate.
Qed.

(** X17. The host and the port of a parsed request hold no colon, so
    net.JoinHostPort never brackets the host: every address that
    handleHTTP dials is the host, one colon and the port. An IPv6
    literal in the Host header is therefore never dialled as such. *)
Theorem X17_dialled_address (w : World) (reader : Reader) (req : HTTPRequest) :
  fst (parseRequest reader) = Ok req ->
  ~ In ":"%char (Host req) /\ ~ In ":"%char (Port req) /\
  JoinHostPort (Host req) (Port req) = Host req ++ ":" ++ Port req /\
  forall address, In (NetDial address) (fst (handleHTTP w reader)) ->
                  address = Host req ++ ":" ++ Port req.
Proof.
  intros Hreq. destruct (parseRequest_colon_free reader req Hreq) as [HH HP].
  assert (JoinHostPort (Host req) (Port req) = Host req ++ ":" ++ Port req) as Hjoin.
  { unfold JoinHostPort. destruct (Contains (Host req) ":") eqn:E; [|done].
    by apply Contains_colon in E. }
  split_and!; try done. intros address Hin.
  destruct (handleHTTP_cases w reader) as
    [(e & He & _)|(req' & es & Hreq' & Hq & _ & Hcases)]; [congruence|].
  assert (req' = req) as -> by congruence. rewrite Hjoin in Hcases.
  assert (~ In (NetDial address) es) as Hes.
  { intros Hd. by pose proof (quiet_no_dial _ _ Hq Hd). }
  assert (forall reply, Forall (fun e => is_quiet e = true) reply ->
                        ~ In (NetDial address) reply) as Hquiet.
  { intros reply Hr Hd. by pose proof (quiet_no_dial _ _ Hr Hd). }
  destruct Hcases as [(_ & _ & Ht)|[(_ & _ & _ & Ht)|(_ & _ & _ & reply & Hr & _ & Ht)]];
    rewrite Ht in Hin; clear Ht;
    [|pose proof (Hquiet [] ltac:(constructor)) as Hreply
     |pose proof (Hquiet reply Hr) as Hreply];
    simpl in Hin; rewrite in_app_iff in Hin; simpl in Hin;
    rewrite ?in_app_iff in Hin; simpl in Hin;
    intuition (try discriminate);
    match goal with
    | H : NetDial _ = NetDial _ |- _ => injection H as <-; reflexivity
    end.
Qed.

Lemma X17_witness :
  ~ In ":"%char (Host blockedReq) /\ ~ In ":"%char (Port blockedReq) /\
  JoinHostPort (Host blockedReq) (Port blockedReq)
  = Host blockedReq ++ ":" ++ Port blockedReq /\
  forall address,
    In (NetDial address) (fst (handleHTTP quiet (mkReader blockedGet io_EOF))) ->
    address = Host blockedReq ++ ":" ++ Port blockedReq.
Proof.
  apply (X17_dialled_address quiet (mkReader blockedGet io_EOF) blockedReq). reflexivity.
Defined.

(** ** humanizeBytes *)

Lemma wrap64_small (z : Z) : (minInt <= z <= maxInt)%Z -> wrap64 z = z.
Proof.
  unfold wrap64, minInt, maxInt. intros Hz.
  rewrite Z.mod_small by lia. lia.
Qed.

Lemma humanizeLoop_spec (b : Z) (fuel : nat) :
  forall (n div : Z) (exp : nat),
    (b <= maxInt)%Z -> (1 <= n)%Z -> (0 < div)%Z -> n = (b / div)%Z ->
    div = (1024 ^ Z.of_nat (S exp))%Z ->
    (n < 1024 ^ Z.of_nat fuel)%Z ->
    exists div' exp',
      logger.humanizeLoop fuel n div exp = Some (div', exp') /\
      div' = (1024 ^ Z.of_nat (S exp'))%Z /\
      (div' <= b < 1024 * div')%Z.
Proof.
  induction fuel as [|fuel IH]; intros n div exp Hmax Hn Hdiv Hquot Hpow Hfuel.
  { simpl in Hfuel. lia. }
  cbn [logger.humanizeLoop]. unfold logger.unit.
  assert (div * n <= b)%Z as Hlow.
  { subst n. apply Z.mul_div_le. lia. }
  assert (b < div * (n + 1))%Z as Hhigh.
  { subst n. pose proof (Z.mod_pos_bound b div Hdiv) as Hmod.
    pose proof (Z.div_mod b div ltac:(lia)) as Hdm. nia. }
  destruct (1024 <=? n)%Z eqn:E.
  - apply Z.leb_le in E.
    assert (div * 1024 <= b)%Z as Hroom by nia.
    rewrite wrap64_small by (unfold minInt; lia).
    rewrite Z.quot_div_nonneg by lia.
    apply IH; try done.
    + apply Z.div_le_lower_bound; lia.
    + lia.
    + subst n. rewrite Z.div_div by lia. done.
    + rewrite Hpow. rewrite (Nat2Z.inj_succ (S exp)), Z.pow_succ_r by lia. lia.
    + apply Z.div_lt_upper_bound; [lia|].
      rewrite Nat2Z.inj_succ, Z.pow_succ_r in Hfuel by lia. lia.
  - apply Z.leb_gt in E. exists div, exp. split_and!; try done; nia.
Qed.

(** X18. humanizeBytes never indexes beyond its six unit letters. Below
    1024 it formats the number itself. From 1024 up to the largest int
    the loop leaves [div] a power of 1024 with [div <= b < 1024 * div],
    computed without overflow, so the scaled value lies in [1, 1024),
    and [exp] is at most 5, the index of the last letter. *)
Theorem X18_humanizeBytes_unit (b : Z) :
  (minInt <= b <= maxInt)%Z ->
  ((b < 1024)%Z -> logger.humanizeBytes b = Some (logger.Plain b)) /\
  ((1024 <= b)%Z ->
   exists div exp suffix,
     logger.humanizeBytes b = Some (logger.Scaled b div suffix) /\
     exp <= 5 /\ nth_error (list_ascii_of_string "KMGTPE") exp = Some suffix /\
     div = (1024 ^ Z.of_nat (S exp))%Z /\ (div <= b < 1024 * div)%Z).
Proof.
  intros [Hmin Hmax]. unfold logger.humanizeBytes, logger.unit. split; intros Hb.
  - apply Z.ltb_lt in Hb. by rewrite Hb.
  - assert ((b <? 1024)%Z = false) as -> by by apply Z.ltb_ge.
    rewrite Z.quot_div_nonneg by lia.
    destruct (humanizeLoop_spec b 64 (b / 1024) 1024 0) as (div & exp & -> & Hdiv & Hb');
      try done; try lia.
    + apply Z.div_le_lower_bound; lia.
    + apply Z.div_lt_upper_bound; [lia|]. unfold maxInt in Hmax. lia.
    + assert (exp <= 5) as Hexp.
      { destruct (decide (exp <= 5)) as [|Hbig]; [done|]. exfalso.
        assert (1024 ^ 7 <= 1024 ^ Z.of_nat (S exp))%Z
          by (apply Z.pow_le_mono_r; lia).
        unfold maxInt in Hmax. lia. }
      destruct exp as [|[|[|[|[|[|exp]]]]]]; try lia; eexists _, _, _;
        (split; [reflexivity|]); split_and!; try done; lia.
Qed.

Lemma X18_witness :
  ((1536 < 1024)%Z -> logger.humanizeBytes 1536 = Some (logger.Plain 1536)) /\
  ((1024 <= 1536)%Z ->
   exists div exp suffix,
     logger.humanizeBytes 1536 = Some (logger.Scaled 1536 div suffix) /\
     exp <= 5 /\ nth_error (list_ascii_of_string "KMGTPE") exp = Some suffix /\
     div = (1024 ^ Z.of_nat (S exp))%Z /\ (div <= 1536 < 1024 * div)%Z).
Proof.
  apply (X18_humanizeBytes_unit 1536). unfold minInt, maxInt. lia.
Defined.

(** ** Deadlines *)

Lemma quiet_no_any_deadline t :
  Forall (fun e => is_quiet e = true) t -> Forall (fun e => is_any_deadline e = false) t.
Proof. intros H. eapply Forall_impl; [exact H|]. by intros []. Qed.

Lemma no_deadline_only_client t :
  Forall (fun e => is_any_deadline e = false) t ->
  Forall (fun e => only_client_deadline e = true) t.
Proof. intros H. eapply Forall_impl; [exact H|]. by intros []. Qed.

Lemma tunnelConnections_no_deadline w :
  Forall (fun e => is_any_deadline e = false) (tunnelConnections w).
Proof.
  unfold tunnelConnections.
  destruct (clientToServer_shape w) as (copy & -> & Hc).
  destruct (serverToClient_shape w) as (forward & -> & Hf).
  apply Forall_app. split; [|by repeat constructor].
  apply Forall_merge; apply Forall_app; split; try by repeat constructor.
  all: by apply quiet_no_any_deadline.
Qed.

Lemma handleHTTPS_no_deadline w reader :
  Forall (fun e => is_any_deadline e = false) (handleHTTPS w reader).
Proof.
  destruct (handleHTTPS_cases w reader) as
    [(err & _ & ->)|(target & domain & es & _ & Hq & _ & [(_ & _ & ->)|(_ & _ & ->)])].
  - by repeat constructor.
  - constructor; [done|]. apply Forall_app. split; [by apply quiet_no_any_deadline|].
    by repeat constructor.
  - pose proof (establishMITMTunnel_cases w target domain) as Hm.
    pose proof (tunnelConnections_no_deadline w) as Ht.
    destruct (establishMITMTunnel w target domain) as [mitm err].
    constructor; [done|]. rewrite !Forall_app.
    split_and!; [by apply quiet_no_any_deadline| |destruct err|]; try by repeat constructor.
    destruct Hm as [(_ & [-> | [-> | ->]]) | [(_ & _ & ->) | (_ & _ & ->)]];
      try by repeat constructor.
    repeat (constructor; [done|]). apply Forall_app. split; [done|by repeat constructor].
Qed.

Lemma handleHTTP_one_deadline w reader :
  exists rest,
    fst (handleHTTP w reader) = SetDeadline Client (30 * Second) :: rest /\
    Forall (fun e => is_any_deadline e = false) rest.
Proof.
  destruct (handleHTTP_cases w reader) as
    [(e & _ & ->)|(req & es & _ & Hq & _ & [(_ & _ & ->)|[(_ & _ & _ & ->)|
      (_ & _ & _ & reply & Hr & _ & ->)]])];
    (eexists; split; [reflexivity|]).
  - by repeat constructor.
  - constructor; [done|]. apply Forall_app. split; [by apply quiet_no_any_deadline|].
    by repeat constructor.
  - constructor; [done|]. apply Forall_app. split; [by apply quiet_no_any_deadline|].
    by repeat constructor.
  - constructor; [done|]. apply Forall_app. split; [by apply quiet_no_any_deadline|].
    repeat (constructor; [done|]). apply Forall_app.
    split; [by apply quiet_no_any_deadline|by repeat constructor].
Qed.

(** X19. The one deadline the proxy package ever arms is the 30 seconds
    on the client socket. The dispatcher arms it first of all,
    handleHTTP arms it once more as its first action, and nothing else
    does: handleHTTPS arms none, so neither the origin connection nor
    either TLS endpoint of a tunnel is given a deadline of its own. *)
Theorem X19_one_deadline (w : World) (reader : Reader) :
  Forall (fun e => is_any_deadline e = false) (handleHTTPS w reader) /\
  (exists rest,
     fst (handleHTTP w reader) = SetDeadline Client (30 * Second) :: rest /\
     Forall (fun e => is_any_deadline e = false) rest) /\
  (exists rest,
     handleConnection w = SetDeadline Client (30 * Second) :: rest /\
     Forall (fun e => only_client_deadline e = true) rest).
Proof.
  split_and!; [apply handleHTTPS_no_deadline|apply handleHTTP_one_deadline|].
  destruct (handleConnection_cases w) as [[_ ->]|[[_ ->]|[_ ->]]];
    (eexists; split; [reflexivity|]).
  - by repeat constructor.
  - apply Forall_app. split; [|by repeat constructor].
    apply no_deadline_only_client, handleHTTPS_no_deadline.
  - apply Forall_app. split; [|by repeat constructor].
    destruct (handleHTTP_one_deadline w (client w)) as (rest & -> & Hrest).
    constructor; [done|]. by apply no_deadline_only_client.
Qed.

Lemma after_marker (P : event -> bool) (m : event) pre0 t pre e post :
  P m = false ->
  Forall (fun e => P e = false) pre0 ->
  pre0 ++ m :: t = pre ++ e :: post ->
  P e = true -> In m pre.
Proof.
  intros Hm H0. revert pre. induction H0 as [|a pre0 Ha _ IH]; intros [|x pre] Heq He;
    simpl in *; simplify_eq.
  - by rewrite He in Hm.
  - by left.
  - by rewrite He in Ha.
  - right. by eapply IH.
Qed.

Lemma nothing_inside (P : event -> bool) t pre e post :
  Forall (fun e => P e = false) t -> t = pre ++ e :: post -> P e = false.
Proof.
  intros H ->. rewrite Forall_app, Forall_cons in H. tauto.
Qed.

(** X20. The plaintext forwarder of the stand-alone program arms the 30
    seconds deadline on the origin connection before it writes to it:
    in every run of its handleHTTP, each write to the origin comes after
    SetDeadline on the origin. *)
Theorem X20_main_arms_origin_deadline
        (w : World) (reader : Reader) (pre post : list event) (data : str) :
  main.handleHTTP w reader = pre ++ ConnWrite Origin data :: post ->
  In (SetDeadline Origin (30 * Second)) pre.
Proof.
  unfold main.handleHTTP.
  destruct (fst (main.ParseRawHTTP reader)) as [httpObj|e].
  2: { intros Heq. assert (is_write Origin (ConnWrite Origin data) = false) as Hno; [|done].
       eapply nothing_inside; [|exact Heq]. by repeat constructor. }
  cbv zeta.
  destruct (dial_ok w (JoinHostPort (Host httpObj) (Port httpObj))); cbn [negb].
  2: { intros Heq. assert (is_write Origin (ConnWrite Origin data) = false) as Hno; [|done].
       eapply nothing_inside; [|exact Heq]. by repeat constructor. }
  intros Heq.
  eapply (after_marker (is_write Origin) (SetDeadline Origin (30 * Second))
            [Log INFO "HTTP"; NetDial (JoinHostPort (Host httpObj) (Port httpObj))]);
    [done|by repeat constructor|exact Heq|done].
Qed.

Lemma X20_witness :
  In (SetDeadline Origin (30 * Second))
     [Log INFO "HTTP"; NetDial "example.test:80"; SetDeadline Origin (30 * Second)].
Proof.
  apply (X20_main_arms_origin_deadline plainWorld (mkReader plainGet io_EOF)
           [Log INFO "HTTP"; NetDial "example.test:80"; SetDeadline Origin (30 * Second)]
           [Log INFO "Response"; ConnWrite Client plainReply; ConnClose Origin]
           plainGet).
  reflexivity.
Defined.

(** ** Blocked hosts *)



Lemma hostsOf_app (a b : list str) : hostsOf (a ++ b) = hostsOf a ++ hostsOf b.
Proof. unfold hostsOf. by rewrite List.map_app, List.filter_app. Qed.


Lemma rawLines_first (l rest acc : str) :
  ~ In LF l ->
  rawLines acc (l ++ LF :: rest) = rev (rev l ++ acc) :: rawLines [] rest.
Proof.
  revert acc. induction l as [|c l IH]; intros acc Hno; cbn [app rawLines rev].
  - by rewrite Ascii.eqb_refl.
  - destruct (Ascii.eqb_spec c LF) as [->|_]; [destruct Hno; by left|].
    rewrite IH by (intros ?; apply Hno; by right). by rewrite <- app_assoc.
Qed.

(** A blocklist file whose first line has 64 KiB or more: the scanner
    stops with an error before it delivers a line, the lookup fails
    open, and no host is blocked, whatever the lines that follow. *)
Lemma long_first_line_blocks_nothing (w : World) (l rest : str) :
  blocked_file w = Some (l ++ LF :: rest) -> ~ In LF l ->
  (MaxScanTokenSize <= Z.of_nat (length l))%Z ->
  scannedHosts w = [] /\
  hostsOf (List.map dropCR (rawLines [] rest)) `sublist_of` BlocklistSnapshot w /\
  forall domain, snd (checkAndBlockHost w domain) = false.
Proof.
  intros Hfile Hno Hlong.
  assert (scannedHosts w = []) as Hnone.
  { unfold scannedHosts, Scan. rewrite Hfile, rawLines_first by done. simpl.
    rewrite app_nil_r, rev_involutive.
    by destruct (Z.leb_spec MaxScanTokenSize (Z.of_nat (length l))); [|lia]. }
  split_and!; [done| |].
  - unfold BlocklistSnapshot. rewrite Hfile, rawLines_first by done.
    change (List.map dropCR (?x :: ?t)) with ([dropCR x] ++ List.map dropCR t).
    rewrite hostsOf_app. by apply sublist_inserts_l.
  - intros domain. apply checkAndBlockHost_unlisted. rewrite Hnone. by intros H [].
Qed.



